(** * Conditional formatting engine of [reportlabcustom.utils]

    A shallow embedding of the colour helpers ([hex_to_rgb], [rgb_to_hex],
    [interpolate_color], [get_gradient_color]) and of the rule evaluator
    ([evaluate_formatting_rules]) of [src/reportlabcustom/utils.py], followed
    by the properties of the specification that concern them.

    Conventions of the embedding.
    - Python values are the inductive [pyval]; a raised exception is the
      [Raise] outcome of the error monad [res].
    - Python floats are idealised: a finite float is a rational ([Q]), and
      the only non-finite float kept is NaN.  Rounding and infinities are
      outside the model.
    - A Python [str] is a Rocq [string] whose characters are code points
      below 256; the keys of a dict are strings.
    - The behaviour of pandas and of the Python runtime that the repository
      does not define (date parsing, [float] of a string, [repr], the
      iteration order of a [set]) is the interface [PyLib]; the clock, the
      host's time zone and the global names of the module are the
      environment [Env].  Every theorem holds for every [PyLib] and [Env]. *)

From Stdlib Require Import ZArith QArith Qround String Ascii List.
From Stdlib Require Import HexadecimalString HexadecimalN.
From Stdlib Require Import Lqa Qabs.
From stdpp Require Import gmap strings list pretty.

Close Scope Q_scope.
Local Open Scope Z_scope.
Set Warnings "-register-all".

(** ** Exceptions and the error monad *)

Inductive exn_kind :=
| TypeError | ValueError | IndexError | KeyError | AttributeError
| ZeroDivisionError.

#[global] Instance exn_kind_eq_dec : EqDecision exn_kind.
Proof. solve_decision. Defined.

Record exn := Exn { exn_kind_of : exn_kind; exn_msg : string }.

Inductive res (A : Type) :=
| Ok (a : A)
| Raise (e : exn).
Arguments Ok {A} a.
Arguments Raise {A} e.

Definition bind {A B} (m : res A) (f : A → res B) : res B :=
  match m with
  | Ok a => f a
  | Raise e => Raise e
  end.

Notation "x <- m ;; k" := (bind m (fun x => k))
  (at level 100, m at next level, right associativity).

Definition raise {A} (k : exn_kind) (msg : string) : res A := Raise (Exn k msg).

(** [raises k r]: the computation [r] ends with an exception of kind [k]. *)
Definition raises {A} (k : exn_kind) (r : res A) : bool :=
  match r with
  | Raise (Exn k' _) => bool_decide (k' = k)
  | Ok _ => false
  end.

Definition returns {A} (r : res A) : bool :=
  match r with
  | Ok _ => true
  | Raise _ => false
  end.

(** ** Python values *)

(** A pandas [Timestamp] without time zone: the proleptic Gregorian ordinal
    of its day and the time within the day. *)
Record timestamp := Timestamp { ts_day : Z; ts_nanos : Z }.

Inductive pyval :=
| VNone
| VBool (b : bool)
| VInt (z : Z)
| VFloat (q : Q)
| VNaN
| VStr (s : string)
| VTimestamp (t : timestamp)
| VList (l : list pyval)
| VDict (d : list (string * pyval)).

(** A float as arithmetic sees it. *)
Inductive num :=
| Num (q : Q)
| NaN.

Definition as_num (v : pyval) : option num :=
  match v with
  | VBool b => Some (Num (inject_Z (if b then 1 else 0)))
  | VInt z => Some (Num (inject_Z z))
  | VFloat q => Some (Num q)
  | VNaN => Some NaN
  | _ => None
  end.

Definition type_name (v : pyval) : string :=
  match v with
  | VNone => "NoneType"
  | VBool _ => "bool"
  | VInt _ => "int"
  | VFloat _ | VNaN => "float"
  | VStr _ => "str"
  | VTimestamp _ => "Timestamp"
  | VList _ => "list"
  | VDict _ => "dict"
  end.

(** [bool(v)], as [if v] and [not v] use it. *)
Definition truthy (v : pyval) : bool :=
  match v with
  | VNone => false
  | VBool b => b
  | VInt z => negb (z =? 0)
  | VFloat q => negb (Qeq_bool q (inject_Z 0))
  | VNaN => true
  | VStr s => negb (String.eqb s "")
  | VTimestamp _ => true
  | VList l => match l with [] => false | _ => true end
  | VDict d => match d with [] => false | _ => true end
  end.

(** [v == 'lit'] for a string literal. *)
Definition eq_lit (v : pyval) (lit : string) : bool :=
  match v with
  | VStr s => String.eqb s lit
  | _ => false
  end.

Definition is_none (v : pyval) : bool :=
  match v with
  | VNone => true
  | _ => false
  end.

Fixpoint assoc (k : string) (d : list (string * pyval)) : option pyval :=
  match d with
  | [] => None
  | (k', v) :: d' => if String.eqb k k' then Some v else assoc k d'
  end.

(** ** Strings *)

Definition code (c : ascii) : Z := Z.of_N (N_of_ascii c).

(** The characters [str.strip] treats as white space, and those [int]
    does: [int] leaves the ASCII separators 28 to 31 alone. *)
Definition is_space (c : ascii) : bool :=
  let n := code c in
  ((9 <=? n) && (n <=? 13)) || ((28 <=? n) && (n <=? 32))
  || (n =? 133) || (n =? 160).

Definition is_int_space (c : ascii) : bool :=
  let n := code c in
  ((9 <=? n) && (n <=? 13)) || (n =? 32) || (n =? 133) || (n =? 160).

Fixpoint lstrip_if (space : ascii → bool) (s : string) : string :=
  match s with
  | String c s' => if space c then lstrip_if space s' else s
  | EmptyString => EmptyString
  end.

Fixpoint rstrip_if (space : ascii → bool) (s : string) : string :=
  match s with
  | String c s' =>
      match rstrip_if space s' with
      | EmptyString => if space c then EmptyString else String c EmptyString
      | r => String c r
      end
  | EmptyString => EmptyString
  end.

(** [s.strip()] *)
Definition strip (s : string) : string := rstrip_if is_space (lstrip_if is_space s).

(** [s.lstrip(ch)] for a one-character argument. *)
Fixpoint lstrip_char (ch : ascii) (s : string) : string :=
  match s with
  | String c s' => if Ascii.eqb c ch then lstrip_char ch s' else s
  | EmptyString => EmptyString
  end.

Definition lower_char (c : ascii) : ascii :=
  let n := code c in
  if ((65 <=? n) && (n <=? 90))
     || ((192 <=? n) && (n <=? 222) && negb (n =? 215))
  then ascii_of_N (Z.to_N (n + 32)) else c.

(** [s.lower()] *)
Fixpoint lower (s : string) : string :=
  match s with
  | String c s' => String (lower_char c) (lower s')
  | EmptyString => EmptyString
  end.

(** [needle in hay] *)
Fixpoint str_in (needle hay : string) : bool :=
  String.prefix needle hay
  || match hay with
     | String _ hay' => str_in needle hay'
     | EmptyString => false
     end.

(** [s[i:j]] for [0 <= i <= j]. *)
Definition slice (i j : nat) (s : string) : string := substring i (j - i) s.

Fixpoint join (sep : string) (l : list string) : string :=
  match l with
  | [] => ""
  | [x] => x
  | x :: l' => x +:+ sep +:+ join sep l'
  end.

(** ** [int(s, 16)] *)

Definition hex_digit_value (c : ascii) : option Z :=
  let n := code c in
  if (48 <=? n) && (n <=? 57) then Some (n - 48)
  else if (97 <=? n) && (n <=? 102) then Some (n - 87)
  else if (65 <=? n) && (n <=? 70) then Some (n - 55)
  else None.

(** Digits with single underscores between them; [prev_us] records that the
    previous character was an underscore. *)
Fixpoint hex_digits (s : string) (acc : Z) (prev_us : bool) : option Z :=
  match s with
  | EmptyString => if prev_us then None else Some acc
  | String c s' =>
      if Ascii.eqb c "_" then
        if prev_us then None else hex_digits s' acc true
      else
        match hex_digit_value c with
        | Some d => hex_digits s' (16 * acc + d) false
        | None => None
        end
  end.

Definition hex_body (s : string) : option Z :=
  match s with
  | EmptyString => None
  | String c _ => if Ascii.eqb c "_" then None else hex_digits s 0 false
  end.

(** The optional [0x] prefix, after which one underscore is allowed. *)
Definition skip_0x (s : string) : string :=
  match s with
  | String "0" (String x r) =>
      if Ascii.eqb x "x" || Ascii.eqb x "X" then
        match r with
        | String "_" r' => r'
        | _ => r
        end
      else s
  | _ => s
  end.

(** The optional sign: whether it is a minus, and the rest. *)
Definition split_sign (t : string) : bool * string :=
  match t with
  | String "-" u => (true, u)
  | String "+" u => (false, u)
  | _ => (false, t)
  end.

Definition int16 (s : string) : res Z :=
  let su := split_sign (rstrip_if is_int_space (lstrip_if is_int_space s)) in
  match hex_body (skip_0x su.2) with
  | Some n => Ok (if su.1 then - n else n)
  | None => raise ValueError ("invalid literal for int() with base 16: '" +:+ s +:+ "'")
  end.

(** ** Colour helpers *)

(** [hex_to_rgb(hex_color)] *)
Definition hex_to_rgb (hex_color : pyval) : res (Z * Z * Z) :=
  match hex_color with
  | VStr s =>
      let h := lstrip_char "#" s in
      r <- int16 (slice 0 2 h);;
      g <- int16 (slice 2 4 h);;
      b <- int16 (slice 4 6 h);;
      Ok (r, g, b)
  | _ => raise AttributeError ("'" +:+ type_name hex_color +:+ "' object has no attribute 'lstrip'")
  end.

(** [int(x)] of a float: truncation towards zero; NaN has no integer. *)
Definition trunc (q : Q) : Z :=
  if Qle_bool (inject_Z 0) q then Qfloor q else Qceiling q.

Definition int_of_num (x : num) : res Z :=
  match x with
  | Num q => Ok (trunc q)
  | NaN => raise ValueError "cannot convert float NaN to integer"
  end.

Definition hex_of_N (n : N) : string := NilZero.string_of_uint (N.to_hex_uint n).

(** ['{:02x}'.format(n)]: lower-case digits, padded with zeros to two
    characters, the sign counted in the width. *)
Definition format_02x (n : Z) : string :=
  let body := hex_of_N (Z.abs_N n) in
  if n <? 0 then "-" +:+ body
  else if (String.length body <? 2)%nat then "0" +:+ body else body.

(** [rgb_to_hex(rgb)] *)
Definition rgb_to_hex (rgb : num * num * num) : res string :=
  let '(x0, x1, x2) := rgb in
  r <- int_of_num x0;;
  g <- int_of_num x1;;
  b <- int_of_num x2;;
  Ok ("#" +:+ format_02x r +:+ format_02x g +:+ format_02x b).

(** [a + (b - a) * factor] for integers [a], [b] and a float [factor]. *)
Definition lerp (a b : Z) (factor : num) : num :=
  match factor with
  | Num f => Num (inject_Z a + inject_Z (b - a) * f)%Q
  | NaN => NaN
  end.

(** [interpolate_color(color1, color2, factor)] *)
Definition interpolate_color (color1 color2 : pyval) (factor : num) : res string :=
  rgb1 <- hex_to_rgb color1;;
  rgb2 <- hex_to_rgb color2;;
  let '(r1, g1, b1) := rgb1 in
  let '(r2, g2, b2) := rgb2 in
  rgb_to_hex (lerp r1 r2 factor, lerp g1 g2 factor, lerp b1 b2 factor).

(** ** Comparisons and arithmetic of the gradient *)

Definition Qlt_bool (a b : Q) : bool := negb (Qle_bool b a).

(** A comparison of two floats; every comparison with NaN is false. *)
Definition num_cmp (op : Q → Q → bool) (x y : num) : bool :=
  match x, y with
  | Num a, Num b => op a b
  | _, _ => false
  end.

Definition unorderable {A} (sym : string) : res A :=
  raise TypeError ("'" +:+ sym +:+ "' not supported between instances").

(** [x <= v], [x >= v], [x < v], [x > v] for a float [x] and any value [v]. *)
Definition num_le (x : num) (v : pyval) : res bool :=
  match as_num v with
  | Some y => Ok (num_cmp Qle_bool x y)
  | None => unorderable "<="
  end.

Definition num_ge (x : num) (v : pyval) : res bool :=
  match as_num v with
  | Some y => Ok (num_cmp (fun a b => Qle_bool b a) x y)
  | None => unorderable ">="
  end.

Definition num_lt (x : num) (v : pyval) : res bool :=
  match as_num v with
  | Some y => Ok (num_cmp Qlt_bool x y)
  | None => unorderable "<"
  end.

Definition num_gt (x : num) (v : pyval) : res bool :=
  match as_num v with
  | Some y => Ok (num_cmp (fun a b => Qlt_bool b a) x y)
  | None => unorderable ">"
  end.

(** [x == v] never raises. *)
Definition num_eq (x : num) (v : pyval) : bool :=
  match as_num v with
  | Some y => num_cmp Qeq_bool x y
  | None => false
  end.

Definition num_sub (x y : num) : num :=
  match x, y with
  | Num a, Num b => Num (a - b)%Q
  | _, _ => NaN
  end.

(** [x - v] and [v - w] *)
Definition sub_num_py (x : num) (v : pyval) : res num :=
  match as_num v with
  | Some y => Ok (num_sub x y)
  | None => raise TypeError "unsupported operand type(s) for -"
  end.

Definition py_sub (v w : pyval) : res num :=
  match as_num v with
  | Some x => sub_num_py x w
  | None => raise TypeError "unsupported operand type(s) for -"
  end.

(** [x / y]: true division; a zero divisor raises, also for floats. *)
Definition truediv (x y : num) : res num :=
  match y with
  | Num b =>
      if Qeq_bool b (inject_Z 0) then raise ZeroDivisionError "float division by zero"
      else match x with
           | Num a => Ok (Num (a / b)%Q)
           | NaN => Ok NaN
           end
  | NaN => Ok NaN
  end.

(** [seq[i]] for a literal index [i]. *)
Definition py_index (v : pyval) (i : nat) : res pyval :=
  match v with
  | VList l =>
      match l !! i with
      | Some x => Ok x
      | None => raise IndexError "list index out of range"
      end
  | VStr s =>
      match String.get i s with
      | Some c => Ok (VStr (String c EmptyString))
      | None => raise IndexError "string index out of range"
      end
  | VDict _ => raise KeyError (pretty i)
  | _ => raise TypeError ("'" +:+ type_name v +:+ "' object is not subscriptable")
  end.

(** [get_gradient_color(value, min_val, mid_val, max_val, colors)].  Both
    call sites pass a float or an int as [value]. *)
Definition get_gradient_color (value : num) (min_val mid_val max_val colors : pyval)
  : res pyval :=
  below <- num_le value min_val;;
  if below then py_index colors 0
  else
    above <- num_ge value max_val;;
    if above then py_index colors 2
    else
      lower_half <- num_le value mid_val;;
      if lower_half then
        a <- sub_num_py value min_val;;
        b <- py_sub mid_val min_val;;
        factor <- truediv a b;;
        c0 <- py_index colors 0;;
        c1 <- py_index colors 1;;
        hex <- interpolate_color c0 c1 factor;;
        Ok (VStr hex)
      else
        a <- sub_num_py value mid_val;;
        b <- py_sub max_val mid_val;;
        factor <- truediv a b;;
        c1 <- py_index colors 1;;
        c2 <- py_index colors 2;;
        hex <- interpolate_color c1 c2 factor;;
        Ok (VStr hex).

(** ** Ordering of arbitrary values

    [min_val < mid_val < max_val] of a manual numeric scale compares rule
    fields of any type.  Lists compare by their first unequal elements;
    values are compared by content, so a NaN equals nothing, itself
    included. *)

Fixpoint py_eq (a b : pyval) {struct a} : bool :=
  match a, b with
  | VNone, VNone => true
  | VStr s, VStr t => String.eqb s t
  | VTimestamp s, VTimestamp t => (ts_day s =? ts_day t) && (ts_nanos s =? ts_nanos t)
  | VList l, VList m =>
      (fix go (l m : list pyval) : bool :=
         match l, m with
         | [], [] => true
         | x :: l', y :: m' => py_eq x y && go l' m'
         | _, _ => false
         end) l m
  | VDict d, VDict e =>
      (length d =? length e)%nat
      && (fix go (d : list (string * pyval)) : bool :=
            match d with
            | [] => true
            | (k, v) :: d' =>
                match assoc k e with
                | Some w => py_eq v w && go d'
                | None => false
                end
            end) d
  | _, _ =>
      match as_num a, as_num b with
      | Some x, Some y => num_cmp Qeq_bool x y
      | _, _ => false
      end
  end.

Definition ts_lt (s t : timestamp) : bool :=
  (ts_day s <? ts_day t) || ((ts_day s =? ts_day t) && (ts_nanos s <? ts_nanos t)).

(** [a < b] *)
Fixpoint py_lt (a b : pyval) {struct a} : res bool :=
  match a, b with
  | VStr s, VStr t => Ok (String.ltb s t)
  | VTimestamp s, VTimestamp t => Ok (ts_lt s t)
  | VList l, VList m =>
      (fix go (l m : list pyval) : res bool :=
         match l, m with
         | [], [] => Ok false
         | [], _ :: _ => Ok true
         | _ :: _, [] => Ok false
         | x :: l', y :: m' => if py_eq x y then go l' m' else py_lt x y
         end) l m
  | _, _ =>
      match as_num a, as_num b with
      | Some x, Some y => Ok (num_cmp Qlt_bool x y)
      | _, _ => unorderable "<"
      end
  end.

(** [len(v)] *)
Definition py_len (v : pyval) : res nat :=
  match v with
  | VStr s => Ok (String.length s)
  | VList l => Ok (length l)
  | VDict d => Ok (length d)
  | _ => raise TypeError ("object of type '" +:+ type_name v +:+ "' has no len()")
  end.

(** ** The library interface

    What pandas and the Python runtime decide.  [float_repr q] is [str(x)]
    of a finite float, [timestamp_str] and [timestamp_repr] are [str] and
    [repr] of a timestamp, and [str_repr s] is [repr(s)].  [float_of_str s]
    is [float(s)] ([None]: [ValueError]).  [to_datetime v] is
    [pd.to_datetime(v, errors='coerce')] and [to_datetime_strict v] is
    [pd.to_datetime(v)], each read up to the call of [.date()] or
    [.toordinal()] that follows it ([Ok None]: NaT).  [set_order s] is the
    order in which [list(s)] enumerates a set of strings. *)
Record PyLib := {
  float_repr : Q → string;
  timestamp_str : timestamp → string;
  timestamp_repr : timestamp → string;
  str_repr : string → string;
  float_of_str : string → option num;
  to_datetime : pyval → res (option timestamp);
  to_datetime_strict : pyval → res (option timestamp);
  set_order : gset string → list string;
  set_order_perm : ∀ s, set_order s ≡ₚ elements s;
}.

(** The state around one call: the clock (seconds since the epoch, UTC),
    the host's local offset from UTC in seconds, and the global names of the
    module [utils]. *)
Record Env := {
  clock_utc : Z;
  local_utcoffset : Z;
  module_globals : string → option pyval;
}.

(** [sg_tz = timezone(timedelta(hours=8))], as an offset in seconds. *)
Definition sg_tz : Z := 8 * 3600.

(** The ordinal of 1970-01-01. *)
Definition epoch_ordinal : Z := 719163.

(** [datetime.now(tz)]; without [tz] the host's local zone applies. *)
Definition datetime_now (E : Env) (tz : option Z) : timestamp :=
  let t := clock_utc E + default (local_utcoffset E) tz in
  Timestamp (epoch_ordinal + t / 86400) ((t mod 86400) * 1000000000).

(** [globals().get(name)] *)
Definition globals_get (E : Env) (name : string) : pyval :=
  default VNone (module_globals E name).

(** ** The table and the style map *)

(** A [DataFrame] with the default index: the label of a row is its
    position, so [df.index.get_loc(idx)] is [idx].  Column names are
    strings and do not repeat, and every row has one value per column. *)
Record DataFrame := {
  columns : list string;
  data : list (list pyval);
}.

Fixpoint enumerate_from {A} (i : nat) (l : list A) : list (nat * A) :=
  match l with
  | [] => []
  | x :: l' => (i, x) :: enumerate_from (S i) l'
  end.

(** [df.iterrows()] *)
Definition iterrows (df : DataFrame) : list (nat * list pyval) :=
  enumerate_from 0 (data df).

(** [df.columns.get_loc(name)] for a name among the columns. *)
Fixpoint get_loc (name : string) (cols : list string) : option nat :=
  match cols with
  | [] => None
  | c :: cols' => if String.eqb name c then Some 0%nat else S <$> get_loc name cols'
  end.

(** [row[column]], the column given by its position; pandas reads a missing
    value as NaN. *)
Definition row_cell (row : list pyval) (col : nat) : pyval :=
  default VNaN (row !! col).

Record StyleMap := {
  rows : gmap nat pyval;
  cells : gmap (nat * nat) pyval;
  warnings : list string;
}.

Definition empty_style_map : StyleMap :=
  {| rows := ∅; cells := ∅; warnings := [] |}.

(** [style_map['rows'][i] = style] *)
Definition set_row (sm : StyleMap) (i : nat) (style : pyval) : StyleMap :=
  {| rows := <[i := style]> (rows sm); cells := cells sm; warnings := warnings sm |}.

(** [style_map['cells'][(r, c)] = style] *)
Definition set_cell (sm : StyleMap) (k : nat * nat) (style : pyval) : StyleMap :=
  {| rows := rows sm; cells := <[k := style]> (cells sm); warnings := warnings sm |}.

(** [style_map['warnings'].append(msg)] *)
Definition warn (sm : StyleMap) (msg : string) : StyleMap :=
  {| rows := rows sm; cells := cells sm; warnings := warnings sm ++ [msg] |}.

(** [{'bg_color': bg}] *)
Definition bg_style (bg : pyval) : pyval := VDict [("bg_color", bg)].

(** [d.get(key, default)] on the items of a dict. *)
Definition get (d : list (string * pyval)) (key : string) (dflt : pyval) : pyval :=
  default dflt (assoc key d).

(** A loop body that can raise, run over a list. *)
Fixpoint foldM {A B} (f : B → A → res B) (l : list A) (b : B) : res B :=
  match l with
  | [] => Ok b
  | x :: l' => b' <- f b x;; foldM f l' b'
  end.

(** The comparison of two dates or timestamps selected by [op]:
    [(op == '>' and a > b) or (op == '>=' and a >= b) or ...]. *)
Definition op_match {A} (op : pyval) (lt eq : A → A → bool) (a b : A) : bool :=
  (eq_lit op ">" && lt b a)
  || (eq_lit op ">=" && negb (lt a b))
  || (eq_lit op "<" && lt a b)
  || (eq_lit op "<=" && negb (lt b a))
  || (eq_lit op "==" && eq a b).

Definition ts_eq (s t : timestamp) : bool :=
  (ts_day s =? ts_day t) && (ts_nanos s =? ts_nanos t).

(** The same selection for a float against a threshold of any type; only
    the comparison that [op] names is evaluated, and it can raise. *)
Definition numeric_match (op : pyval) (x : num) (thr : pyval) : res bool :=
  if eq_lit op ">" then num_gt x thr
  else if eq_lit op ">=" then num_ge x thr
  else if eq_lit op "<" then num_lt x thr
  else if eq_lit op "<=" then num_le x thr
  else if eq_lit op "==" then Ok (num_eq x thr)
  else Ok false.

(** The first least and the first greatest element, as [min] and [max]. *)
Definition q_min (x : Q) (l : list Q) : Q :=
  fold_left (fun m y => if Qlt_bool y m then y else m) l x.

Definition q_max (x : Q) (l : list Q) : Q :=
  fold_left (fun m y => if Qlt_bool m y then y else m) l x.

Definition z_min (x : Z) (l : list Z) : Z := fold_left Z.min l x.
Definition z_max (x : Z) (l : list Z) : Z := fold_left Z.max l x.

(** ** The rule evaluator *)

Section Evaluator.

Variable L : PyLib.
Variable E : Env.

(** [repr(v)] and [str(v)] *)
Fixpoint py_repr (v : pyval) : string :=
  match v with
  | VNone => "None"
  | VBool b => if b then "True" else "False"
  | VInt z => pretty z
  | VFloat q => float_repr L q
  | VNaN => "nan"
  | VStr s => str_repr L s
  | VTimestamp t => timestamp_repr L t
  | VList l => "[" +:+ join ", " (map py_repr l) +:+ "]"
  | VDict d =>
      "{" +:+ join ", " (map (fun kv => str_repr L kv.1 +:+ ": " +:+ py_repr kv.2) d) +:+ "}"
  end.

Definition py_str (v : pyval) : string :=
  match v with
  | VStr s => s
  | VTimestamp t => timestamp_str L t
  | _ => py_repr v
  end.

(** [float(v)] *)
Definition py_float (v : pyval) : res num :=
  match v with
  | VStr s =>
      match float_of_str L s with
      | Some x => Ok x
      | None => raise ValueError ("could not convert string to float: " +:+ str_repr L s)
      end
  | _ =>
      match as_num v with
      | Some x => Ok x
      | None => raise TypeError "float() argument must be a string or a real number"
      end
  end.

(** [not name or name not in df.columns]: [Ok None] when the rule is to be
    skipped, else the name and its position.  Membership hashes the name. *)
Definition find_column (df : DataFrame) (name : pyval) : res (option (string * nat)) :=
  if negb (truthy name) then Ok None
  else
    match name with
    | VStr s => Ok (pair s <$> get_loc s (columns df))
    | VList _ | VDict _ => raise TypeError ("unhashable type: '" +:+ type_name name +:+ "'")
    | _ => Ok None
    end.

(** *** The comparison date of [date_compare] *)

Inductive target :=
| Target (date : Z)
| NoTarget (warning : string).

(** The resolution of [target_date]; [ctx] is the end of the message for a
    name missing from the context, which differs between the two scopes. *)
Definition resolve_target_date (ctx : string) (c : list (string * pyval)) : res target :=
  let compare_to := get c "compare_to" VNone in
  let compare_value := get c "value" VNone in
  if eq_lit compare_to "today" then
    Ok (Target (ts_day (datetime_now E (Some sg_tz))))
  else if eq_lit compare_to "start_date" || eq_lit compare_to "end_date" then
    let name := py_str compare_to in
    let bound := globals_get E name in
    if is_none bound then
      Ok (NoTarget ("compare_to='" +:+ name +:+ "' not found" +:+ ctx))
    else
      match to_datetime L bound with
      | Ok (Some t) => Ok (Target (ts_day t))
      | Ok None => Ok (NoTarget ("compare_to='" +:+ name +:+ "' not parseable"))
      | Raise e => Ok (NoTarget ("Error accessing '" +:+ name +:+ "': " +:+ exn_msg e))
      end
  else if truthy compare_value then
    t <- to_datetime L compare_value;;
    match t with
    | Some t => Ok (Target (ts_day t))
    | None => Ok (NoTarget ("Fixed date '" +:+ py_str compare_value +:+ "' not parseable"))
    end
  else Ok (NoTarget "date_compare missing 'compare_to' or 'value'").

(** The loop of [date_compare] over the rows; [write sm idx] is the
    assignment of the scope, and the second component counts
    [parse_failures]. *)
Definition date_compare_loop (df : DataFrame) (col : nat) (op : pyval) (target_date : Z)
    (write : StyleMap → nat → StyleMap) (sm : StyleMap) : StyleMap * nat :=
  fold_left
    (fun st ir =>
       match to_datetime L (row_cell ir.2 col) with
       | Ok (Some cell_date) =>
           if op_match op Z.ltb Z.eqb (ts_day cell_date) target_date
           then (write st.1 ir.1, st.2)
           else st
       | _ => (st.1, S st.2)
       end)
    (iterrows df) (sm, 0%nat).

(** *** Row scope *)

Definition row_contains (df : DataFrame) (col : nat) (c : list (string * pyval))
    (style : pyval) (sm : StyleMap) : StyleMap :=
  let search := lower (py_str (get c "value" (VStr ""))) in
  fold_left
    (fun sm ir =>
       if str_in search (lower (py_str (row_cell ir.2 col)))
       then set_row sm ir.1 style else sm)
    (iterrows df) sm.

Definition row_equals (df : DataFrame) (col : nat) (c : list (string * pyval))
    (style : pyval) (sm : StyleMap) : StyleMap :=
  let val := get c "value" (VStr "") in
  fold_left
    (fun sm ir =>
       if String.eqb (strip (py_str (row_cell ir.2 col))) (py_str val)
       then set_row sm ir.1 style else sm)
    (iterrows df) sm.

Definition row_date_compare (df : DataFrame) (name : string) (col : nat)
    (c : list (string * pyval)) (style : pyval) (sm : StyleMap) : res StyleMap :=
  let op := get c "operator" (VStr ">") in
  t <- resolve_target_date " in context" c;;
  match t with
  | NoTarget w => Ok (warn sm w)
  | Target target_date =>
      let st := date_compare_loop df col op target_date (fun sm i => set_row sm i style) sm in
      if (st.2 =? 0)%nat then Ok st.1
      else Ok (warn st.1 ("date_compare on '" +:+ name +:+ "': " +:+ pretty st.2
                          +:+ " rows unparseable"))
  end.

(** *** Cell scope *)

Definition cell_equals (df : DataFrame) (col : nat) (c : list (string * pyval))
    (style : pyval) (sm : StyleMap) : StyleMap :=
  let val := get c "value" VNone in
  fold_left
    (fun sm ir =>
       if String.eqb (py_str (row_cell ir.2 col)) (py_str val)
       then set_cell sm (ir.1 + 1, col)%nat style else sm)
    (iterrows df) sm.

Definition cell_contains (df : DataFrame) (col : nat) (c : list (string * pyval))
    (style : pyval) (sm : StyleMap) : StyleMap :=
  let val := lower (py_str (get c "value" (VStr ""))) in
  fold_left
    (fun sm ir =>
       if str_in val (lower (py_str (row_cell ir.2 col)))
       then set_cell sm (ir.1 + 1, col)%nat style else sm)
    (iterrows df) sm.

(** The body of the [numeric] loop is a [try]: a cell that is no float, or a
    threshold that cannot be compared, leaves the row alone. *)
Definition cell_numeric (df : DataFrame) (col : nat) (c : list (string * pyval))
    (style : pyval) (sm : StyleMap) : StyleMap :=
  let op := get c "operator" (VStr ">") in
  let thr := get c "value" (VInt 0) in
  fold_left
    (fun sm ir =>
       match (x <- py_float (row_cell ir.2 col);; numeric_match op x thr) with
       | Ok true => set_cell sm (ir.1 + 1, col)%nat style
       | _ => sm
       end)
    (iterrows df) sm.

Definition cell_date_compare (df : DataFrame) (name : string) (col : nat)
    (c : list (string * pyval)) (style : pyval) (sm : StyleMap) : res StyleMap :=
  let op := get c "operator" (VStr ">") in
  t <- resolve_target_date "" c;;
  match t with
  | NoTarget w => Ok (warn sm w)
  | Target target_date =>
      let st := date_compare_loop df col op target_date
                  (fun sm i => set_cell sm (i + 1, col)%nat style) sm in
      if (st.2 =? 0)%nat then Ok st.1
      else Ok (warn st.1 ("'" +:+ name +:+ "' date comparison: " +:+ pretty st.2
                          +:+ " invalid dates"))
  end.

Definition cell_date_compare_column (df : DataFrame) (name : string) (col : nat)
    (c : list (string * pyval)) (style : pyval) (sm : StyleMap) : res StyleMap :=
  let op := get c "operator" (VStr ">") in
  let compare_column := get c "compare_column" VNone in
  oc <- find_column df compare_column;;
  match oc with
  | None => Ok (warn sm ("Compare column '" +:+ py_str compare_column +:+ "' not found"))
  | Some (cname, ccol) =>
      let st :=
        fold_left
          (fun st ir =>
             match to_datetime L (row_cell ir.2 col), to_datetime L (row_cell ir.2 ccol) with
             | Ok (Some d1), Ok (Some d2) =>
                 if op_match op ts_lt ts_eq d1 d2
                 then (set_cell st.1 (ir.1 + 1, col)%nat style, st.2)
                 else st
             | _, _ => (st.1, S st.2)
             end)
          (iterrows df) (sm, 0%nat) in
      if (st.2 =? 0)%nat then Ok st.1
      else Ok (warn st.1 ("'" +:+ name +:+ "' vs '" +:+ cname +:+ "': " +:+ pretty st.2
                          +:+ " invalid dates"))
  end.

(** *** Colour scales *)

(** [val in color_map] followed by [color_map[val]]: [Ok None] when [val] is
    not in the map.  A map that is no dict either cannot be searched or
    cannot be indexed by a string. *)
Definition color_map_lookup (color_map : pyval) (val : string) : res (option pyval) :=
  match color_map with
  | VDict d => Ok (assoc val d)
  | VStr s =>
      if str_in val s then raise TypeError "string indices must be integers, not 'str'"
      else Ok None
  | VList l =>
      if existsb (fun x => eq_lit x val) l
      then raise TypeError "list indices must be integers or slices, not str"
      else Ok None
  | _ => raise TypeError ("argument of type '" +:+ type_name color_map +:+ "' is not iterable")
  end.

Definition unmapped_warning (name : string) (unmapped : gset string) : string :=
  let head := join ", " (take 3 (set_order L unmapped)) in
  let suffix := if (3 <? size unmapped)%nat then "..." else "" in
  "'" +:+ name +:+ "' categorical color scale: " +:+ pretty (size unmapped)
  +:+ " unmapped values (" +:+ head +:+ suffix +:+ ")".

Definition scale_categorical (df : DataFrame) (name : string) (col : nat)
    (c : list (string * pyval)) (sm : StyleMap) : res StyleMap :=
  let color_map := get c "color_map" (VDict []) in
  if negb (truthy color_map) then
    Ok (warn sm "color_scale categorical missing 'color_map'")
  else
    st <- foldM
            (fun (st : StyleMap * gset string) ir =>
               let val := py_str (row_cell ir.2 col) in
               hit <- color_map_lookup color_map val;;
               match hit with
               | Some bg => Ok (set_cell st.1 (ir.1 + 1, col)%nat (bg_style bg), st.2)
               | None => Ok (st.1, {[ val ]} ∪ st.2)
               end)
            (iterrows df) (sm, ∅);;
    if bool_decide (st.2 = ∅) then Ok st.1
    else Ok (warn st.1 (unmapped_warning name st.2)).

Definition default_colors : pyval :=
  VList [VStr "#00FF00"; VStr "#FFFF00"; VStr "#FF0000"].

(** The final loop of a gradient scale: one colour per kept value. *)
Definition gradient_loop (col : nat) (min_val mid_val max_val colors3 : pyval)
    (values : list (nat * Q)) (sm : StyleMap) : res StyleMap :=
  foldM
    (fun sm iv =>
       bg <- get_gradient_color (Num iv.2) min_val mid_val max_val colors3;;
       Ok (set_cell sm (iv.1 + 1, col)%nat (bg_style bg)))
    values sm.

(** [numeric_values]: the rows whose cell is a float other than NaN. *)
Definition numeric_values (df : DataFrame) (col : nat) : list (nat * Q) :=
  omap
    (fun ir =>
       match py_float (row_cell ir.2 col) with
       | Ok (Num v) => Some (ir.1, v)
       | _ => None
       end)
    (iterrows df).

Definition scale_numeric (df : DataFrame) (name : string) (col : nat)
    (c : list (string * pyval)) (sm : StyleMap) : res StyleMap :=
  let mode := get c "mode" (VStr "auto") in
  let colors3 := get c "colors" default_colors in
  n <- py_len colors3;;
  if negb (n =? 3)%nat then Ok (warn sm "color_scale numeric requires exactly 3 colors")
  else
    let values := numeric_values df col in
    match values.*2 with
    | [] => Ok (warn sm ("'" +:+ name +:+ "' has no valid numeric values"))
    | v :: vs =>
        if eq_lit mode "auto" then
          let min_val := q_min v vs in
          let max_val := q_max v vs in
          let mid_val := ((min_val + max_val) / inject_Z 2)%Q in
          gradient_loop col (VFloat min_val) (VFloat mid_val) (VFloat max_val) colors3 values sm
        else
          let min_val := get c "min" VNone in
          let mid_val := get c "mid" VNone in
          let max_val := get c "max" VNone in
          ordered <-
            (if is_none min_val || is_none mid_val || is_none max_val then Ok false
             else
               lo <- py_lt min_val mid_val;;
               if lo then py_lt mid_val max_val else Ok false);;
          if negb ordered then Ok (warn sm "color_scale manual requires valid min < mid < max")
          else gradient_loop col min_val mid_val max_val colors3 values sm
    end.

(** [date_values] with the count of [failures]; the day of a timestamp is
    its [toordinal()]. *)
Definition date_values (df : DataFrame) (col : nat) : list (nat * Z) * nat :=
  fold_left
    (fun st ir =>
       match to_datetime L (row_cell ir.2 col) with
       | Ok (Some d) => (st.1 ++ [(ir.1, ts_day d)], st.2)
       | _ => (st.1, S st.2)
       end)
    (iterrows df) ([], 0%nat).

(** [pd.to_datetime(v).toordinal()] inside the [try] of the manual mode. *)
Definition strict_ordinal (v : pyval) : option Z :=
  match to_datetime_strict L v with
  | Ok (Some t) => Some (ts_day t)
  | _ => None
  end.

Definition scale_date (df : DataFrame) (name : string) (col : nat)
    (c : list (string * pyval)) (sm : StyleMap) : res StyleMap :=
  let mode := get c "mode" (VStr "auto") in
  let colors3 := get c "colors" default_colors in
  n <- py_len colors3;;
  if negb (n =? 3)%nat then Ok (warn sm "color_scale date requires exactly 3 colors")
  else
    let dv := date_values df col in
    let values := (fun iv : nat * Z => (iv.1, inject_Z iv.2)) <$> dv.1 in
    match dv.1.*2 with
    | [] => Ok (warn sm ("'" +:+ name +:+ "' has no valid dates"))
    | v :: vs =>
        let sm1 :=
          if (dv.2 =? 0)%nat then sm
          else warn sm ("'" +:+ name +:+ "' date color scale: " +:+ pretty dv.2
                        +:+ " invalid dates") in
        if eq_lit mode "auto" then
          let min_val := z_min v vs in
          let max_val := z_max v vs in
          let mid_val := (inject_Z (min_val + max_val) / inject_Z 2)%Q in
          gradient_loop col (VInt min_val) (VFloat mid_val) (VInt max_val) colors3 values sm1
        else
          match strict_ordinal (get c "min" VNone), strict_ordinal (get c "mid" VNone),
                strict_ordinal (get c "max" VNone) with
          | Some min_val, Some mid_val, Some max_val =>
              if negb ((min_val <? mid_val) && (mid_val <? max_val))
              then Ok (warn sm1 "date scale requires min < mid < max")
              else gradient_loop col (VInt min_val) (VInt mid_val) (VInt max_val)
                     colors3 values sm1
          | _, _, _ => Ok (warn sm1 "date scale manual: invalid date(s)")
          end
    end.

Definition cell_color_scale (df : DataFrame) (name : string) (col : nat)
    (c : list (string * pyval)) (sm : StyleMap) : res StyleMap :=
  let scale_type := get c "scale_type" (VStr "numeric") in
  if eq_lit scale_type "categorical" then scale_categorical df name col c sm
  else if eq_lit scale_type "numeric" then scale_numeric df name col c sm
  else if eq_lit scale_type "date" then scale_date df name col c sm
  else Ok sm.

(** *** One rule, and the whole list *)

Definition no_get {A} (v : pyval) : res A :=
  raise AttributeError ("'" +:+ type_name v +:+ "' object has no attribute 'get'").

(** The [if]/[elif] chain on [cond_type] of a row-scope rule whose target
    column is [name], at position [col]. *)
Definition row_condition (df : DataFrame) (name : string) (col : nat)
    (c : list (string * pyval)) (style : pyval) (sm : StyleMap) : res StyleMap :=
  let cond_type := get c "type" VNone in
  if eq_lit cond_type "contains" then Ok (row_contains df col c style sm)
  else if eq_lit cond_type "equals" then Ok (row_equals df col c style sm)
  else if eq_lit cond_type "date_compare" then row_date_compare df name col c style sm
  else Ok sm.

(** The same chain of a cell-scope rule. *)
Definition cell_condition (df : DataFrame) (name : string) (col : nat)
    (c : list (string * pyval)) (style : pyval) (sm : StyleMap) : res StyleMap :=
  let cond_type := get c "type" VNone in
  if eq_lit cond_type "equals" then Ok (cell_equals df col c style sm)
  else if eq_lit cond_type "contains" then Ok (cell_contains df col c style sm)
  else if eq_lit cond_type "numeric" then Ok (cell_numeric df col c style sm)
  else if eq_lit cond_type "date_compare" then cell_date_compare df name col c style sm
  else if eq_lit cond_type "date_compare_column" then
    cell_date_compare_column df name col c style sm
  else if eq_lit cond_type "color_scale" then cell_color_scale df name col c sm
  else Ok sm.

(** The body of [for rule in rules]. *)
Definition apply_rule (df : DataFrame) (rule : pyval) (sm : StyleMap) : res StyleMap :=
  match rule with
  | VDict r =>
      let scope := get r "scope" (VStr "cell") in
      let condition := get r "condition" (VDict []) in
      let style := get r "style" (VDict []) in
      if eq_lit scope "row" then
        oc <- find_column df (get r "target_column" VNone);;
        match oc, condition with
        | None, _ => Ok sm
        | Some (name, col), VDict c => row_condition df name col c style sm
        | Some _, _ => no_get condition
        end
      else if eq_lit scope "cell" then
        oc <- find_column df (get r "target_column" VNone);;
        match oc, condition with
        | None, _ => Ok sm
        | Some (name, col), VDict c => cell_condition df name col c style sm
        | Some _, _ => no_get condition
        end
      else Ok sm
  | _ => no_get rule
  end.

(** [evaluate_formatting_rules(df, rules)] *)
Definition evaluate_formatting_rules (df : DataFrame) (rules : list pyval) : res StyleMap :=
  match rules with
  | [] => Ok empty_style_map
  | _ => foldM (fun sm rule => apply_rule df rule sm) rules empty_style_map
  end.

End Evaluator.

(** ** The gradient as the specification words it

    The specification rounds each channel of a blend to the nearest
    integer; [spec_blend] is that reading, to be compared with
    [interpolate_color]. *)




(** A colour in the form [rgb_to_hex] writes: [#] and six lower-case
    hexadecimal digits. *)
Definition is_lower_hex (c : ascii) : bool :=
  let n := code c in
  ((48 <=? n) && (n <=? 57)) || ((97 <=? n) && (n <=? 102)).

Definition canonical_color (s : string) : bool :=
  match s with
  | String "#" (String a (String b (String c (String d (String e (String f EmptyString)))))) =>
      is_lower_hex a && is_lower_hex b && is_lower_hex c
      && is_lower_hex d && is_lower_hex e && is_lower_hex f
  | _ => false
  end.


(** ** Definitions used to state and prove the properties *)


(** [overlay base sm] is [sm] laid over [base]: the entries of [sm] win,
    and its warnings follow those of [base]. *)
Definition overlay (base sm : StyleMap) : StyleMap :=
  {| rows := rows sm ∪ rows base;
     cells := cells sm ∪ cells base;
     warnings := warnings base ++ warnings sm |}.

Definition res_map {A B} (f : A → B) (m : res A) : res B :=
  x <- m;; Ok (f x).

Definition on_fst {A B C} (f : A → B) (p : A * C) : B * C := (f p.1, p.2).

(** The loops of the evaluator in one form: [F idx row] is the style the
    body assigns for the row, if any. *)
Definition cell_loop (F : nat → list pyval → option pyval) (col : nat)
    (l : list (nat * list pyval)) (sm : StyleMap) : StyleMap :=
  fold_left
    (fun sm ir =>
       match F ir.1 ir.2 with
       | Some s => set_cell sm (ir.1 + 1, col)%nat s
       | None => sm
       end)
    l sm.

Definition row_loop (F : nat → list pyval → option pyval)
    (l : list (nat * list pyval)) (sm : StyleMap) : StyleMap :=
  fold_left
    (fun sm ir =>
       match F ir.1 ir.2 with
       | Some s => set_row sm ir.1 s
       | None => sm
       end)
    l sm.

(** The entry a cell loop leaves at key [k], and a row loop at index [i]. *)
Definition cell_written (F : nat → list pyval → option pyval) (df : DataFrame) (col : nat)
    (k : nat * nat) : option pyval :=
  match k.1 with
  | S i => if decide (k.2 = col) then data df !! i ≫= F i else None
  | O => None
  end.

Definition row_written (F : nat → list pyval → option pyval) (df : DataFrame)
    (i : nat) : option pyval :=
  data df !! i ≫= F i.

Definition or_else {A} (o : option A) (d : option A) : option A :=
  match o with
  | Some a => Some a
  | None => d
  end.

(** [extends df sm sm']: every entry of [sm'] that is not an entry of [sm]
    has a key of the evaluator's form, a cell key [(i + 1, c)] or a row key
    [i], for a row [i] and a column [c] of the table. *)
Definition extends (df : DataFrame) (sm sm' : StyleMap) : Prop :=
  (∀ k s, cells sm' !! k = Some s →
          cells sm !! k = Some s
          ∨ ∃ i, k.1 = S i ∧ (i < length (data df))%nat ∧ (k.2 < length (columns df))%nat)
  ∧ (∀ i s, rows sm' !! i = Some s →
            rows sm !! i = Some s ∨ (i < length (data df))%nat).

(** [rule] is a dict with this scope, target column, condition and style. *)
Definition rule_has (rule : pyval) (scope name : string) (c : list (string * pyval))
    (style : pyval) : Prop :=
  ∃ r, rule = VDict r
       ∧ get r "scope" (VStr "cell") = VStr scope
       ∧ get r "target_column" VNone = VStr name
       ∧ get r "condition" (VDict []) = VDict c
       ∧ get r "style" (VDict []) = style.

(** The decision of each string and numeric branch for one row. *)
Definition equals_row (L : PyLib) (col : nat) (v style : pyval) (row : list pyval)
  : option pyval :=
  if String.eqb (strip (py_str L (row_cell row col))) (py_str L v) then Some style else None.

Definition equals_cell (L : PyLib) (col : nat) (v style : pyval) (row : list pyval)
  : option pyval :=
  if String.eqb (py_str L (row_cell row col)) (py_str L v) then Some style else None.

Definition contains_any (L : PyLib) (col : nat) (v style : pyval) (row : list pyval)
  : option pyval :=
  if str_in (lower (py_str L v)) (lower (py_str L (row_cell row col)))
  then Some style else None.

Definition numeric_cell (L : PyLib) (col : nat) (op thr style : pyval) (row : list pyval)
  : option pyval :=
  match (x <- py_float L (row_cell row col);; numeric_match op x thr) with
  | Ok true => Some style
  | _ => None
  end.

(** The distinct string forms of the cells of column [col] that are no key
    of the colour map [d]. *)
Definition unmapped_values (L : PyLib) (df : DataFrame) (col : nat)
    (d : list (string * pyval)) : gset string :=
  list_to_set
    (omap
       (fun row =>
          let val := py_str L (row_cell row col) in
          match assoc val d with
          | Some _ => None
          | None => Some val
          end)
       (data df)).

(** The style the categorical scale assigns to a row. *)
Definition categorical_cell (L : PyLib) (col : nat) (d : list (string * pyval))
    (row : list pyval) : option pyval :=
  bg_style <$> assoc (py_str L (row_cell row col)) d.

(** The decision of [date_compare] for one row, against [target_date]. *)
Definition date_cell (L : PyLib) (col : nat) (op : pyval) (target_date : Z) (style : pyval)
    (row : list pyval) : option pyval :=
  match to_datetime L (row_cell row col) with
  | Ok (Some cell_date) =>
      if op_match op Z.ltb Z.eqb (ts_day cell_date) target_date then Some style else None
  | _ => None
  end.



(** ** A small implementation of the library interface

    Used by the examples only.  It agrees with Python and pandas on what
    the examples feed it: [float] of a string of decimal digits, dates
    written [YYYY-MM-DD], timestamps, missing values, and [repr] of a
    string without quotes or escapes. *)
Module Demo.

Definition digit_value (c : ascii) : option Z :=
  let n := code c in
  if (48 <=? n) && (n <=? 57) then Some (n - 48) else None.

Fixpoint decimal (s : string) (acc : Z) : option Z :=
  match s with
  | EmptyString => Some acc
  | String c s' =>
      match digit_value c with
      | Some d => decimal s' (10 * acc + d)
      | None => None
      end
  end.

Definition natural (s : string) : option Z :=
  match s with
  | EmptyString => None
  | _ => decimal s 0
  end.

Definition parse_float (s : string) : option num :=
  if String.eqb s "nan" then Some NaN
  else (fun z => Num (inject_Z z)) <$> natural s.

Definition is_leap (y : Z) : bool :=
  ((y mod 4 =? 0) && negb (y mod 100 =? 0)) || (y mod 400 =? 0).

Definition days_in_month (y m : Z) : Z :=
  if m =? 2 then (if is_leap y then 29 else 28)
  else if (m =? 4) || (m =? 6) || (m =? 9) || (m =? 11) then 30 else 31.

Definition days_before_month (y m : Z) : Z :=
  fold_left (fun acc k => acc + days_in_month y k)
            (map Z.of_nat (seq 1 (Z.to_nat (m - 1)))) 0.

(** [date(y, m, d).toordinal()] *)
Definition ordinal (y m d : Z) : Z :=
  let p := y - 1 in
  365 * p + p / 4 - p / 100 + p / 400 + days_before_month y m + d.

Definition iso_date (s : string) : option timestamp :=
  if (String.length s =? 10)%nat
     && String.eqb (slice 4 5 s) "-" && String.eqb (slice 7 8 s) "-" then
    match natural (slice 0 4 s), natural (slice 5 7 s), natural (slice 8 10 s) with
    | Some y, Some m, Some d =>
        if (1 <=? y) && (1 <=? m) && (m <=? 12) && (1 <=? d) && (d <=? days_in_month y m)
        then Some (Timestamp (ordinal y m d) 0)
        else None
    | _, _, _ => None
    end
  else None.

Definition parse_datetime (v : pyval) : res (option timestamp) :=
  match v with
  | VNone | VNaN => Ok None
  | VStr s => Ok (iso_date s)
  | VTimestamp t => Ok (Some t)
  | _ => raise TypeError ("<class '" +:+ type_name v +:+ "'> is not convertible to datetime")
  end.

Definition parse_datetime_strict (v : pyval) : res (option timestamp) :=
  match v with
  | VStr s =>
      match iso_date s with
      | Some t => Ok (Some t)
      | None => raise ValueError ("Unknown datetime string format, unable to parse: " +:+ s)
      end
  | _ => parse_datetime v
  end.

Definition show_float (q : Q) : string :=
  pretty (Qnum (Qred q)) +:+
  (if (Z.pos (Qden (Qred q)) =? 1) then ".0" else "/" +:+ pretty (Z.pos (Qden (Qred q)))).

Definition show_timestamp (t : timestamp) : string :=
  "day " +:+ pretty (ts_day t) +:+ " + " +:+ pretty (ts_nanos t) +:+ "ns".

Definition lib : PyLib := {|
  float_repr := show_float;
  timestamp_str := show_timestamp;
  timestamp_repr := fun t => "Timestamp('" +:+ show_timestamp t +:+ "')";
  str_repr := fun s => "'" +:+ s +:+ "'";
  float_of_str := parse_float;
  to_datetime := parse_datetime;
  to_datetime_strict := parse_datetime_strict;
  set_order := elements;
  set_order_perm := fun s => reflexivity (elements s);
|}.

(** 20:00 UTC on 2025-01-15, a host at UTC-5, and no context dates among
    the globals of the module. *)
Definition env : Env := {|
  clock_utc := 1736971200;
  local_utcoffset := -18000;
  module_globals := fun _ => None;
|}.

Definition evaluate := evaluate_formatting_rules lib env.

(** A table of three rows and the same columns without rows. *)
Definition table : DataFrame := {|
  columns := ["Score"; "Status"; "Due"];
  data := [ [VInt 10; VStr "Active"; VStr "2025-01-10"];
            [VInt 50; VStr " Active "; VStr "2025-01-20"];
            [VInt 90; VStr "Unknown"; VStr "n/a"] ];
|}.

Definition empty_table : DataFrame := {|
  columns := ["Score"; "Status"; "Due"];
  data := [];
|}.

Definition rule (scope name : string) (condition : list (string * pyval)) (style : pyval)
  : pyval :=
  VDict [("scope", VStr scope); ("target_column", VStr name);
         ("condition", VDict condition); ("style", style)].

Definition bold : pyval := VDict [("bold", VBool true)].
Definition red : pyval := VDict [("bg_color", VStr "#ff0000")].
Definition blue : pyval := VDict [("bg_color", VStr "#0000ff")].

Definition equals_active : list (string * pyval) :=
  [("type", VStr "equals"); ("value", VStr "Active")].

Definition contains_active : list (string * pyval) :=
  [("type", VStr "contains"); ("value", VStr "ACTIVE")].

Definition above_40 : list (string * pyval) :=
  [("type", VStr "numeric"); ("operator", VStr ">"); ("value", VInt 40)].

Definition before_today : list (string * pyval) :=
  [("type", VStr "date_compare"); ("operator", VStr "<"); ("compare_to", VStr "today")].

Definition before_start : list (string * pyval) :=
  [("type", VStr "date_compare"); ("operator", VStr "<"); ("compare_to", VStr "start_date");
   ("value", VStr "2025-01-15")].

Definition against_missing_column : list (string * pyval) :=
  [("type", VStr "date_compare_column"); ("operator", VStr "<");
   ("compare_column", VStr "Start")].

Definition status_colors : list (string * pyval) :=
  [("type", VStr "color_scale"); ("scale_type", VStr "categorical");
   ("color_map", VDict [("Active", VStr "#111111")])].

Definition numeric_scale : list (string * pyval) :=
  [("type", VStr "color_scale"); ("scale_type", VStr "numeric")].

Definition named_colors_scale : list (string * pyval) :=
  [("type", VStr "color_scale");
   ("colors", VList [VStr "red"; VStr "green"; VStr "blue"])].

Definition manual_scale_with_text : list (string * pyval) :=
  [("type", VStr "color_scale"); ("scale_type", VStr "numeric"); ("mode", VStr "manual");
   ("min", VStr "low"); ("mid", VInt 50); ("max", VInt 90)].

Definition manual_date_scale_with_text : list (string * pyval) :=
  [("type", VStr "color_scale"); ("scale_type", VStr "date"); ("mode", VStr "manual");
   ("min", VStr "low"); ("mid", VStr "2025-01-15"); ("max", VStr "2025-01-31")].

Definition colors_not_a_list : list (string * pyval) :=
  [("type", VStr "color_scale"); ("colors", VInt 5)].

End Demo.

(** ** Colours as strings

    A colour as a user writes it: [#] and six hexadecimal digits of either
    case.  [canonical_color] above is the lower-case form. *)

Definition is_hex_digit (c : ascii) : bool :=
  match hex_digit_value c with
  | Some _ => true
  | None => false
  end.

Definition well_formed_color (s : string) : bool :=
  match s with
  | String "#" (String a (String b (String c (String d (String e (String f EmptyString)))))) =>
      is_hex_digit a && is_hex_digit b && is_hex_digit c
      && is_hex_digit d && is_hex_digit e && is_hex_digit f
  | _ => false
  end.

(** Decidable quantification over the 256 characters. *)
Definition forall_bool (P : bool → bool) : bool := P true && P false.

Definition forall_ascii (P : ascii → bool) : bool :=
  forall_bool (fun b0 => forall_bool (fun b1 => forall_bool (fun b2 =>
  forall_bool (fun b3 => forall_bool (fun b4 => forall_bool (fun b5 =>
  forall_bool (fun b6 => forall_bool (fun b7 =>
    P (Ascii b0 b1 b2 b3 b4 b5 b6 b7))))))))).

(** The range of [int(t, 16)] on a slice of a colour. *)
Definition channel_in_range (t : string) : bool :=
  match int16 t with
  | Ok n => (-15 <=? n) && (n <=? 255)
  | Raise e => bool_decide (exn_kind_of e = ValueError)
  end.

(** Two hexadecimal digits are read as a byte and written back in lower
    case. *)
Definition hex_pair_ok (a b : ascii) : bool :=
  if is_hex_digit a && is_hex_digit b then
    match int16 (String a (String b EmptyString)) with
    | Ok n =>
        (0 <=? n) && (n <=? 255)
        && String.eqb (format_02x n) (String (lower_char a) (String (lower_char b) EmptyString))
        && is_lower_hex (lower_char a) && is_lower_hex (lower_char b)
    | Raise _ => false
    end
  else true.

(** A byte is written as two lower-case digits and read back. *)
Definition byte_ok (n : Z) : bool :=
  match format_02x n with
  | String a (String b EmptyString) =>
      is_lower_hex a && is_lower_hex b
      && match int16 (String a (String b EmptyString)) with
         | Ok m => m =? n
         | Raise _ => false
         end
  | _ => false
  end.

(** ** [format_value]

    The formatting of one cell for display.  Besides [PyLib] it depends on
    three decisions of pandas, the interface [FormatLib]: [isna_list l] is
    the truth value of [pd.isna(value)] for a list [value] (an array, whose
    truth value can raise); [timestamp_ctor v] is [pd.Timestamp(v)] for a
    value that is no string ([Ok None]: NaT); [strftime t pattern] is
    [t.strftime(pattern)]. *)
Record FormatLib := {
  isna_list : list pyval → res bool;
  timestamp_ctor : pyval → res (option timestamp);
  strftime : timestamp → string → res string;
}.

(** *** Fixed-point formatting of a float

    [format(x, '.pf')] writes the exact value of the float rounded to [p]
    decimals, ties to the even neighbour, and keeps the sign of a negative
    value that rounds to zero. *)
Definition round_half_even (q : Q) : Z :=
  let f := Qfloor q in
  match (q - inject_Z f ?= 1 # 2)%Q with
  | Lt => f
  | Gt => f + 1
  | Eq => if Z.even f then f else f + 1
  end.

Fixpoint zeros (n : nat) : string :=
  match n with
  | O => EmptyString
  | S n' => String "0" (zeros n')
  end.

(** [s.rjust(width, '0')] *)
Definition pad_zeros (width : nat) (s : string) : string :=
  zeros (width - String.length s) +:+ s.

(** The thousands separators of the [,] option: a comma before every
    group of three digits, counted from the right. *)
Fixpoint group_digits (s : string) : string :=
  match s with
  | EmptyString => EmptyString
  | String c s' =>
      let n := String.length s' in
      String c (if (0 <? n)%nat && (n mod 3 =? 0)%nat
                then String "," (group_digits s') else group_digits s')
  end.

(** [format(x, ',.pf')] when [grouping], else [format(x, '.pf')]. *)
Definition format_fixed (grouping : bool) (p : nat) (x : num) : string :=
  match x with
  | NaN => "nan"
  | Num q =>
      let scale := 10 ^ Z.of_nat p in
      let n := round_half_even (Qabs q * inject_Z scale) in
      let int_digits := pretty (n / scale) in
      let int_part := if grouping then group_digits int_digits else int_digits in
      let frac := if (p =? 0)%nat then "" else "." +:+ pad_zeros p (pretty (n mod scale)) in
      (if Qlt_bool q (inject_Z 0) then "-" else "") +:+ int_part +:+ frac
  end.

(** The precision of a format specification [.{dp}f]: what stands between
    the point and the [f] must be decimal digits and nothing else, and
    the number at most [INT_MAX].  (CPython 3.11; memory is taken to be
    unbounded.) *)
Definition is_digit (c : ascii) : bool :=
  let n := code c in (48 <=? n) && (n <=? 57).

Fixpoint digits_value (s : string) (acc : Z) : option Z :=
  match s with
  | EmptyString => Some acc
  | String c s' =>
      if is_digit c then digits_value s' (10 * acc + (code c - 48)) else None
  end.

Definition int_max : Z := 2147483647.

Definition parse_precision (s : string) : option nat :=
  match s with
  | EmptyString => None
  | _ =>
      match digits_value s 0 with
      | Some n => if n <=? int_max then Some (Z.to_nat n) else None
      | None => None
      end
  end.

(** The names of the date formats and their [strftime] patterns. *)
Definition date_formats : list (string * string) :=
  [("YYYY-MM-DD", "%Y-%m-%d"); ("MM/DD/YYYY", "%m/%d/%Y"); ("DD/MM/YYYY", "%d/%m/%Y");
   ("DD MMM YYYY", "%d %b %Y"); ("MMMM DD, YYYY", "%B %d, %Y"); ("DD-MMM-YY", "%d-%b-%y")].

Fixpoint lookup_format (name : string) (l : list (string * string)) : option string :=
  match l with
  | [] => None
  | (k, v) :: l' => if String.eqb name k then Some v else lookup_format name l'
  end.

(** The strings [format_value] takes for a missing value. *)
Definition missing_text : list string := ["NaT"; "nan"; "None"].

Section FormatValue.

Variable L : PyLib.
Variable F : FormatLib.

(** [pd.isna(value)] as a condition. *)
Definition pd_isna (value : pyval) : res bool :=
  match value with
  | VNone | VNaN => Ok true
  | VList l => isna_list F l
  | _ => Ok false
  end.

(** [f"{num:,.{dp}f}"] and [f"{num:.{dp}f}"]: the field [{dp}] is replaced
    by [str(dp)], then the specification is read. *)
Definition format_float (grouping : bool) (dp : pyval) (x : num) : res string :=
  match parse_precision (py_str L dp) with
  | Some p => Ok (format_fixed grouping p x)
  | None => raise ValueError "Invalid format specifier"
  end.

(** [try: ... except Exception: return str(value)] *)
Definition or_str (value : pyval) (m : res string) : res string :=
  match m with
  | Ok s => Ok s
  | Raise _ => Ok (py_str L value)
  end.

(** [fmts.get(date_format, '%Y-%m-%d')]; a key that cannot be hashed
    raises. *)
Definition date_pattern (date_format : pyval) : res string :=
  match date_format with
  | VStr s => Ok (default "%Y-%m-%d" (lookup_format s date_formats))
  | VList _ | VDict _ =>
      raise TypeError ("unhashable type: '" +:+ type_name date_format +:+ "'")
  | _ => Ok "%Y-%m-%d"
  end.

Definition format_date (value : pyval) (spec : list (string * pyval)) : res string :=
  let date_format := get spec "format" (VStr "YYYY-MM-DD") in
  or_str value
    (dt <- match value with
           | VStr _ => to_datetime L value
           | _ => timestamp_ctor F value
           end;;
     match dt with
     | None => Ok (py_str L value)
     | Some t => pattern <- date_pattern date_format;; strftime F t pattern
     end).

Definition format_currency (value : pyval) (spec : list (string * pyval)) : res string :=
  or_str value
    (num <- py_float L value;;
     let dp := get spec "decimal_places" (VInt 2) in
     let sym := get spec "currency_symbol" (VStr "$") in
     body <- format_float true dp num;;
     Ok (py_str L sym +:+ body)).

Definition format_percentage (value : pyval) (spec : list (string * pyval)) : res string :=
  or_str value
    (num <- py_float L value;;
     let dp := get spec "decimal_places" (VInt 1) in
     body <- format_float false dp num;;
     Ok (body +:+ "%")).

Definition format_number (value : pyval) (spec : list (string * pyval)) : res string :=
  or_str value
    (num <- py_float L value;;
     let dp := get spec "decimal_places" (VInt 2) in
     let ts := get spec "thousands_separator" (VBool false) in
     format_float (truthy ts) dp num).

(** [format_value(value, format_spec)] *)
Definition format_value (value format_spec : pyval) : res string :=
  na <- pd_isna value;;
  if na || is_none value || existsb (String.eqb (py_str L value)) missing_text then Ok ""
  else if negb (truthy format_spec) then
    match value with
    | VInt z => Ok (pretty z)
    | VFloat q =>
        if Qeq_bool q (inject_Z (trunc q)) then Ok (pretty (trunc q))
        else Ok (format_fixed false 2 (Num q))
    | VNaN => z <- int_of_num NaN;; Ok (pretty z)
    | _ => Ok (py_str L value)
    end
  else
    match format_spec with
    | VDict spec =>
        let t := get spec "type" VNone in
        if eq_lit t "date" then format_date value spec
        else if eq_lit t "currency" then format_currency value spec
        else if eq_lit t "percentage" then format_percentage value spec
        else if eq_lit t "number" then format_number value spec
        else Ok (py_str L value)
    | _ => no_get format_spec
    end.

End FormatValue.

(** A text that starts like a number: with a digit or a minus sign.  No
    such text is among [missing_text]. *)
Definition starts_numeric (s : string) : bool :=
  match s with
  | String c _ => is_digit c || Ascii.eqb c "-"
  | EmptyString => false
  end.


(** ** [load_and_scale_svg]

    The page background.  A [Drawing] of ReportLab is its two sizes and its
    contents, of a type [C] the embedding does not look into.  The file
    system and the libraries are the interface [SvgLib]: [path_exists p] is
    [os.path.exists(p)]; [svg2rlg p] is the call of that name, [Ok None]
    standing for a result that is [None] or falsy; [scale_contents c sx sy]
    is [drawing.scale(sx, sy)], which changes the transform of the contents
    and leaves the two sizes alone.  A printed line is a [svg_warning]. *)
Record Drawing (C : Type) := {
  width : Q;
  height : Q;
  contents : C;
}.
Arguments width {C} _.
Arguments height {C} _.
Arguments contents {C} _.

Record SvgLib (C : Type) := {
  path_exists : string → bool;
  svg2rlg : string → res (option (Drawing C));
  scale_contents : C → Q → Q → res C;
}.
Arguments path_exists {C} _ _.
Arguments svg2rlg {C} _ _.
Arguments scale_contents {C} _ _ _ _.

Inductive svg_warning :=
| FileNotFound (svg_path : string)
| CouldNotParse (svg_path : string)
| LoadError (e : exn).

(** [reportlab.lib.pagesizes.letter], in points. *)
Definition letter : Q * Q := (612, 792)%Q.

(** [a / b] of two finite floats. *)
Definition float_div (a b : Q) : res Q :=
  if Qeq_bool b (inject_Z 0) then raise ZeroDivisionError "float division by zero"
  else Ok (a / b)%Q.

(** [min(a, b)]: the first argument unless the second is smaller. *)
Definition min2 (a b : Q) : Q := if Qlt_bool b a then b else a.

(** [load_and_scale_svg(svg_path)]: the drawing or [None], and what was
    printed. *)
Definition load_and_scale_svg {C} (S : SvgLib C) (svg_path : string)
  : option (Drawing C) * list svg_warning :=
  if negb (path_exists S svg_path) then (None, [FileNotFound svg_path])
  else
    match
      (parsed <- svg2rlg S svg_path;;
       match parsed with
       | None => Ok None
       | Some drawing =>
           let target_width := letter.1 in
           let target_height := letter.2 in
           scale_x <- float_div target_width (width drawing);;
           scale_y <- float_div target_height (height drawing);;
           let scale := min2 scale_x scale_y in
           c <- scale_contents S (contents drawing) scale scale;;
           Ok (Some {| width := (width drawing * scale)%Q;
                       height := (height drawing * scale)%Q;
                       contents := c |})
       end)
    with
    | Ok (Some drawing) => (Some drawing, [])
    | Ok None => (None, [CouldNotParse svg_path])
    | Raise e => (None, [LoadError e])
    end.


(** The rows of [df] whose cell in column [col] [date_compare] cannot read
    as a date: the parse gives NaT or raises. *)
Definition date_unreadable (L : PyLib) (col : nat) (row : list pyval) : bool :=
  match to_datetime L (row_cell row col) with
  | Ok (Some _) => false
  | _ => true
  end.

Definition unparseable_rows (L : PyLib) (df : DataFrame) (col : nat) : list (list pyval) :=
  List.filter (date_unreadable L col) (data df).

(** ** The table renderer of [pdf.py]

    Two parts of [render_pdf_table] that compute: the column widths and
    the list of style commands handed to [TableStyle].  A command is the
    tuple the code writes: its name, the [(column, row)] of its first and
    last cell, and its arguments.  ReportLab and the order in which a dict
    enumerates its items are the interface [RenderLib]: [HexColor v] is
    [colors.HexColor(v)], [black] is [colors.black], and [rows_items] and
    [cells_items] are [.items()] of the two dicts of a style map. *)
Inductive style_arg (K : Type) :=
| ArgColor (k : K)
| ArgInt (n : Z)
| ArgStr (s : string)
| ArgBool (b : bool).
Arguments ArgColor {K} k.
Arguments ArgInt {K} n.
Arguments ArgStr {K} s.
Arguments ArgBool {K} b.

Record style_command (K : Type) := Command {
  cmd_name : string;
  cmd_start : Z * Z;
  cmd_stop : Z * Z;
  cmd_args : list (style_arg K);
}.
Arguments Command {K} _ _ _ _.
Arguments cmd_name {K} _.
Arguments cmd_start {K} _.
Arguments cmd_stop {K} _.
Arguments cmd_args {K} _.

Record RenderLib (K : Type) := {
  HexColor : pyval → res K;
  black : K;
  rows_items : gmap nat pyval → list (nat * pyval);
  rows_items_perm : ∀ m, rows_items m ≡ₚ map_to_list m;
  cells_items : gmap (nat * nat) pyval → list (nat * nat * pyval);
  cells_items_perm : ∀ m, cells_items m ≡ₚ map_to_list m;
}.
Arguments HexColor {K} _ _.
Arguments black {K} _.
Arguments rows_items {K} _ _.
Arguments cells_items {K} _ _.

(** [v[key]] for a string key. *)
Definition py_getitem (v : pyval) (key : string) : res pyval :=
  match v with
  | VDict d =>
      match assoc key d with
      | Some x => Ok x
      | None => raise KeyError ("'" +:+ key +:+ "'")
      end
  | VStr _ => raise TypeError "string indices must be integers, not 'str'"
  | VList _ => raise TypeError "list indices must be integers or slices, not str"
  | _ => raise TypeError ("'" +:+ type_name v +:+ "' object is not subscriptable")
  end.

(** A loop that appends to a list: [g x] is what the body appends for
    [x], and it can raise. *)
Definition extend_with {A B} (g : A → res (list B)) (xs : list A) (acc : list B)
  : res (list B) :=
  foldM (fun acc x => l <- g x;; Ok (acc ++ l)) xs acc.

(** [('BACKGROUND', start, stop, colors.HexColor(v))] *)
Definition background {K} (R : RenderLib K) (start stop : Z * Z) (v : pyval)
  : res (style_command K) :=
  k <- HexColor R v;; Ok (Command "BACKGROUND" start stop [ArgColor k]).

(** The style of a row or of a cell: the command for its ['bg_color'], if
    it has one. *)
Definition bg_command {K} (R : RenderLib K) (start stop : Z * Z) (style : pyval)
  : res (list (style_command K)) :=
  hit <- color_map_lookup style "bg_color";;
  match hit with
  | Some bg => cmd <- background R start stop bg;; Ok [cmd]
  | None => Ok []
  end.

(** The ten commands [style_list] starts with. *)
Definition header_commands {K} (R : RenderLib K) (header_bg header_text : K)
  : list (style_command K) :=
  [ Command "BACKGROUND" (0, 0) (-1, 0) [ArgColor header_bg];
    Command "TEXTCOLOR" (0, 0) (-1, 0) [ArgColor header_text];
    Command "ALIGN" (0, 0) (-1, 0) [ArgStr "CENTER"];
    Command "FONTNAME" (0, 0) (-1, 0) [ArgStr "Helvetica-Bold"];
    Command "FONTSIZE" (0, 0) (-1, 0) [ArgInt 11];
    Command "BOTTOMPADDING" (0, 0) (-1, 0) [ArgInt 10];
    Command "GRID" (0, 0) (-1, -1) [ArgInt 1; ArgColor (black R)];
    Command "FONT SIZE" (0, 1) (-1, -1) [ArgInt 11];
    Command "VALIGN" (0, 0) (-1, -1) [ArgStr "TOP"];
    Command "WORDWRAP" (0, 0) (-1, -1) [ArgBool true] ].

(** [style_list] of [render_pdf_table], for a table of [n] rows, the header
    included ([n = len(table_data)]). *)
Definition table_style {K} (R : RenderLib K) (n : nat) (section_colors : pyval)
    (style_map : StyleMap) : res (list (style_command K)) :=
  header_bg <- (c <- py_getitem section_colors "header_bg";; HexColor R c);;
  header_text <- (c <- py_getitem section_colors "header_text";; HexColor R c);;
  let style_list := header_commands R header_bg header_text in
  style_list <-
    extend_with
      (fun i : nat =>
         if (i mod 2 =? 0)%nat then
           c <- py_getitem section_colors "row_alt";;
           cmd <- background R (0, Z.of_nat i) (-1, Z.of_nat i) c;;
           Ok [cmd]
         else Ok [])
      (seq 1 (n - 1)) style_list;;
  style_list <-
    extend_with
      (fun item : nat * pyval =>
         let actual_row := Z.of_nat (item.1 + 1) in
         bg_command R (0, actual_row) (-1, actual_row) item.2)
      (rows_items R (rows style_map)) style_list;;
  extend_with
    (fun item : nat * nat * pyval =>
       let '(row_idx, col_idx) := item.1 in
       bg_command R (Z.of_nat col_idx, Z.of_nat row_idx) (Z.of_nat col_idx, Z.of_nat row_idx)
         item.2)
    (cells_items R (cells style_map)) style_list.

(** How ReportLab reads the commands: an index below zero counts from the
    end, a command covers the cells between its two corners, and the
    background of a cell is painted by every [BACKGROUND] command that
    covers it, in the order of the list, so the last one shows. *)
Definition resolve_index (i : Z) (n : nat) : Z :=
  if i <? 0 then Z.of_nat n + i else i.

Definition covers {K} (ncols nrows : nat) (col row : nat) (cmd : style_command K) : bool :=
  (resolve_index (cmd_start cmd).1 ncols <=? Z.of_nat col)
  && (Z.of_nat col <=? resolve_index (cmd_stop cmd).1 ncols)
  && (resolve_index (cmd_start cmd).2 nrows <=? Z.of_nat row)
  && (Z.of_nat row <=? resolve_index (cmd_stop cmd).2 nrows).

Definition paints {K} (ncols nrows : nat) (col row : nat) (cmd : style_command K)
  : option K :=
  if String.eqb (cmd_name cmd) "BACKGROUND" && covers ncols nrows col row cmd then
    match cmd_args cmd with
    | [ArgColor k] => Some k
    | _ => None
    end
  else None.

Definition background_at {K} (cmds : list (style_command K)) (ncols nrows : nat)
    (col row : nat) : option K :=
  fold_left (fun shown cmd => or_else (paints ncols nrows col row cmd) shown) cmds None.

(** The ['bg_color'] of an entry of the style map, if the entry exists and
    has one. *)
Definition style_bg (style : option pyval) : option pyval :=
  match style with
  | Some st =>
      match color_map_lookup st "bg_color" with
      | Ok (Some bg) => Some bg
      | _ => None
      end
  | None => None
  end.




(** The sum of a list of rationals, to state what the widths add up to. *)
Definition q_sum (l : list Q) : Q := fold_right Qplus (inject_Z 0) l.

(** ** The cells of a rendered table

    The loop of [render_pdf_table] that fills [table_data]: a header row,
    then one row of paragraphs per row of the table.  [Paragraph text
    style] is ReportLab's constructor, which reads its text as markup and
    can raise; the three styles are the ones the code defines.  The
    ['cell_formats'] of a section are a dict keyed by [(row, column)];
    the ['column_formats'] can be any value. *)
Inductive paragraph_style := header_style | cell_style | cell_style_bold.

Record ParagraphLib (P : Type) := {
  Paragraph : string → paragraph_style → res P;
}.
Arguments Paragraph {P} _ _ _.

(** [style.get('bold', False)] *)
Definition get_bold (style : pyval) : res pyval :=
  match style with
  | VDict d => Ok (get d "bold" (VBool false))
  | _ => no_get style
  end.

(** [column_formats.get(col_name)] *)
Definition column_format (column_formats : pyval) (col_name : string) : res pyval :=
  match column_formats with
  | VDict d => Ok (get d col_name VNone)
  | _ => no_get column_formats
  end.

(** A loop that appends one item per element: [[... for x in xs]] and
    [for x in xs: acc.append(g(x))]. *)
Definition collect {A B} (g : A → res B) (xs : list A) (acc : list B) : res (list B) :=
  foldM (fun acc x => y <- g x;; Ok (acc ++ [y])) xs acc.

Section TableData.

Context {P : Type}.
Variable L : PyLib.
Variable F : FormatLib.
Variable G : ParagraphLib P.
Variable df : DataFrame.
Variable style_map : StyleMap.
Variable cell_formats : gmap (nat * nat) pyval.
Variable column_formats : pyval.

(** [format_spec]: the format of the cell when there is one and it is
    truthy, else the format of the column. *)
Definition cell_format_spec (cell_key : nat * nat) (col_idx : nat) : res pyval :=
  let format_spec := default VNone (cell_formats !! cell_key) in
  if negb (truthy format_spec) then
    match columns df !! col_idx with
    | Some col_name => column_format column_formats col_name
    | None =>
        raise IndexError ("index " +:+ pretty col_idx +:+ " is out of bounds for axis 0 with size "
                          +:+ pretty (length (columns df)))
    end
  else Ok format_spec.

(** The body of [for col_idx, value in enumerate(row)]; the key of the
    cell is [(row_idx + 1, col_idx)]. *)
Definition table_cell (row_idx : nat) (use_bold : pyval) (cell : nat * pyval) : res P :=
  let (col_idx, value) := cell in
  let cell_key := (S row_idx, col_idx) in
  let cell_specific_style := default (VDict []) (cells style_map !! cell_key) in
  format_spec <- cell_format_spec cell_key col_idx;;
  formatted_value <- format_value L F value format_spec;;
  bold <- (if truthy use_bold then Ok true
           else b <- get_bold cell_specific_style;; Ok (truthy b));;
  Paragraph G formatted_value (if bold then cell_style_bold else cell_style).

(** The body of [for row_idx, (_, row) in enumerate(df_work.iterrows())]. *)
Definition table_row (item : nat * list pyval) : res (list P) :=
  let (row_idx, row) := item in
  let row_style := default (VDict []) (rows style_map !! row_idx) in
  use_bold <- get_bold row_style;;
  collect (table_cell row_idx use_bold) (enumerate_from 0 row) [].

Definition table_data : res (list (list P)) :=
  header <- collect (fun col => Paragraph G col header_style) (columns df) [];;
  collect table_row (iterrows df) [header].

End TableData.

(** Whether the style-map entry of row [i] makes the row bold. *)
Definition bold_row (style_map : StyleMap) (i : nat) : bool :=
  match rows style_map !! i with
  | Some (VDict d) => truthy (get d "bold" (VBool false))
  | _ => false
  end.

Definition is_dict (v : pyval) : bool :=
  match v with
  | VDict _ => true
  | _ => false
  end.

(** ** A small implementation of the other interfaces

    Used by the examples only: a [FormatLib] that knows timestamps and
    writes a date as its pattern and its day, an [SvgLib] with one
    file, a drawing of 100 by 200 points, a [RenderLib] and a
    [ParagraphLib]. *)
Module DemoFormat.

Definition lib : FormatLib := {|
  isna_list := fun l =>
    match l with
    | [] => Ok false
    | [x] => Ok (match x with VNone | VNaN => true | _ => false end)
    | _ => raise ValueError "The truth value of an array with more than one element is ambiguous"
    end;
  timestamp_ctor := fun v =>
    match v with
    | VTimestamp t => Ok (Some t)
    | _ => raise TypeError ("Cannot convert input of type " +:+ type_name v)
    end;
  strftime := fun t pattern => Ok (pattern +:+ " of day " +:+ pretty (ts_day t));
|}.

Definition format := format_value Demo.lib lib.


(** Colours are kept as their text; [HexColor] takes the form [#rrggbb]
    only.  A dict enumerates its items in the order of [map_to_list]. *)
Definition render : RenderLib string := {|
  HexColor := fun v =>
    match v with
    | VStr s =>
        if well_formed_color s then Ok s
        else raise ValueError ("Invalid color value '" +:+ s +:+ "'")
    | _ => raise ValueError "Invalid color value"
    end;
  black := "#000000";
  rows_items := map_to_list;
  rows_items_perm := fun m => reflexivity (map_to_list m);
  cells_items := map_to_list;
  cells_items_perm := fun m => reflexivity (map_to_list m);
|}.

Definition theme : pyval :=
  VDict [("header_bg", VStr "#2c3e50"); ("header_text", VStr "#ffffff");
         ("row_alt", VStr "#f8f9fa")].

(** A style map with a red cell in the second body row, whose row is
    blue. *)
Definition styled : StyleMap := {|
  rows := {[ 1%nat := Demo.blue ]};
  cells := {[ (2%nat, 0%nat) := Demo.red ]};
  warnings := [];
|}.

(** A paragraph is kept as its text and its style; every text is
    accepted. *)
Definition paragraphs : ParagraphLib (string * paragraph_style) := {|
  Paragraph := fun text style => Ok (text, style);
|}.

Definition table_cells :=
  table_data Demo.lib lib paragraphs.

End DemoFormat.

(** * Properties *)




(** ** Rationals and truncation *)

Lemma Qle_bool_false (a b : Q) : Qle_bool a b = false ↔ (b < a)%Q.
Proof.
  split.
  - intros H. apply Qnot_le_lt. intros Hle. apply Qle_bool_iff in Hle. congruence.
  - intros H. destruct (Qle_bool a b) eqn:Hb; [|done].
    apply Qle_bool_iff in Hb. exfalso. exact (Qlt_not_le _ _ H Hb).
Qed.

Lemma Qeq_bool_false (a b : Q) : ¬ (a == b)%Q → Qeq_bool a b = false.
Proof.
  intros H. destruct (Qeq_bool a b) eqn:Hb; [|done].
  apply Qeq_bool_iff in Hb. contradiction.
Qed.

Lemma trunc_compat (p q : Q) : (p == q)%Q → trunc p = trunc q.
Proof.
  intros H. unfold trunc.
  rewrite (Qleb_comp _ _ (Qeq_refl (inject_Z 0)) _ _ H).
  by rewrite (Qfloor_comp _ _ H), (Qceiling_comp _ _ H).
Qed.

Lemma trunc_inject_Z (z : Z) : trunc (inject_Z z) = z.
Proof.
  unfold trunc. rewrite Qfloor_Z, Qceiling_Z. by destruct (Qle_bool _ _).
Qed.


(** ** Colours in canonical form *)





(** ** The gradient, branch by branch *)







(** ** Which exceptions the colour helpers raise *)











(** ** Rules do not read the style map

    A rule only assigns entries and appends warnings, so applying it to a
    style map is applying it to the empty map and laying the result over
    the style map. *)

Lemma overlay_empty (base : StyleMap) : overlay base empty_style_map = base.
Proof.
  destruct base as [r c w]. unfold overlay. simpl.
  by rewrite !(left_id_L ∅ (∪)), app_nil_r.
Qed.

Lemma overlay_set_row (base sm : StyleMap) (i : nat) (s : pyval) :
  set_row (overlay base sm) i s = overlay base (set_row sm i s).
Proof. unfold set_row, overlay. simpl. by rewrite insert_union_l. Qed.

Lemma overlay_set_cell (base sm : StyleMap) (k : nat * nat) (s : pyval) :
  set_cell (overlay base sm) k s = overlay base (set_cell sm k s).
Proof. unfold set_cell, overlay. simpl. by rewrite insert_union_l. Qed.

Lemma overlay_warn (base sm : StyleMap) (w : string) :
  warn (overlay base sm) w = overlay base (warn sm w).
Proof. unfold warn, overlay. simpl. by rewrite app_assoc. Qed.

Lemma fold_left_commute {A B} (f : B → A → B) (g : B → B) (l : list A) :
  (∀ b x, f (g b) x = g (f b x)) →
  ∀ b, fold_left f l (g b) = g (fold_left f l b).
Proof.
  intros Hf. induction l as [| x l IH]; intros b; simpl; [done |].
  by rewrite Hf, IH.
Qed.

Lemma foldM_commute {A B} (f : B → A → res B) (g : B → B) (l : list A) :
  (∀ b x, f (g b) x = res_map g (f b x)) →
  ∀ b, foldM f l (g b) = res_map g (foldM f l b).
Proof.
  intros Hf. induction l as [| x l IH]; intros b; simpl; [done |].
  rewrite Hf. unfold res_map at 1. destruct (f b x) as [b' |]; simpl; [| done].
  apply IH.
Qed.

Ltac overlay_simpl :=
  rewrite ?overlay_set_row, ?overlay_set_cell, ?overlay_warn.

(** Case analysis on the next thing a computation inspects. *)
Ltac res_step :=
  match goal with
  | |- context [bind (bind ?m _) _] => destruct m; simpl
  | |- context [bind (if ?b then _ else _) _] => destruct b; simpl
  | |- context [bind ?m _] => destruct m; simpl
  | _ => case_match; simpl
  end.

Section Overlay.

Variable L : PyLib.
Variable E : Env.
Variable base : StyleMap.

Lemma row_contains_overlay df col c style sm :
  row_contains L df col c style (overlay base sm)
  = overlay base (row_contains L df col c style sm).
Proof.
  unfold row_contains. apply (fold_left_commute _ (overlay base)).
  intros b x. case_match; by overlay_simpl.
Qed.

Lemma row_equals_overlay df col c style sm :
  row_equals L df col c style (overlay base sm)
  = overlay base (row_equals L df col c style sm).
Proof.
  unfold row_equals. apply (fold_left_commute _ (overlay base)).
  intros b x. case_match; by overlay_simpl.
Qed.

Lemma cell_equals_overlay df col c style sm :
  cell_equals L df col c style (overlay base sm)
  = overlay base (cell_equals L df col c style sm).
Proof.
  unfold cell_equals. apply (fold_left_commute _ (overlay base)).
  intros b x. case_match; by overlay_simpl.
Qed.

Lemma cell_contains_overlay df col c style sm :
  cell_contains L df col c style (overlay base sm)
  = overlay base (cell_contains L df col c style sm).
Proof.
  unfold cell_contains. apply (fold_left_commute _ (overlay base)).
  intros b x. case_match; by overlay_simpl.
Qed.

Lemma cell_numeric_overlay df col c style sm :
  cell_numeric L df col c style (overlay base sm)
  = overlay base (cell_numeric L df col c style sm).
Proof.
  unfold cell_numeric. apply (fold_left_commute _ (overlay base)).
  intros b x. repeat case_match; by overlay_simpl.
Qed.

Lemma date_compare_loop_overlay df col op target_date write sm :
  (∀ sm i, write (overlay base sm) i = overlay base (write sm i)) →
  date_compare_loop L df col op target_date write (overlay base sm)
  = on_fst (overlay base) (date_compare_loop L df col op target_date write sm).
Proof.
  intros Hw. unfold date_compare_loop.
  apply (fold_left_commute _ (on_fst (overlay base)) _ ) with (b := (sm, 0%nat)).
  intros [b n] x. unfold on_fst. simpl. repeat case_match; simpl; by rewrite ?Hw.
Qed.

Lemma row_date_compare_overlay df name col c style sm :
  row_date_compare L E df name col c style (overlay base sm)
  = res_map (overlay base) (row_date_compare L E df name col c style sm).
Proof.
  unfold row_date_compare. destruct (resolve_target_date _ _ _ _) as [[d | w] |]; simpl;
    [| by overlay_simpl | done].
  rewrite date_compare_loop_overlay by (intros; by overlay_simpl).
  destruct (date_compare_loop _ _ _ _ _ _ sm) as [sm' n]. unfold on_fst. simpl.
  case_match; simpl; by overlay_simpl.
Qed.

Lemma cell_date_compare_overlay df name col c style sm :
  cell_date_compare L E df name col c style (overlay base sm)
  = res_map (overlay base) (cell_date_compare L E df name col c style sm).
Proof.
  unfold cell_date_compare. destruct (resolve_target_date _ _ _ _) as [[d | w] |]; simpl;
    [| by overlay_simpl | done].
  rewrite date_compare_loop_overlay by (intros; by overlay_simpl).
  destruct (date_compare_loop _ _ _ _ _ _ sm) as [sm' n]. unfold on_fst. simpl.
  case_match; simpl; by overlay_simpl.
Qed.

Lemma cell_date_compare_column_overlay df name col c style sm :
  cell_date_compare_column L df name col c style (overlay base sm)
  = res_map (overlay base) (cell_date_compare_column L df name col c style sm).
Proof.
  unfold cell_date_compare_column.
  destruct (find_column _ _) as [[[cname ccol] |] |]; simpl; [| by overlay_simpl | done].
  match goal with
  | |- context [fold_left ?f ?l (overlay base sm, 0%nat)] =>
      change (overlay base sm, 0%nat) with (on_fst (overlay base) (sm, 0%nat));
      rewrite (fold_left_commute f (on_fst (overlay base)) l) with (b := (sm, 0%nat));
      [destruct (fold_left f l (sm, 0%nat)) as [sm' n] |]
  end.
  - unfold on_fst. simpl. case_match; simpl; by overlay_simpl.
  - intros [b n] x. unfold on_fst. simpl. repeat case_match; simpl; by overlay_simpl.
Qed.

Lemma scale_categorical_overlay df name col c sm :
  scale_categorical L df name col c (overlay base sm)
  = res_map (overlay base) (scale_categorical L df name col c sm).
Proof.
  unfold scale_categorical. case_match; simpl; [by overlay_simpl |].
  match goal with
  | |- context [foldM ?f ?l (overlay base sm, ∅)] =>
      change (overlay base sm, ∅) with (on_fst (overlay base) (sm, ∅ : gset string));
      rewrite (foldM_commute f (on_fst (overlay base)) l) with (b := (sm, ∅));
      [destruct (foldM f l (sm, ∅)) as [[sm' u] |]; simpl; [| done] |]
  end.
  - unfold on_fst. simpl. case_match; simpl; by overlay_simpl.
  - intros [b u] x. unfold on_fst. simpl.
    destruct (color_map_lookup _ _) as [[bg |] |]; simpl; by overlay_simpl.
Qed.

Lemma gradient_loop_overlay col lo mid hi colors3 values sm :
  gradient_loop col lo mid hi colors3 values (overlay base sm)
  = res_map (overlay base) (gradient_loop col lo mid hi colors3 values sm).
Proof.
  unfold gradient_loop. apply (foldM_commute _ (overlay base)).
  intros b x. destruct (get_gradient_color _ _ _ _ _); simpl; by overlay_simpl.
Qed.

Lemma scale_numeric_overlay df name col c sm :
  scale_numeric L df name col c (overlay base sm)
  = res_map (overlay base) (scale_numeric L df name col c sm).
Proof.
  unfold scale_numeric. repeat res_step; overlay_simpl; try done;
    apply gradient_loop_overlay.
Qed.

Lemma scale_date_overlay df name col c sm :
  scale_date L df name col c (overlay base sm)
  = res_map (overlay base) (scale_date L df name col c sm).
Proof.
  unfold scale_date. repeat res_step; overlay_simpl; try done;
    apply gradient_loop_overlay.
Qed.

Lemma cell_color_scale_overlay df name col c sm :
  cell_color_scale L df name col c (overlay base sm)
  = res_map (overlay base) (cell_color_scale L df name col c sm).
Proof.
  unfold cell_color_scale. repeat case_match; try done.
  - apply scale_categorical_overlay.
  - apply scale_numeric_overlay.
  - apply scale_date_overlay.
Qed.

(** The chains on [cond_type] commute with [overlay] branch by branch. *)
Lemma row_condition_overlay df name col c style sm :
  row_condition L E df name col c style (overlay base sm)
  = res_map (overlay base) (row_condition L E df name col c style sm).
Proof.
  unfold row_condition. repeat case_match; try done.
  - by rewrite row_contains_overlay.
  - by rewrite row_equals_overlay.
  - apply row_date_compare_overlay.
Qed.

Lemma cell_condition_overlay df name col c style sm :
  cell_condition L E df name col c style (overlay base sm)
  = res_map (overlay base) (cell_condition L E df name col c style sm).
Proof.
  unfold cell_condition. repeat case_match; try done.
  - by rewrite cell_equals_overlay.
  - by rewrite cell_contains_overlay.
  - by rewrite cell_numeric_overlay.
  - apply cell_date_compare_overlay.
  - apply cell_date_compare_column_overlay.
  - apply cell_color_scale_overlay.
Qed.

(** One rule applied to a style map is the rule applied to the empty map,
    laid over the style map. *)
Lemma apply_rule_overlay df rule sm :
  apply_rule L E df rule (overlay base sm)
  = res_map (overlay base) (apply_rule L E df rule sm).
Proof.
  unfold apply_rule. destruct rule as [| | | | | | | | r]; try done.
  repeat res_step; try done;
    first [apply row_condition_overlay | apply cell_condition_overlay].
Qed.

End Overlay.

(** ** What a loop over the rows writes *)

Lemma cell_loop_cons F col x l sm :
  cell_loop F col (x :: l) sm
  = cell_loop F col l (match F x.1 x.2 with
                       | Some s => set_cell sm (x.1 + 1, col)%nat s
                       | None => sm
                       end).
Proof. reflexivity. Qed.

Lemma row_loop_cons F x l sm :
  row_loop F (x :: l) sm
  = row_loop F l (match F x.1 x.2 with
                  | Some s => set_row sm x.1 s
                  | None => sm
                  end).
Proof. reflexivity. Qed.

Lemma cell_loop_frame F col l sm :
  rows (cell_loop F col l sm) = rows sm ∧ warnings (cell_loop F col l sm) = warnings sm.
Proof.
  revert sm. induction l as [| x l IH]; intros sm; [done |].
  rewrite cell_loop_cons. destruct (F x.1 x.2) as [s |]; [| apply IH].
  by destruct (IH (set_cell sm (x.1 + 1, col)%nat s)) as [-> ->].
Qed.

Lemma row_loop_frame F l sm :
  cells (row_loop F l sm) = cells sm ∧ warnings (row_loop F l sm) = warnings sm.
Proof.
  revert sm. induction l as [| x l IH]; intros sm; [done |].
  rewrite row_loop_cons. destruct (F x.1 x.2) as [s |]; [| apply IH].
  by destruct (IH (set_row sm x.1 s)) as [-> ->].
Qed.

Lemma cell_loop_from F col (l : list (list pyval)) (n : nat) sm (r c : nat) :
  cells (cell_loop F col (enumerate_from n l) sm) !! (r, c)
  = or_else
      (match r with
       | S i => if decide (c = col ∧ (n ≤ i)%nat) then l !! (i - n)%nat ≫= F i else None
       | O => None
       end)
      (cells sm !! (r, c)).
Proof.
  revert n sm. induction l as [| x l IH]; intros n sm.
  - simpl. destruct r; [done |]. by case_decide.
  - simpl enumerate_from. rewrite cell_loop_cons, IH. simpl fst; simpl snd.
    destruct r as [| i]; simpl.
    + destruct (F n x); [| done]. simpl. apply lookup_insert_ne.
      intros [=]. lia.
    + destruct (decide (c = col ∧ (S n ≤ i)%nat)) as [[-> Hi] | Hn].
      * rewrite decide_True by (split; [done | lia]).
        replace (i - n)%nat with (S (i - S n)) by lia. simpl.
        destruct (l !! (i - S n)%nat ≫= F i); [done |]. simpl.
        destruct (F n x); [| done]. simpl. apply lookup_insert_ne. intros [=]. lia.
      * simpl. destruct (decide (c = col ∧ (n ≤ i)%nat)) as [[-> Hi] | Hn'].
        -- assert (i = n) as ->.
           { destruct (decide (i = n)); [done |]. exfalso. apply Hn. split; [done | lia]. }
           replace (n - n)%nat with 0%nat by lia. simpl.
           destruct (F n x); simpl; [| done].
           replace (n + 1)%nat with (S n) by lia. apply lookup_insert_eq.
        -- simpl. destruct (F n x); [| done]. simpl. apply lookup_insert_ne.
           intros [=]. apply Hn'. split; [done | lia].
Qed.

Lemma row_loop_from F (l : list (list pyval)) (n : nat) sm (i : nat) :
  rows (row_loop F (enumerate_from n l) sm) !! i
  = or_else (if decide (n ≤ i)%nat then l !! (i - n)%nat ≫= F i else None) (rows sm !! i).
Proof.
  revert n sm. induction l as [| x l IH]; intros n sm.
  - simpl. by case_decide.
  - simpl enumerate_from. rewrite row_loop_cons, IH. simpl fst; simpl snd.
    destruct (decide (S n ≤ i)%nat) as [Hi | Hn].
    + rewrite decide_True by lia.
      replace (i - n)%nat with (S (i - S n)) by lia. simpl.
      destruct (l !! (i - S n)%nat ≫= F i); [done |]. simpl.
      destruct (F n x); [| done]. simpl. apply lookup_insert_ne. lia.
    + simpl. destruct (decide (n ≤ i)%nat) as [Hi | Hn'].
      * assert (i = n) as -> by lia. replace (n - n)%nat with 0%nat by lia. simpl.
        destruct (F n x); simpl; [| done]. apply lookup_insert_eq.
      * simpl. destruct (F n x); [| done]. simpl. apply lookup_insert_ne. lia.
Qed.

(** The cells after a loop over the rows of [df]. *)
Lemma cell_loop_lookup F df col sm (k : nat * nat) :
  cells (cell_loop F col (iterrows df) sm) !! k
  = or_else (cell_written F df col k) (cells sm !! k).
Proof.
  destruct k as [r c]. unfold iterrows. rewrite cell_loop_from.
  unfold cell_written. simpl. destruct r as [| i]; [done |].
  rewrite Nat.sub_0_r.
  destruct (decide (c = col)); [rewrite decide_True | rewrite decide_False];
    first [done | split; [done | lia] | tauto].
Qed.

Lemma row_loop_lookup F df sm (i : nat) :
  rows (row_loop F (iterrows df) sm) !! i = or_else (row_written F df i) (rows sm !! i).
Proof.
  unfold iterrows. rewrite row_loop_from. unfold row_written.
  rewrite decide_True by lia. by rewrite Nat.sub_0_r.
Qed.

(** ** Where a rule writes *)

Lemma extends_refl df sm : extends df sm sm.
Proof. split; auto. Qed.

Lemma extends_trans df sm1 sm2 sm3 :
  extends df sm1 sm2 → extends df sm2 sm3 → extends df sm1 sm3.
Proof.
  intros [Hc1 Hr1] [Hc2 Hr2]. split.
  - intros k s H. destruct (Hc2 k s H) as [H' | H']; [by apply Hc1 | by right].
  - intros i s H. destruct (Hr2 i s H) as [H' | H']; [by apply Hr1 | by right].
Qed.

Lemma extends_set_cell df sm i col s :
  (i < length (data df))%nat → (col < length (columns df))%nat →
  extends df sm (set_cell sm (i + 1, col)%nat s).
Proof.
  intros Hi Hc. split; [| by left]. intros k s'. simpl.
  destruct (decide (k = (i + 1, col)%nat)) as [-> | Hne].
  - intros _. right. exists i. simpl. split; [lia | done].
  - rewrite lookup_insert_ne by done. by left.
Qed.

Lemma extends_set_row df sm i s :
  (i < length (data df))%nat → extends df sm (set_row sm i s).
Proof.
  intros Hi. split; [by left |]. intros j s'. simpl.
  destruct (decide (j = i)) as [-> | Hne]; [by right |].
  rewrite lookup_insert_ne by done. by left.
Qed.

Lemma extends_warn df sm w : extends df sm (warn sm w).
Proof. split; by left. Qed.

Lemma fold_left_invariant {A B} (P : B → Prop) (f : B → A → B) (l : list A) (b : B) :
  P b → (∀ b x, x ∈ l → P b → P (f b x)) → P (fold_left f l b).
Proof.
  revert b. induction l as [| x l IH]; intros b Hb Hf; [done |].
  simpl. apply IH.
  - apply Hf; [by left | done].
  - intros b' y Hy. apply Hf. by right.
Qed.

Lemma foldM_invariant {A B} (P : B → Prop) (f : B → A → res B) (l : list A) (b b' : B) :
  P b → (∀ b x b', x ∈ l → P b → f b x = Ok b' → P b') →
  foldM f l b = Ok b' → P b'.
Proof.
  revert b. induction l as [| x l IH]; intros b Hb Hf; simpl.
  - by intros [= <-].
  - destruct (f b x) as [b1 |] eqn:E; simpl; [| done].
    apply IH.
    + apply (Hf b x); [by left | done | done].
    + intros b2 y b3 Hy. apply Hf. by right.
Qed.

Lemma elem_of_enumerate_from {A} (l : list A) (n i : nat) (x : A) :
  (i, x) ∈ enumerate_from n l ↔ (n ≤ i)%nat ∧ l !! (i - n)%nat = Some x.
Proof.
  revert n. induction l as [| y l IH]; intros n; simpl.
  - split; [by intros ?%elem_of_nil | by intros [_ ?]].
  - rewrite elem_of_cons, IH. split.
    + intros [[= -> ->] | [Hn Hl]].
      * split; [lia |]. by rewrite Nat.sub_diag.
      * split; [lia |]. by replace (i - n)%nat with (S (i - S n)) by lia.
    + intros [Hn Hl]. destruct (decide (i = n)) as [-> | Hne].
      * left. rewrite Nat.sub_diag in Hl. simpl in Hl. by injection Hl as ->.
      * right. split; [lia |].
        by replace (i - n)%nat with (S (i - S n)) in Hl by lia.
Qed.

Lemma elem_of_iterrows df (ir : nat * list pyval) :
  ir ∈ iterrows df ↔ data df !! ir.1 = Some ir.2.
Proof.
  destruct ir as [i row]. unfold iterrows. rewrite elem_of_enumerate_from.
  simpl. rewrite Nat.sub_0_r. split; [by intros [_ ?] | intros ?; split; [lia | done]].
Qed.

Lemma iterrows_index df (ir : nat * list pyval) :
  ir ∈ iterrows df → (ir.1 < length (data df))%nat.
Proof. intros H%elem_of_iterrows. by apply lookup_lt_Some in H. Qed.

Lemma get_loc_Some (name : string) (cols : list string) (col : nat) :
  get_loc name cols = Some col → cols !! col = Some name.
Proof.
  revert col. induction cols as [| c cols IH]; intros col; simpl; [done |].
  destruct (String.eqb_spec name c) as [-> | Hne].
  - by intros [= <-].
  - destruct (get_loc name cols) as [n |]; simpl; [| done].
    intros [= <-]. by apply IH.
Qed.

Lemma get_loc_lt (name : string) (cols : list string) (col : nat) :
  get_loc name cols = Some col → (col < length cols)%nat.
Proof. intros H%get_loc_Some. by apply lookup_lt_Some in H. Qed.

Lemma find_column_Some df (v : pyval) (name : string) (col : nat) :
  find_column df v = Ok (Some (name, col)) →
  v = VStr name ∧ name ≠ "" ∧ get_loc name (columns df) = Some col.
Proof.
  unfold find_column. destruct (truthy v) eqn:Ht; simpl; [| done].
  destruct v; try done. simpl in Ht.
  destruct (get_loc s (columns df)) as [n |] eqn:E; simpl; [| done].
  intros [= <- <-]. split; [done | split; [| done]].
  intros ->. done.
Qed.

Section Extends.

Variable L : PyLib.
Variable E : Env.
Variable df : DataFrame.
Variable col : nat.
Hypothesis Hcol : (col < length (columns df))%nat.

(** A loop body that leaves the style map alone or assigns one key of the
    current row keeps [extends]. *)
Ltac loop_extends :=
  apply fold_left_invariant; [apply extends_refl |];
  intros b x Hx%iterrows_index Hb; repeat case_match; try done;
  (eapply extends_trans; [exact Hb |]);
  first [by apply extends_set_cell | by apply extends_set_row].

Lemma row_contains_extends c style sm : extends df sm (row_contains L df col c style sm).
Proof. unfold row_contains. loop_extends. Qed.

Lemma row_equals_extends c style sm : extends df sm (row_equals L df col c style sm).
Proof. unfold row_equals. loop_extends. Qed.

Lemma cell_equals_extends c style sm : extends df sm (cell_equals L df col c style sm).
Proof. unfold cell_equals. loop_extends. Qed.

Lemma cell_contains_extends c style sm : extends df sm (cell_contains L df col c style sm).
Proof. unfold cell_contains. loop_extends. Qed.

Lemma cell_numeric_extends c style sm : extends df sm (cell_numeric L df col c style sm).
Proof. unfold cell_numeric. loop_extends. Qed.

Lemma date_compare_loop_extends op target_date write sm :
  (∀ sm i, (i < length (data df))%nat → extends df sm (write sm i)) →
  extends df sm (date_compare_loop L df col op target_date write sm).1.
Proof.
  intros Hw. unfold date_compare_loop.
  apply (fold_left_invariant (fun st : StyleMap * nat => extends df sm st.1));
    [apply extends_refl |].
  intros b x Hx%iterrows_index Hb. repeat case_match; try done. simpl.
  eapply extends_trans; [exact Hb | by apply Hw].
Qed.

Lemma row_date_compare_extends name c style sm sm' :
  row_date_compare L E df name col c style sm = Ok sm' → extends df sm sm'.
Proof.
  unfold row_date_compare. destruct (resolve_target_date _ _ _ _) as [[d | w] |]; simpl;
    [| intros [= <-]; apply extends_warn | done].
  pose proof (date_compare_loop_extends (get c "operator" (VStr ">")) d
                (fun sm i => set_row sm i style) sm) as H.
  case_match; intros [= <-].
  - apply H. intros; by apply extends_set_row.
  - eapply extends_trans; [apply H; intros; by apply extends_set_row | apply extends_warn].
Qed.

Lemma cell_date_compare_extends name c style sm sm' :
  cell_date_compare L E df name col c style sm = Ok sm' → extends df sm sm'.
Proof.
  unfold cell_date_compare. destruct (resolve_target_date _ _ _ _) as [[d | w] |]; simpl;
    [| intros [= <-]; apply extends_warn | done].
  pose proof (date_compare_loop_extends (get c "operator" (VStr ">")) d
                (fun sm i => set_cell sm (i + 1, col)%nat style) sm) as H.
  case_match; intros [= <-].
  - apply H. intros; by apply extends_set_cell.
  - eapply extends_trans; [apply H; intros; by apply extends_set_cell | apply extends_warn].
Qed.

Lemma cell_date_compare_column_extends name c style sm sm' :
  cell_date_compare_column L df name col c style sm = Ok sm' → extends df sm sm'.
Proof.
  unfold cell_date_compare_column.
  destruct (find_column _ _) as [[[cname ccol] |] |]; simpl;
    [| intros [= <-]; apply extends_warn | done].
  match goal with
  | |- context [fold_left ?f ?l ?b] =>
      assert (Hext : extends df sm (fold_left f l b).1)
  end.
  { apply (fold_left_invariant (fun st : StyleMap * nat => extends df sm st.1));
      [apply extends_refl |].
    intros b x Hx%iterrows_index Hb. repeat case_match; try done. simpl.
    eapply extends_trans; [exact Hb | by apply extends_set_cell]. }
  case_match; intros [= <-]; [done |].
  eapply extends_trans; [exact Hext | apply extends_warn].
Qed.

Lemma scale_categorical_extends name c sm sm' :
  scale_categorical L df name col c sm = Ok sm' → extends df sm sm'.
Proof.
  unfold scale_categorical. case_match; [intros [= <-]; apply extends_warn |].
  match goal with
  | |- context [foldM ?f ?l ?b] => destruct (foldM f l b) as [st |] eqn:Efold
  end; simpl; [| done].
  assert (Hext : extends df sm st.1).
  { revert Efold.
    apply (foldM_invariant (fun st : StyleMap * gset string => extends df sm st.1));
      [apply extends_refl |].
    intros b x b' Hx%iterrows_index Hb.
    destruct (color_map_lookup _ _) as [[bg |] |]; simpl; intros [= <-]; simpl; [| done].
    eapply extends_trans; [exact Hb | by apply extends_set_cell]. }
  case_match; intros [= <-]; [done |].
  eapply extends_trans; [exact Hext | apply extends_warn].
Qed.

Lemma gradient_loop_extends lo mid hi colors3 (values : list (nat * Q)) sm sm' :
  (∀ iv, iv ∈ values → (iv.1 < length (data df))%nat) →
  gradient_loop col lo mid hi colors3 values sm = Ok sm' → extends df sm sm'.
Proof.
  intros Hv. unfold gradient_loop.
  apply (foldM_invariant (extends df sm)); [apply extends_refl |].
  intros b x b' Hx%Hv Hb.
  destruct (get_gradient_color _ _ _ _ _); simpl; intros [= <-].
  eapply extends_trans; [exact Hb | by apply extends_set_cell].
Qed.

Lemma numeric_values_index (iv : nat * Q) :
  iv ∈ numeric_values L df col → (iv.1 < length (data df))%nat.
Proof.
  unfold numeric_values. intros (ir & Hir%iterrows_index & H)%list_elem_of_omap.
  repeat case_match; try done. by injection H as <-.
Qed.

Lemma date_values_index (iv : nat * Z) :
  iv ∈ (date_values L df col).1 → (iv.1 < length (data df))%nat.
Proof.
  revert iv. unfold date_values.
  apply (fold_left_invariant
           (fun st : list (nat * Z) * nat =>
              ∀ iv, iv ∈ st.1 → (iv.1 < length (data df))%nat)).
  - by intros iv ?%elem_of_nil.
  - intros b x Hx%iterrows_index Hb iv. repeat case_match; simpl; try apply Hb.
    rewrite elem_of_app, list_elem_of_singleton. intros [Hin | ->]; [by apply Hb | done].
Qed.

Lemma scale_numeric_extends name c sm sm' :
  scale_numeric L df name col c sm = Ok sm' → extends df sm sm'.
Proof.
  unfold scale_numeric. repeat res_step; try done;
    try (intros [= <-]; apply extends_warn);
    apply gradient_loop_extends; apply numeric_values_index.
Qed.

Lemma scale_date_extends name c sm sm' :
  scale_date L df name col c sm = Ok sm' → extends df sm sm'.
Proof.
  assert (Hv : ∀ iv,
            iv ∈ ((fun iv : nat * Z => (iv.1, inject_Z iv.2)) <$> (date_values L df col).1) →
            (iv.1 < length (data df))%nat).
  { intros iv (jv & -> & Hj%date_values_index)%list_elem_of_fmap. done. }
  unfold scale_date. repeat res_step; try done;
    first [ intros [= <-];
            first [ apply extends_warn | eapply extends_trans; apply extends_warn ]
          | intros Hg; eapply extends_trans;
            [| eapply gradient_loop_extends; [exact Hv | exact Hg]];
            first [ apply extends_refl | apply extends_warn ] ].
Qed.

Lemma cell_color_scale_extends name c sm sm' :
  cell_color_scale L df name col c sm = Ok sm' → extends df sm sm'.
Proof.
  unfold cell_color_scale. repeat case_match.
  - apply scale_categorical_extends.
  - apply scale_numeric_extends.
  - apply scale_date_extends.
  - intros [= <-]. apply extends_refl.
Qed.

End Extends.

Lemma row_condition_extends L E df name col c style sm sm' :
  (col < length (columns df))%nat →
  row_condition L E df name col c style sm = Ok sm' → extends df sm sm'.
Proof.
  intros Hcol. unfold row_condition.
  repeat case_match; try (intros [= <-]); try apply extends_refl.
  - by apply row_contains_extends.
  - by apply row_equals_extends.
  - by apply row_date_compare_extends.
Qed.

Lemma cell_condition_extends L E df name col c style sm sm' :
  (col < length (columns df))%nat →
  cell_condition L E df name col c style sm = Ok sm' → extends df sm sm'.
Proof.
  intros Hcol. unfold cell_condition.
  repeat case_match; try (intros [= <-]); try apply extends_refl.
  - by apply cell_equals_extends.
  - by apply cell_contains_extends.
  - by apply cell_numeric_extends.
  - by apply cell_date_compare_extends.
  - by apply cell_date_compare_column_extends.
  - by apply cell_color_scale_extends.
Qed.

Lemma apply_rule_extends L E df rule sm sm' :
  apply_rule L E df rule sm = Ok sm' → extends df sm sm'.
Proof.
  unfold apply_rule. destruct rule as [| | | | | | | | r]; try done.
  destruct (eq_lit (get r "scope" (VStr "cell")) "row");
    [| destruct (eq_lit (get r "scope" (VStr "cell")) "cell");
       [| intros [= <-]; apply extends_refl]].
  all: destruct (find_column _ _) as [[[name col] |] |] eqn:Ecol; simpl;
    [| intros [= <-]; apply extends_refl | done].
  all: apply find_column_Some in Ecol as (_ & _ & Hcol%get_loc_lt).
  all: destruct (get r "condition" (VDict [])); try done.
  - by apply row_condition_extends.
  - by apply cell_condition_extends.
Qed.

(** ** The whole rule list *)

Section Rules.

Variable L : PyLib.
Variable E : Env.
Variable df : DataFrame.

Lemma evaluate_fold rules :
  evaluate_formatting_rules L E df rules
  = foldM (fun sm rule => apply_rule L E df rule sm) rules empty_style_map.
Proof. by destruct rules. Qed.

Lemma foldM_app {A B} (f : B → A → res B) (l1 l2 : list A) (b : B) :
  foldM f (l1 ++ l2) b = (b' <- foldM f l1 b;; foldM f l2 b').
Proof.
  revert b. induction l1 as [| x l1 IH]; intros b; simpl; [done |].
  destruct (f b x); simpl; [apply IH | done].
Qed.

(** Evaluating a list of rules is evaluating its first part, then its
    second part, and laying the second result over the first. *)
Lemma evaluate_app rules1 rules2 :
  evaluate_formatting_rules L E df (rules1 ++ rules2)
  = (sm1 <- evaluate_formatting_rules L E df rules1;;
     sm2 <- evaluate_formatting_rules L E df rules2;;
     Ok (overlay sm1 sm2)).
Proof.
  rewrite !evaluate_fold, foldM_app.
  destruct (foldM _ rules1 _) as [sm1 |]; simpl; [| done].
  rewrite <- (overlay_empty sm1) at 1.
  rewrite (foldM_commute _ (overlay sm1)); [done |].
  intros b x. apply apply_rule_overlay.
Qed.

Lemma evaluate_extends rules sm :
  evaluate_formatting_rules L E df rules = Ok sm → extends df empty_style_map sm.
Proof.
  rewrite evaluate_fold.
  apply (foldM_invariant (extends df empty_style_map)); [apply extends_refl |].
  intros b x b' _ Hb Hx. eapply extends_trans; [exact Hb |].
  by eapply apply_rule_extends.
Qed.

End Rules.

Lemma evaluate_returns (L : PyLib) (E : Env) (df : DataFrame) (rules : list pyval) :
  Forall (fun rule => returns (evaluate_formatting_rules L E df [rule]) = true) rules →
  returns (evaluate_formatting_rules L E df rules) = true.
Proof.
  induction 1 as [| rule rules Hrule _ IH]; [done |].
  change (rule :: rules) with ([rule] ++ rules). rewrite evaluate_app.
  destruct (evaluate_formatting_rules L E df [rule]); [| done].
  by destruct (evaluate_formatting_rules L E df rules).
Qed.

(** C4 (as amended).  On a table without rows, an evaluation that returns
    leaves [rows] and [cells] empty, and the evaluation of a rule list
    returns as soon as each of its rules, evaluated alone, returns.  The
    warnings are not claimed to be empty. *)
Theorem zero_rows_no_styles (L : PyLib) (E : Env) (df : DataFrame) (rules : list pyval) :
  data df = [] →
  (∀ sm, evaluate_formatting_rules L E df rules = Ok sm → rows sm = ∅ ∧ cells sm = ∅)
  ∧ (Forall (fun rule => returns (evaluate_formatting_rules L E df [rule]) = true) rules →
     ∃ sm, evaluate_formatting_rules L E df rules = Ok sm ∧ rows sm = ∅ ∧ cells sm = ∅).
Proof.
  intros Hdf.
  assert (Hempty : ∀ sm, evaluate_formatting_rules L E df rules = Ok sm →
                         rows sm = ∅ ∧ cells sm = ∅).
  { intros sm [Hc Hr]%evaluate_extends. rewrite Hdf in Hc, Hr. simpl in Hc, Hr. split.
    - apply map_eq. intros i. rewrite lookup_empty.
      destruct (rows sm !! i) as [s |] eqn:H; [| done].
      destruct (Hr _ _ H) as [H' | H']; [done | lia].
    - apply map_eq. intros k. rewrite lookup_empty.
      destruct (cells sm !! k) as [s |] eqn:H; [| done].
      destruct (Hc _ _ H) as [H' | (i & _ & Hi & _)]; [done | lia]. }
  split; [exact Hempty |].
  intros Hall%evaluate_returns.
  destruct (evaluate_formatting_rules L E df rules) as [sm |] eqn:Heval; [| done].
  exists sm. split; [done |]. by apply Hempty.
Qed.

(** C3.  Rules take effect in list order and a later write replaces an
    earlier one: when the rules before [rule], [rule] alone and the rules
    after it each evaluate, so does the whole list, and in its result an
    entry written by [rule] is exactly that entry unless a rule after it
    writes the same key; what [rule] writes hides whatever the rules before
    it wrote there.  Nothing is merged and nothing is raised. *)
Theorem last_write_wins (L : PyLib) (E : Env) (df : DataFrame)
    (before after : list pyval) (rule : pyval) (sm0 d sm3 : StyleMap) :
  evaluate_formatting_rules L E df before = Ok sm0 →
  evaluate_formatting_rules L E df [rule] = Ok d →
  evaluate_formatting_rules L E df after = Ok sm3 →
  ∃ sm,
    evaluate_formatting_rules L E df (before ++ rule :: after) = Ok sm
    ∧ (∀ k s, cells sm3 !! k = Some s → cells sm !! k = Some s)
    ∧ (∀ k s, cells d !! k = Some s → cells sm3 !! k = None → cells sm !! k = Some s)
    ∧ (∀ k, cells d !! k = None → cells sm3 !! k = None → cells sm !! k = cells sm0 !! k)
    ∧ (∀ i s, rows sm3 !! i = Some s → rows sm !! i = Some s)
    ∧ (∀ i s, rows d !! i = Some s → rows sm3 !! i = None → rows sm !! i = Some s)
    ∧ (∀ i, rows d !! i = None → rows sm3 !! i = None → rows sm !! i = rows sm0 !! i)
    ∧ warnings sm = warnings sm0 ++ warnings d ++ warnings sm3.
Proof.
  intros H0 Hd H3. exists (overlay sm0 (overlay d sm3)). split.
  - change (rule :: after) with ([rule] ++ after).
    by rewrite !evaluate_app, H0, Hd, H3.
  - simpl. repeat split.
    + intros k s H. by rewrite !lookup_union_l' by (rewrite ?lookup_union_l'; eauto).
    + intros k s Hk Hn. rewrite lookup_union_l'; rewrite lookup_union_r; eauto.
    + intros k Hk Hn. rewrite lookup_union_r; [done |]. by rewrite lookup_union_r.
    + intros i s H. by rewrite !lookup_union_l' by (rewrite ?lookup_union_l'; eauto).
    + intros i s Hi Hn. rewrite lookup_union_l'; rewrite lookup_union_r; eauto.
    + intros i Hi Hn. rewrite lookup_union_r; [done |]. by rewrite lookup_union_r.
Qed.

(** ** The branches as loops with a known decision per row *)

Lemma fold_left_ext {A B} (f g : B → A → B) (l : list A) (b : B) :
  (∀ b x, f b x = g b x) → fold_left f l b = fold_left g l b.
Proof.
  intros H. revert b. induction l as [| x l IH]; intros b; simpl; [done |].
  by rewrite H, IH.
Qed.

Lemma foldM_pure {A B} (f : B → A → res B) (g : B → A → B) (l : list A) (b : B) :
  (∀ b x, f b x = Ok (g b x)) → foldM f l b = Ok (fold_left g l b).
Proof.
  intros H. revert b. induction l as [| x l IH]; intros b; simpl; [done |].
  rewrite H. simpl. apply IH.
Qed.

Lemma get_loc_None (name : string) (cols : list string) :
  name ∉ cols → get_loc name cols = None.
Proof.
  induction cols as [| c cols IH]; simpl; [done |].
  rewrite not_elem_of_cons. intros [Hne Hc].
  destruct (String.eqb_spec name c); [done |]. by rewrite IH.
Qed.

Lemma find_column_str df (name : string) (col : nat) :
  name ≠ "" → get_loc name (columns df) = Some col →
  find_column df (VStr name) = Ok (Some (name, col)).
Proof.
  intros Hne Hcol. unfold find_column. simpl.
  destruct (String.eqb_spec name ""); [done |]. simpl. by rewrite Hcol.
Qed.

Lemma find_column_missing df (name : string) :
  name ∉ columns df → find_column df (VStr name) = Ok None.
Proof.
  intros H. unfold find_column. simpl. destruct (negb _); [done |].
  by rewrite get_loc_None.
Qed.

Section Dispatch.

Variable L : PyLib.
Variable E : Env.
Variable df : DataFrame.

Lemma apply_cell_rule rule name col c style sm :
  rule_has rule "cell" name c style → name ≠ "" →
  get_loc name (columns df) = Some col →
  apply_rule L E df rule sm = cell_condition L E df name col c style sm.
Proof.
  intros (r & -> & Hs & Ht & Hc & Hst) Hne Hcol. unfold apply_rule.
  rewrite Hs, Ht, Hc, Hst. simpl. by rewrite (find_column_str df name col).
Qed.

Lemma apply_row_rule rule name col c style sm :
  rule_has rule "row" name c style → name ≠ "" →
  get_loc name (columns df) = Some col →
  apply_rule L E df rule sm = row_condition L E df name col c style sm.
Proof.
  intros (r & -> & Hs & Ht & Hc & Hst) Hne Hcol. unfold apply_rule.
  rewrite Hs, Ht, Hc, Hst. simpl. by rewrite (find_column_str df name col).
Qed.

Lemma row_equals_loop col c style sm :
  row_equals L df col c style sm
  = row_loop (fun _ => equals_row L col (get c "value" (VStr "")) style) (iterrows df) sm.
Proof.
  unfold row_equals, row_loop, equals_row. apply fold_left_ext.
  intros b x. by case_match.
Qed.

Lemma row_contains_loop col c style sm :
  row_contains L df col c style sm
  = row_loop (fun _ => contains_any L col (get c "value" (VStr "")) style) (iterrows df) sm.
Proof.
  unfold row_contains, row_loop, contains_any. apply fold_left_ext.
  intros b x. by case_match.
Qed.

Lemma cell_equals_loop col c style sm :
  cell_equals L df col c style sm
  = cell_loop (fun _ => equals_cell L col (get c "value" VNone) style) col (iterrows df) sm.
Proof.
  unfold cell_equals, cell_loop, equals_cell. apply fold_left_ext.
  intros b x. by case_match.
Qed.

Lemma cell_contains_loop col c style sm :
  cell_contains L df col c style sm
  = cell_loop (fun _ => contains_any L col (get c "value" (VStr "")) style) col
      (iterrows df) sm.
Proof.
  unfold cell_contains, cell_loop, contains_any. apply fold_left_ext.
  intros b x. by case_match.
Qed.

Lemma cell_numeric_loop col c style sm :
  cell_numeric L df col c style sm
  = cell_loop (fun _ => numeric_cell L col (get c "operator" (VStr ">"))
                          (get c "value" (VInt 0)) style)
      col (iterrows df) sm.
Proof.
  unfold cell_numeric, cell_loop, numeric_cell. apply fold_left_ext.
  intros b x. by repeat case_match.
Qed.

End Dispatch.

Lemma evaluate_single L E df rule :
  evaluate_formatting_rules L E df [rule] = apply_rule L E df rule empty_style_map.
Proof. simpl. by destruct (apply_rule _ _ _ _ _). Qed.

Lemma get_assoc (c : list (string * pyval)) (key : string) (v dflt : pyval) :
  assoc key c = Some v → get c key dflt = v.
Proof. unfold get. by intros ->. Qed.

Lemma or_else_None {A} (o : option A) : or_else o None = o.
Proof. by destruct o. Qed.

(** C7.  A row-scope [equals] rule styles a row exactly when the trimmed
    string form of its cell is the string form of the value; a cell-scope
    [equals] rule styles the cell exactly when the untrimmed string form
    is.  A cell that equals the value only after trimming is therefore
    matched by the row-scope rule and not by the cell-scope rule. *)
Theorem equals_trim_asymmetry (L : PyLib) (E : Env) (df : DataFrame)
    (name : string) (col : nat) (v : pyval)
    (rule_row rule_cell : pyval) (c_row c_cell : list (string * pyval))
    (style_row style_cell : pyval) :
  name ≠ "" →
  get_loc name (columns df) = Some col →
  rule_has rule_row "row" name c_row style_row →
  rule_has rule_cell "cell" name c_cell style_cell →
  get c_row "type" VNone = VStr "equals" → assoc "value" c_row = Some v →
  get c_cell "type" VNone = VStr "equals" → assoc "value" c_cell = Some v →
  ∃ sm_row sm_cell,
    evaluate_formatting_rules L E df [rule_row] = Ok sm_row
    ∧ evaluate_formatting_rules L E df [rule_cell] = Ok sm_cell
    ∧ ∀ (i : nat) (row : list pyval),
        data df !! i = Some row →
        let cell := py_str L (row_cell row col) in
        (rows sm_row !! i = Some style_row ↔ strip cell = py_str L v)
        ∧ (cells sm_cell !! ((i + 1)%nat, col) = Some style_cell ↔ cell = py_str L v)
        ∧ (strip cell = py_str L v → cell ≠ py_str L v →
           rows sm_row !! i = Some style_row
           ∧ cells sm_cell !! ((i + 1)%nat, col) = None).
Proof.
  intros Hne Hcol Hr Hc Htr Hvr Htc Hvc.
  exists (row_equals L df col c_row style_row empty_style_map),
         (cell_equals L df col c_cell style_cell empty_style_map).
  split; [| split].
  - rewrite evaluate_single, (apply_row_rule L E df _ name col c_row style_row) by done.
    unfold row_condition. by rewrite Htr.
  - rewrite evaluate_single, (apply_cell_rule L E df _ name col c_cell style_cell) by done.
    unfold cell_condition. by rewrite Htc.
  - intros i row Hrow cell.
    assert (Hrows : rows (row_equals L df col c_row style_row empty_style_map) !! i
                    = equals_row L col v style_row row).
    { rewrite row_equals_loop, row_loop_lookup. unfold row_written. rewrite Hrow. simpl.
      rewrite lookup_empty, or_else_None. by rewrite (get_assoc _ _ v). }
    assert (Hcells : cells (cell_equals L df col c_cell style_cell empty_style_map)
                       !! ((i + 1)%nat, col)
                     = equals_cell L col v style_cell row).
    { rewrite cell_equals_loop, cell_loop_lookup. unfold cell_written. simpl.
      replace (i + 1)%nat with (S i) by lia. rewrite decide_True by done.
      rewrite Hrow. simpl. rewrite lookup_empty, or_else_None.
      by rewrite (get_assoc _ _ v). }
    rewrite Hrows, Hcells. unfold equals_row, equals_cell. fold cell.
    destruct (String.eqb_spec (strip cell) (py_str L v)) as [Hs | Hs];
      destruct (String.eqb_spec cell (py_str L v)) as [Hu | Hu];
      repeat split; try done; try (by intros [=]); intros; done.
Qed.

(** C8.  A rule whose target column is not a column of the table is
    skipped and leaves the style map as it was, warnings included.  A
    [numeric] rule appends no warning, and a cell that [float] cannot
    convert keeps whatever entry it had.  A [date_compare_column] rule
    whose [compare_column] is absent or names no column of the table
    changes no style and appends exactly one warning. *)
Theorem skip_policy (L : PyLib) (E : Env) (df : DataFrame) (sm : StyleMap) :
  (∀ (r : list (string * pyval)) (name : string),
     get r "target_column" VNone = VStr name → name ∉ columns df →
     apply_rule L E df (VDict r) sm = Ok sm)
  ∧ (∀ (rule : pyval) (name : string) (col : nat) (c : list (string * pyval))
       (style : pyval),
       name ≠ "" → get_loc name (columns df) = Some col →
       rule_has rule "cell" name c style →
       get c "type" VNone = VStr "numeric" →
       ∃ sm',
         apply_rule L E df rule sm = Ok sm'
         ∧ rows sm' = rows sm
         ∧ warnings sm' = warnings sm
         ∧ ∀ (i : nat) (row : list pyval),
             data df !! i = Some row →
             returns (py_float L (row_cell row col)) = false →
             cells sm' !! ((i + 1)%nat, col) = cells sm !! ((i + 1)%nat, col))
  ∧ (∀ (rule : pyval) (name : string) (col : nat) (c : list (string * pyval))
       (style : pyval),
       name ≠ "" → get_loc name (columns df) = Some col →
       rule_has rule "cell" name c style →
       get c "type" VNone = VStr "date_compare_column" →
       (get c "compare_column" VNone = VNone
        ∨ ∃ other, get c "compare_column" VNone = VStr other ∧ other ∉ columns df) →
       apply_rule L E df rule sm
       = Ok {| rows := rows sm;
               cells := cells sm;
               warnings := warnings sm
                           ++ ["Compare column '"
                               +:+ py_str L (get c "compare_column" VNone)
                               +:+ "' not found"] |}).
Proof.
  split; [| split].
  - intros r name Ht Hmiss. unfold apply_rule. rewrite Ht.
    rewrite (find_column_missing df name Hmiss). simpl. by repeat case_match.
  - intros rule name col c style Hne Hcol Hrule Htype.
    exists (cell_numeric L df col c style sm). split; [| split; [| split]].
    + rewrite (apply_cell_rule L E df _ name col c style) by done.
      unfold cell_condition. by rewrite Htype.
    + rewrite cell_numeric_loop. apply cell_loop_frame.
    + rewrite cell_numeric_loop. apply cell_loop_frame.
    + intros i row Hrow Hfloat. rewrite cell_numeric_loop, cell_loop_lookup.
      unfold cell_written. simpl. replace (i + 1)%nat with (S i) by lia.
      rewrite decide_True by done. rewrite Hrow. simpl.
      unfold numeric_cell. by destruct (py_float L (row_cell row col)).
  - intros rule name col c style Hne Hcol Hrule Htype Hcc.
    rewrite (apply_cell_rule L E df _ name col c style) by done.
    unfold cell_condition. rewrite Htype. simpl. unfold cell_date_compare_column.
    destruct Hcc as [-> | (other & -> & Hmiss)]; [done |].
    by rewrite (find_column_missing df other Hmiss).
Qed.

(** ** The categorical colour scale *)

Lemma categorical_fold L col (d : list (string * pyval)) (l : list (list pyval)) (n : nat)
    (sm : StyleMap) (u : gset string) :
  fold_left
    (fun (st : StyleMap * gset string) (ir : nat * list pyval) =>
       match assoc (py_str L (row_cell ir.2 col)) d with
       | Some bg => (set_cell st.1 (ir.1 + 1, col)%nat (bg_style bg), st.2)
       | None => (st.1, {[ py_str L (row_cell ir.2 col) ]} ∪ st.2)
       end)
    (enumerate_from n l) (sm, u)
  = (cell_loop (fun _ => categorical_cell L col d) col (enumerate_from n l) sm,
     list_to_set
       (omap (fun row => match assoc (py_str L (row_cell row col)) d with
                         | Some _ => None
                         | None => Some (py_str L (row_cell row col))
                         end) l) ∪ u).
Proof.
  revert n sm u. induction l as [| row l IH]; intros n sm u.
  - simpl. f_equal. by rewrite (left_id_L ∅ (∪)).
  - simpl enumerate_from. rewrite cell_loop_cons. cbn [fold_left fst snd omap list_omap].
    unfold categorical_cell at 2.
    destruct (assoc (py_str L (row_cell row col)) d) as [bg |]; simpl; rewrite IH.
    + done.
    + f_equal. rewrite (assoc_L (∪)). f_equal. apply (comm_L (∪)).
Qed.

Lemma scale_categorical_dict L df name col c (d : list (string * pyval)) sm :
  get c "color_map" (VDict []) = VDict d → d ≠ [] →
  scale_categorical L df name col c sm
  = Ok (let sm' := cell_loop (fun _ => categorical_cell L col d) col (iterrows df) sm in
        if bool_decide (unmapped_values L df col d = ∅) then sm'
        else warn sm' (unmapped_warning L name (unmapped_values L df col d))).
Proof.
  intros Hmap Hd. unfold scale_categorical. rewrite Hmap.
  destruct d as [| kv d']; [done |]. simpl negb. cbv iota.
  rewrite (foldM_pure _
             (fun (st : StyleMap * gset string) (ir : nat * list pyval) =>
                match assoc (py_str L (row_cell ir.2 col)) (kv :: d') with
                | Some bg => (set_cell st.1 (ir.1 + 1, col)%nat (bg_style bg), st.2)
                | None => (st.1, {[ py_str L (row_cell ir.2 col) ]} ∪ st.2)
                end)).
  2: { intros b x. unfold color_map_lookup. by destruct (assoc _ _). }
  unfold iterrows. rewrite categorical_fold. unfold bind. cbn [fst snd].
  rewrite (right_id_L ∅ (∪)). fold (unmapped_values L df col (kv :: d')).
  by case_bool_decide.
Qed.

Lemma take_set_order L (u : gset string) :
  let examples := take 3 (set_order L u) in
  NoDup examples ∧ (∀ x, x ∈ examples → x ∈ u)
  ∧ length examples = Nat.min 3 (size u).
Proof.
  pose proof (set_order_perm L u) as Hperm. simpl. split; [| split].
  - apply (sublist_NoDup (take 3 (set_order L u)) (set_order L u));
      [| apply sublist_take].
    rewrite Hperm. apply NoDup_elements.
  - intros x Hx. apply elem_of_elements. rewrite <- Hperm.
    by apply (subseteq_take 3).
  - rewrite length_take. rewrite Hperm. done.
Qed.

Lemma elem_of_unmapped_values L df col (d : list (string * pyval)) (x : string) :
  x ∈ unmapped_values L df col d
  ↔ ∃ i row, data df !! i = Some row ∧ py_str L (row_cell row col) = x ∧ assoc x d = None.
Proof.
  unfold unmapped_values. rewrite elem_of_list_to_set, list_elem_of_omap. split.
  - intros (row & (i & Hi)%list_elem_of_lookup & H). exists i, row.
    destruct (assoc (py_str L (row_cell row col)) d) eqn:Ea; [done |].
    injection H as <-. done.
  - intros (i & row & Hi & <- & Ha). exists row. split.
    + apply list_elem_of_lookup. by exists i.
    + by rewrite Ha.
Qed.

(** C9.  A categorical colour scale with a non-empty colour map assigns
    [{bg_color: mapped colour}] at key [(row + 1, column)] to exactly the
    rows whose cell, in string form, is a key of the map, and leaves every
    other key as it was.  The string forms that are no key are collected as
    a set; when the set is non-empty one warning is appended, which counts
    them and names at most three distinct ones, followed by an ellipsis
    exactly when there are more than three.  Without a colour map, or with
    an empty one, the rule changes no style and appends one warning. *)
Theorem categorical_scale (L : PyLib) (E : Env) (df : DataFrame) (sm : StyleMap)
    (rule : pyval) (name : string) (col : nat) (c : list (string * pyval)) (style : pyval) :
  name ≠ "" →
  get_loc name (columns df) = Some col →
  rule_has rule "cell" name c style →
  get c "type" VNone = VStr "color_scale" →
  get c "scale_type" (VStr "numeric") = VStr "categorical" →
  (∀ d : list (string * pyval),
     assoc "color_map" c = Some (VDict d) → d ≠ [] →
     let unmapped := unmapped_values L df col d in
     let examples := take 3 (set_order L unmapped) in
     ∃ sm',
       apply_rule L E df rule sm = Ok sm'
       ∧ rows sm' = rows sm
       ∧ (∀ (i : nat) (row : list pyval),
            data df !! i = Some row →
            cells sm' !! ((i + 1)%nat, col)
            = match assoc (py_str L (row_cell row col)) d with
              | Some bg => Some (bg_style bg)
              | None => cells sm !! ((i + 1)%nat, col)
              end)
       ∧ (∀ k : nat * nat,
            (∀ i, (i < length (data df))%nat → k ≠ ((i + 1)%nat, col)) →
            cells sm' !! k = cells sm !! k)
       ∧ (∀ x, x ∈ unmapped
               ↔ ∃ i row, data df !! i = Some row
                          ∧ py_str L (row_cell row col) = x ∧ assoc x d = None)
       ∧ (unmapped = ∅ → warnings sm' = warnings sm)
       ∧ (unmapped ≠ ∅ →
          warnings sm'
          = warnings sm
            ++ ["'" +:+ name +:+ "' categorical color scale: " +:+ pretty (size unmapped)
                +:+ " unmapped values (" +:+ join ", " examples
                +:+ (if (3 <? size unmapped)%nat then "..." else "") +:+ ")"])
       ∧ NoDup examples
       ∧ (∀ x, x ∈ examples → x ∈ unmapped)
       ∧ length examples = Nat.min 3 (size unmapped))
  ∧ (assoc "color_map" c = None ∨ assoc "color_map" c = Some (VDict []) →
     apply_rule L E df rule sm
     = Ok {| rows := rows sm;
             cells := cells sm;
             warnings := warnings sm ++ ["color_scale categorical missing 'color_map'"] |}).
Proof.
  intros Hne Hcol Hrule Htype Hscale.
  assert (Happly : apply_rule L E df rule sm = scale_categorical L df name col c sm).
  { rewrite (apply_cell_rule L E df _ name col c style) by done.
    unfold cell_condition. rewrite Htype. simpl.
    unfold cell_color_scale. by rewrite Hscale. }
  split.
  - intros d Hmap Hd unmapped examples.
    pose proof (scale_categorical_dict L df name col c d sm
                  (get_assoc _ _ _ (VDict []) Hmap) Hd) as Hcat.
    fold unmapped in Hcat.
    set (loop := cell_loop (fun _ => categorical_cell L col d) col (iterrows df) sm) in Hcat.
    assert (Hrows : rows loop = rows sm) by apply cell_loop_frame.
    assert (Hwarn : warnings loop = warnings sm) by apply cell_loop_frame.
    assert (Hcells : ∀ k, cells loop !! k
                          = or_else (cell_written (fun _ => categorical_cell L col d) df col k)
                              (cells sm !! k)) by apply cell_loop_lookup.
    destruct (take_set_order L unmapped) as (Hnd & Hsub & Hlen).
    eexists. split; [by rewrite Happly, Hcat |].
    simpl. repeat split.
    + by case_bool_decide.
    + intros i row Hrow.
      assert (cells loop !! ((i + 1)%nat, col)
              = match assoc (py_str L (row_cell row col)) d with
                | Some bg => Some (bg_style bg)
                | None => cells sm !! ((i + 1)%nat, col)
                end) as <-.
      { rewrite Hcells. unfold cell_written. simpl.
        replace (i + 1)%nat with (S i) by lia. rewrite decide_True by done.
        rewrite Hrow. simpl. unfold categorical_cell.
        by destruct (assoc _ d). }
      by case_bool_decide.
    + intros [r c'] Hk.
      assert (cells loop !! (r, c') = cells sm !! (r, c')) as <-.
      { rewrite Hcells. unfold cell_written. simpl.
        destruct r as [| i]; [done |].
        destruct (decide (c' = col)) as [-> | ?]; [| done].
        destruct (data df !! i) as [row |] eqn:Hrow; [| done].
        exfalso. apply lookup_lt_Some in Hrow. apply (Hk i Hrow). f_equal. lia. }
      by case_bool_decide.
    + by intros ?%elem_of_unmapped_values.
    + by intros ?%elem_of_unmapped_values.
    + intros Hu. by rewrite bool_decide_true.
    + intros Hu. rewrite bool_decide_false by done. simpl. by rewrite Hwarn.
    + done.
    + done.
    + done.
  - intros Hmap. rewrite Happly. unfold scale_categorical.
    assert (get c "color_map" (VDict []) = VDict []) as ->; [| done].
    unfold get. by destruct Hmap as [-> | ->].
Qed.

(** ** The comparison date *)

Lemma fold_left_fst {A B C} (f : B * C → A → B * C) (g : B → A → B) (l : list A)
    (b : B) (c : C) :
  (∀ b c x, (f (b, c) x).1 = g b x) → (fold_left f l (b, c)).1 = fold_left g l b.
Proof.
  intros H. revert b c. induction l as [| x l IH]; intros b c; simpl; [done |].
  specialize (H b c x). destruct (f (b, c) x) as [b' c']. simpl in H. subst b'.
  apply IH.
Qed.

Lemma date_compare_loop_rows L df col op target_date style sm :
  (date_compare_loop L df col op target_date (fun sm i => set_row sm i style) sm).1
  = row_loop (fun _ => date_cell L col op target_date style) (iterrows df) sm.
Proof.
  unfold date_compare_loop, row_loop. apply fold_left_fst.
  intros b n x. unfold date_cell. by repeat case_match.
Qed.

Lemma date_compare_loop_cells L df col op target_date style sm :
  (date_compare_loop L df col op target_date
     (fun sm i => set_cell sm (i + 1, col)%nat style) sm).1
  = cell_loop (fun _ => date_cell L col op target_date style) col (iterrows df) sm.
Proof.
  unfold date_compare_loop, cell_loop. apply fold_left_fst.
  intros b n x. unfold date_cell. by repeat case_match.
Qed.

(** C6.  For a [date_compare] rule of either scope the comparison date is
    resolved in this order.  [compare_to == "today"]: the date of the clock
    at the fixed offset of eight hours from UTC, whatever the local zone of
    the host and whatever the other fields.  [compare_to] one of
    [start_date] and [end_date]: the value bound to that name in the
    context, parsed as a date; a missing binding, an unparsable one and a
    failing parse each leave the rule unresolved, the literal [value] not
    being consulted.  Otherwise a [value] that is truthy is parsed as a
    date.  An unresolved rule appends one warning and changes no style; a
    resolved one styles the rows whose date compares as the operator
    asks. *)
Theorem date_target_resolution (L : PyLib) (E : Env) (df : DataFrame) (sm : StyleMap)
    (row_scope : bool) (rule : pyval) (name : string) (col : nat)
    (c : list (string * pyval)) (style : pyval) :
  name ≠ "" →
  get_loc name (columns df) = Some col →
  rule_has rule (if row_scope then "row" else "cell") name c style →
  get c "type" VNone = VStr "date_compare" →
  let compare_to := get c "compare_to" VNone in
  let value := get c "value" VNone in
  let resolve E := resolve_target_date L E (if row_scope then " in context" else "") c in
  (compare_to = VStr "today" →
   resolve E = Ok (Target (epoch_ordinal + (clock_utc E + 8 * 3600) / 86400))
   ∧ ∀ E', clock_utc E' = clock_utc E → resolve E' = resolve E)
  ∧ (∀ n, compare_to = VStr n → n = "start_date" ∨ n = "end_date" →
       resolve E
       = Ok match module_globals E n with
            | None | Some VNone =>
                NoTarget ("compare_to='" +:+ n +:+ "' not found"
                          +:+ (if row_scope then " in context" else ""))
            | Some bound =>
                match to_datetime L bound with
                | Ok (Some t) => Target (ts_day t)
                | Ok None => NoTarget ("compare_to='" +:+ n +:+ "' not parseable")
                | Raise e => NoTarget ("Error accessing '" +:+ n +:+ "': " +:+ exn_msg e)
                end
            end)
  ∧ (eq_lit compare_to "today" = false → eq_lit compare_to "start_date" = false →
     eq_lit compare_to "end_date" = false →
     (truthy value = true →
      resolve E
      = (t <- to_datetime L value;;
         Ok match t with
            | Some t => Target (ts_day t)
            | None => NoTarget ("Fixed date '" +:+ py_str L value +:+ "' not parseable")
            end))
     ∧ (truthy value = false →
        resolve E = Ok (NoTarget "date_compare missing 'compare_to' or 'value'")))
  ∧ (∀ w, resolve E = Ok (NoTarget w) →
       apply_rule L E df rule sm
       = Ok {| rows := rows sm; cells := cells sm; warnings := warnings sm ++ [w] |})
  ∧ (∀ target_date, resolve E = Ok (Target target_date) →
       ∃ sm',
         apply_rule L E df rule sm = Ok sm'
         ∧ ∀ (i : nat) (row : list pyval) (t : timestamp),
             data df !! i = Some row →
             to_datetime L (row_cell row col) = Ok (Some t) →
             op_match (get c "operator" (VStr ">")) Z.ltb Z.eqb (ts_day t) target_date = true →
             if row_scope then rows sm' !! i = Some style
             else cells sm' !! ((i + 1)%nat, col) = Some style).
Proof.
  intros Hne Hcol Hrule Htype compare_to value resolve.
  assert (Happly : apply_rule L E df rule sm
                   = if row_scope then row_date_compare L E df name col c style sm
                     else cell_date_compare L E df name col c style sm).
  { destruct row_scope.
    - rewrite (apply_row_rule L E df _ name col c style) by done.
      unfold row_condition. by rewrite Htype.
    - rewrite (apply_cell_rule L E df _ name col c style) by done.
      unfold cell_condition. by rewrite Htype. }
  split; [| split; [| split; [| split]]].
  - intros Htoday. unfold resolve, resolve_target_date. fold compare_to.
    rewrite Htoday. simpl. split; [done |]. by intros E' ->.
  - intros n Hn Hor. unfold resolve, resolve_target_date. fold compare_to.
    rewrite Hn. unfold globals_get.
    destruct Hor as [-> | ->]; simpl;
      (destruct (module_globals E _) as [[] |]; simpl; try done;
       by destruct (to_datetime L _) as [[] |]).
  - intros H1 H2 H3. unfold resolve, resolve_target_date. fold compare_to. fold value.
    rewrite H1, H2, H3. simpl. split; intros ->; [| done].
    by destruct (to_datetime L value) as [[] |].
  - intros w Hw. rewrite Happly. unfold resolve in Hw.
    destruct row_scope; unfold row_date_compare, cell_date_compare; by rewrite Hw.
  - intros target_date Ht. rewrite Happly. unfold resolve in Ht.
    destruct row_scope; unfold row_date_compare, cell_date_compare; rewrite Ht; simpl.
    + pose proof (date_compare_loop_rows L df col (get c "operator" (VStr ">"))
                    target_date style sm) as Hloop.
      destruct (date_compare_loop _ _ _ _ _ _ _) as [sm1 n]. simpl in Hloop.
      assert (Hrow : ∀ i row t, data df !! i = Some row →
                to_datetime L (row_cell row col) = Ok (Some t) →
                op_match (get c "operator" (VStr ">")) Z.ltb Z.eqb (ts_day t) target_date = true →
                rows sm1 !! i = Some style).
      { intros i row t Hi Hd Hm. rewrite Hloop, row_loop_lookup.
        unfold row_written. rewrite Hi. simpl. unfold date_cell. by rewrite Hd, Hm. }
      simpl. destruct (n =? 0)%nat; eexists; (split; [done |]); simpl; exact Hrow.
    + pose proof (date_compare_loop_cells L df col (get c "operator" (VStr ">"))
                    target_date style sm) as Hloop.
      destruct (date_compare_loop _ _ _ _ _ _ _) as [sm1 n]. simpl in Hloop.
      assert (Hcell : ∀ i row t, data df !! i = Some row →
                to_datetime L (row_cell row col) = Ok (Some t) →
                op_match (get c "operator" (VStr ">")) Z.ltb Z.eqb (ts_day t) target_date = true →
                cells sm1 !! ((i + 1)%nat, col) = Some style).
      { intros i row t Hi Hd Hm. rewrite Hloop, cell_loop_lookup.
        unfold cell_written. simpl. replace (i + 1)%nat with (S i) by lia.
        rewrite decide_True by done. rewrite Hi. simpl.
        unfold date_cell. by rewrite Hd, Hm. }
      simpl. destruct (n =? 0)%nat; eexists; (split; [done |]); simpl; exact Hcell.
Qed.

(** ** Every cell rule is a loop of writes at [(row + 1, column)] *)











Section Writes.

Variable L : PyLib.
Variable E : Env.
Variable df : DataFrame.
Variable col : nat.











End Writes.


(** ** The evaluator on concrete tables *)

(** C1.  The evaluator does raise.  A manual numeric colour scale whose
    [min] is a text reaches [min_val < mid_val < max_val] outside any
    [try], and the [TypeError] of the comparison leaves the evaluator; the
    manual date scale, its sibling, guards the same step and reports a
    warning instead.  Colour stops that are names and not [#RRGGBB] fail in
    [hex_to_rgb] with a [ValueError], a [colors] field without a length
    fails in [len] with a [TypeError], and a condition that is no dict has
    no [get]. *)
Theorem evaluator_can_raise :
  raises TypeError
    (Demo.evaluate Demo.table [Demo.rule "cell" "Score" Demo.manual_scale_with_text Demo.red])
  = true
  ∧ Demo.evaluate Demo.table
      [Demo.rule "cell" "Due" Demo.manual_date_scale_with_text Demo.red]
    = Ok {| rows := ∅; cells := ∅;
            warnings := ["'Due' date color scale: 1 invalid dates";
                         "date scale manual: invalid date(s)"] |}
  ∧ raises ValueError
      (Demo.evaluate Demo.table [Demo.rule "cell" "Score" Demo.named_colors_scale Demo.red])
    = true
  ∧ raises TypeError
      (Demo.evaluate Demo.table [Demo.rule "cell" "Score" Demo.colors_not_a_list Demo.red])
    = true
  ∧ raises AttributeError
      (Demo.evaluate Demo.table
         [VDict [("target_column", VStr "Score"); ("condition", VStr "equals")]])
    = true.
Proof. repeat split; vm_compute; reflexivity. Qed.

(** The statement of C4 fails: on a table without rows a numeric colour
    scale on an existing column appends a warning. *)
Lemma zero_rows_warning_counterexample :
  Demo.evaluate Demo.empty_table [Demo.rule "cell" "Score" Demo.numeric_scale Demo.red]
  = Ok {| rows := ∅; cells := ∅; warnings := ["'Score' has no valid numeric values"] |}.
Proof. vm_compute. reflexivity. Qed.

Lemma zero_rows_no_styles_witness :
  ∃ sm,
    Demo.evaluate Demo.empty_table
      [Demo.rule "cell" "Score" Demo.numeric_scale Demo.red;
       Demo.rule "row" "Status" Demo.equals_active Demo.bold]
    = Ok sm
    ∧ rows sm = ∅ ∧ cells sm = ∅.
Proof.
  apply (zero_rows_no_styles Demo.lib Demo.env Demo.empty_table
           [Demo.rule "cell" "Score" Demo.numeric_scale Demo.red;
            Demo.rule "row" "Status" Demo.equals_active Demo.bold]);
    [reflexivity |].
  repeat constructor.
Defined.





Lemma last_write_wins_witness :
  ∃ sm,
    Demo.evaluate Demo.table
      [Demo.rule "cell" "Status" Demo.equals_active Demo.red;
       Demo.rule "cell" "Status" Demo.contains_active Demo.blue]
    = Ok sm
    ∧ cells sm !! (1%nat, 1%nat) = Some Demo.blue.
Proof.
  edestruct (last_write_wins Demo.lib Demo.env Demo.table
               [Demo.rule "cell" "Status" Demo.equals_active Demo.red] []
               (Demo.rule "cell" "Status" Demo.contains_active Demo.blue))
    as (sm & Hsm & _ & Hnew & _); [vm_compute; reflexivity .. |].
  exists sm. split; [exact Hsm |]. apply Hnew; vm_compute; reflexivity.
Defined.

Lemma date_target_resolution_witness :
  resolve_target_date Demo.lib Demo.env "" Demo.before_today = Ok (Target 739267)
  ∧ (∃ sm,
       apply_rule Demo.lib Demo.env Demo.table
         (Demo.rule "cell" "Due" Demo.before_today Demo.red) empty_style_map = Ok sm
       ∧ cells sm !! (1%nat, 2%nat) = Some Demo.red)
  ∧ apply_rule Demo.lib Demo.env Demo.table
      (Demo.rule "row" "Due" Demo.before_start Demo.bold) empty_style_map
    = Ok {| rows := ∅; cells := ∅;
            warnings := ["compare_to='start_date' not found in context"] |}.
Proof.
  split; [| split].
  - destruct (date_target_resolution Demo.lib Demo.env Demo.table empty_style_map false
                (Demo.rule "cell" "Due" Demo.before_today Demo.red) "Due" 2
                Demo.before_today Demo.red)
      as (Htoday & _);
      [discriminate | reflexivity | eexists; repeat split; reflexivity | reflexivity |].
    by destruct (Htoday eq_refl).
  - destruct (date_target_resolution Demo.lib Demo.env Demo.table empty_style_map false
                (Demo.rule "cell" "Due" Demo.before_today Demo.red) "Due" 2
                Demo.before_today Demo.red)
      as (Htoday & _ & _ & _ & Hresolved);
      [discriminate | reflexivity | eexists; repeat split; reflexivity | reflexivity |].
    destruct (Htoday eq_refl) as [Hdate _].
    destruct (Hresolved 739267 Hdate) as (sm & Hsm & Hrows). exists sm.
    split; [exact Hsm |].
    apply (Hrows 0%nat [VInt 10; VStr "Active"; VStr "2025-01-10"]
             (Timestamp 739261 0)); reflexivity.
  - destruct (date_target_resolution Demo.lib Demo.env Demo.table empty_style_map true
                (Demo.rule "row" "Due" Demo.before_start Demo.bold) "Due" 2
                Demo.before_start Demo.bold)
      as (_ & Hcontext & _ & Hunresolved & _);
      [discriminate | reflexivity | eexists; repeat split; reflexivity | reflexivity |].
    apply Hunresolved. apply (Hcontext "start_date" eq_refl). by left.
Defined.

Lemma equals_trim_asymmetry_witness :
  ∃ sm_row sm_cell,
    Demo.evaluate Demo.table [Demo.rule "row" "Status" Demo.equals_active Demo.bold]
    = Ok sm_row
    ∧ Demo.evaluate Demo.table [Demo.rule "cell" "Status" Demo.equals_active Demo.red]
      = Ok sm_cell
    ∧ rows sm_row !! 1%nat = Some Demo.bold
    ∧ cells sm_cell !! (2%nat, 1%nat) = None.
Proof.
  destruct (equals_trim_asymmetry Demo.lib Demo.env Demo.table "Status" 1 (VStr "Active")
              (Demo.rule "row" "Status" Demo.equals_active Demo.bold)
              (Demo.rule "cell" "Status" Demo.equals_active Demo.red)
              Demo.equals_active Demo.equals_active Demo.bold Demo.red)
    as (sm_row & sm_cell & Hrow & Hcell & Hall).
  - discriminate.
  - reflexivity.
  - eexists. repeat split; reflexivity.
  - eexists. repeat split; reflexivity.
  - reflexivity.
  - reflexivity.
  - reflexivity.
  - reflexivity.
  - exists sm_row, sm_cell. split; [exact Hrow |]. split; [exact Hcell |].
    apply (Hall 1%nat [VInt 50; VStr " Active "; VStr "2025-01-20"] eq_refl);
      [reflexivity | discriminate].
Defined.

Lemma skip_policy_witness :
  apply_rule Demo.lib Demo.env Demo.table
    (Demo.rule "cell" "Due" Demo.against_missing_column Demo.red) empty_style_map
  = Ok {| rows := ∅; cells := ∅; warnings := ["Compare column 'Start' not found"] |}
  ∧ apply_rule Demo.lib Demo.env Demo.table
      (Demo.rule "cell" "Owner" Demo.equals_active Demo.red) empty_style_map
    = Ok empty_style_map
  ∧ ∃ sm,
      apply_rule Demo.lib Demo.env Demo.table
        (Demo.rule "cell" "Status" Demo.above_40 Demo.red) empty_style_map = Ok sm
      ∧ warnings sm = []
      ∧ cells sm !! (1%nat, 1%nat) = None.
Proof.
  destruct (skip_policy Demo.lib Demo.env Demo.table empty_style_map)
    as (Hmissing & Hnumeric & Hcompare).
  split; [| split].
  - apply (Hcompare _ "Due" 2%nat Demo.against_missing_column Demo.red).
    + discriminate.
    + reflexivity.
    + eexists. repeat split; reflexivity.
    + reflexivity.
    + right. exists "Start". split; [reflexivity |].
      apply (bool_decide_unpack _). vm_compute. reflexivity.
  - apply (Hmissing _ "Owner"); [reflexivity |].
    apply (bool_decide_unpack _). vm_compute. reflexivity.
  - destruct (Hnumeric (Demo.rule "cell" "Status" Demo.above_40 Demo.red) "Status" 1%nat
                Demo.above_40 Demo.red)
      as (sm & Hsm & _ & Hwarn & Hcells);
      [discriminate | reflexivity | eexists; repeat split; reflexivity | reflexivity |].
    exists sm. split; [exact Hsm |]. split; [exact Hwarn |].
    apply (Hcells 0%nat [VInt 10; VStr "Active"; VStr "2025-01-10"]); reflexivity.
Defined.

Lemma categorical_scale_witness :
  ∃ sm,
    apply_rule Demo.lib Demo.env Demo.table
      (Demo.rule "cell" "Status" Demo.status_colors Demo.red) empty_style_map = Ok sm
    ∧ cells sm !! (1%nat, 1%nat) = Some (bg_style (VStr "#111111"))
    ∧ cells sm !! (3%nat, 1%nat) = None
    ∧ warnings sm
      = ["'Status' categorical color scale: 2 unmapped values ("
         +:+ join ", " (take 3 (set_order Demo.lib
                                  (unmapped_values Demo.lib Demo.table 1
                                     [("Active", VStr "#111111")])))
         +:+ ")"].
Proof.
  destruct (categorical_scale Demo.lib Demo.env Demo.table empty_style_map
              (Demo.rule "cell" "Status" Demo.status_colors Demo.red) "Status" 1
              Demo.status_colors Demo.red)
    as [Hmapped _].
  - discriminate.
  - reflexivity.
  - eexists. repeat split; reflexivity.
  - reflexivity.
  - reflexivity.
  - destruct (Hmapped [("Active", VStr "#111111")] eq_refl)
      as (sm & Hsm & _ & Hcells & _ & _ & _ & Hwarn & _); [discriminate |].
    exists sm. split; [exact Hsm |]. split; [| split].
    + apply (Hcells 0%nat [VInt 10; VStr "Active"; VStr "2025-01-10"] eq_refl).
    + apply (Hcells 2%nat [VInt 90; VStr "Unknown"; VStr "n/a"] eq_refl).
    + rewrite Hwarn; [reflexivity |].
      apply (bool_decide_unpack _). vm_compute. reflexivity.
Defined.

(** * Further properties of the code *)

(** ** Colours: decoding and encoding *)

Lemma forall_bool_spec (P : bool → bool) : forall_bool P = true → ∀ b, P b = true.
Proof. unfold forall_bool. intros [H1 H2]%andb_prop []; done. Qed.

Lemma forall_ascii_spec (P : ascii → bool) : forall_ascii P = true → ∀ a, P a = true.
Proof.
  intros H [b0 b1 b2 b3 b4 b5 b6 b7]. unfold forall_ascii in H.
  pose proof (forall_bool_spec _ H b0) as H0.
  pose proof (forall_bool_spec _ H0 b1) as H1.
  pose proof (forall_bool_spec _ H1 b2) as H2.
  pose proof (forall_bool_spec _ H2 b3) as H3.
  pose proof (forall_bool_spec _ H3 b4) as H4.
  pose proof (forall_bool_spec _ H4 b5) as H5.
  pose proof (forall_bool_spec _ H5 b6) as H6.
  exact (forall_bool_spec _ H6 b7).
Qed.

Lemma channel_in_range_0 : channel_in_range EmptyString = true.
Proof. by vm_compute. Qed.

Lemma channel_in_range_1 (a : ascii) : channel_in_range (String a EmptyString) = true.
Proof.
  revert a. apply forall_ascii_spec. by vm_compute.
Qed.

Lemma channel_in_range_2 (a b : ascii) :
  channel_in_range (String a (String b EmptyString)) = true.
Proof.
  revert b. apply forall_ascii_spec. revert a.
  apply (forall_ascii_spec (fun a => forall_ascii (fun b =>
           channel_in_range (String a (String b EmptyString))))).
  by vm_compute.
Qed.

Lemma hex_pair_ok_all (a b : ascii) : hex_pair_ok a b = true.
Proof.
  revert b. apply forall_ascii_spec. revert a.
  apply (forall_ascii_spec (fun a => forall_ascii (fun b => hex_pair_ok a b))).
  by vm_compute.
Qed.

Lemma byte_ok_all (n : Z) : 0 <= n <= 255 → byte_ok n = true.
Proof.
  intros Hn.
  assert (H : forallb byte_ok (seqZ 0 256) = true) by (by vm_compute).
  rewrite forallb_forall in H. apply H, list_elem_of_In, elem_of_seqZ. lia.
Qed.

Lemma substring_length_le (s : string) (i n : nat) :
  (String.length (substring i n s) <= n)%nat.
Proof.
  revert i n. induction s as [| c s IH]; intros [| i] [| n]; simpl; try lia.
  - specialize (IH 0%nat n). lia.
  - apply (IH i 0%nat).
  - apply (IH i (S n)).
Qed.

Lemma slice_in_range (i : nat) (h : string) : channel_in_range (slice i (i + 2) h) = true.
Proof.
  unfold slice. replace (i + 2 - i)%nat with 2%nat by lia.
  pose proof (substring_length_le h i 2) as Hlen.
  destruct (substring i 2 h) as [| a [| b [| c t]]]; simpl in Hlen.
  - apply channel_in_range_0.
  - apply channel_in_range_1.
  - apply channel_in_range_2.
  - lia.
Qed.

Lemma int16_in_range (i : nat) (h : string) :
  match int16 (slice i (i + 2) h) with
  | Ok n => -15 <= n <= 255
  | Raise e => exn_kind_of e = ValueError
  end.
Proof.
  pose proof (slice_in_range i h) as H. unfold channel_in_range in H.
  destruct (int16 _) as [n | e].
  - apply andb_prop in H as [H1 H2]. lia.
  - by apply bool_decide_eq_true in H.
Qed.

(** X: every channel [hex_to_rgb] returns lies between -15 and 255, and
    the only exception a string can cause is [ValueError].  The slices are
    read by [int(_, 16)], which accepts a sign: ['#-f0000'] decodes to
    [(-15, 0, 0)]. *)
Theorem hex_to_rgb_channel_range (s : string) :
  match hex_to_rgb (VStr s) with
  | Ok (r, g, b) => (-15 <= r <= 255) ∧ (-15 <= g <= 255) ∧ (-15 <= b <= 255)
  | Raise e => exn_kind_of e = ValueError
  end
  ∧ hex_to_rgb (VStr "#-f0000") = Ok (-15, 0, 0).
Proof.
  split; [| by vm_compute].
  unfold hex_to_rgb. set (h := lstrip_char "#" s).
  pose proof (int16_in_range 0 h) as H0.
  pose proof (int16_in_range 2 h) as H2.
  pose proof (int16_in_range 4 h) as H4.
  simpl Nat.add in *.
  destruct (int16 (slice 0 2 h)) as [r | e]; [| done]. simpl.
  destruct (int16 (slice 2 4 h)) as [g | e]; [| done]. simpl.
  destruct (int16 (slice 4 6 h)) as [b | e]; [| done]. simpl.
  done.
Qed.

Lemma int16_raises (t : string) :
  match int16 t with
  | Ok _ => True
  | Raise e => exn_kind_of e = ValueError
  end.
Proof. unfold int16. by destruct (hex_body _). Qed.

Lemma substring_beyond (s : string) (i n : nat) :
  (String.length s <= i)%nat → substring i n s = EmptyString.
Proof.
  revert i n. induction s as [| c s IH]; intros [| i] [| n]; simpl; try done; try lia.
  - intros H. apply IH. lia.
  - intros H. apply IH. lia.
Qed.

(** X: a colour with fewer than five characters after its leading [#]
    cannot be decoded: [hex_to_rgb] raises [ValueError], as it does for the
    three-digit shorthand ['#fff']. *)
Theorem hex_to_rgb_short (s : string) :
  (String.length (lstrip_char "#" s) < 5)%nat →
  raises ValueError (hex_to_rgb (VStr s)) = true.
Proof.
  intros Hlen. unfold hex_to_rgb. set (h := lstrip_char "#" s) in *.
  assert (H4 : slice 4 6 h = EmptyString).
  { unfold slice. apply substring_beyond. lia. }
  rewrite H4.
  pose proof (int16_raises (slice 0 2 h)) as H0.
  pose proof (int16_raises (slice 2 4 h)) as H2.
  destruct (int16 (slice 0 2 h)) as [r | [k m]]; simpl in *.
  - destruct (int16 (slice 2 4 h)) as [g | [k m]]; simpl in *.
    + by vm_compute.
    + subst k. by apply bool_decide_eq_true.
  - subst k. by apply bool_decide_eq_true.
Qed.

Lemma lstrip_char_app (ch : ascii) (s t : string) :
  lstrip_char ch s ≠ EmptyString → lstrip_char ch (s +:+ t) = lstrip_char ch s +:+ t.
Proof.
  induction s as [| c s IH]; simpl; [done |].
  destruct (Ascii.eqb c ch); [apply IH | done].
Qed.

Lemma substring_app (s t : string) (i n : nat) :
  (i + n <= String.length s)%nat → substring i n (s +:+ t) = substring i n s.
Proof.
  revert i n. induction s as [| c s IH]; intros i n; simpl.
  - intros H. assert (i = 0%nat) as -> by lia. assert (n = 0%nat) as -> by lia.
    by destruct t.
  - destruct i as [| i]; destruct n as [| n]; simpl; try done.
    + intros H. f_equal. apply (IH 0%nat n). lia.
    + intros H. apply (IH i 0%nat). lia.
    + intros H. apply (IH i (S n)). lia.
Qed.

(** X: [hex_to_rgb] reads the first six characters after the leading [#]
    and nothing else: what follows them, such as the alpha channel of
    ['#ff000080'], is ignored without an error. *)
Theorem hex_to_rgb_ignores_tail (s t : string) :
  (6 <= String.length (lstrip_char "#" s))%nat →
  hex_to_rgb (VStr (s +:+ t)) = hex_to_rgb (VStr s).
Proof.
  intros Hlen. unfold hex_to_rgb.
  rewrite lstrip_char_app by (intros H; rewrite H in Hlen; simpl in Hlen; lia).
  unfold slice. by rewrite !substring_app by (simpl; lia).
Qed.

(** The decoding of [#] and six characters of which the first is no [#]. *)
Lemma hex_to_rgb_six (a b c d e f : ascii) :
  a ≠ "#"%char →
  hex_to_rgb (VStr (String "#" (String a (String b (String c (String d (String e
                (String f EmptyString))))))))
  = (r <- int16 (String a (String b EmptyString));;
     g <- int16 (String c (String d EmptyString));;
     bl <- int16 (String e (String f EmptyString));;
     Ok (r, g, bl)).
Proof.
  intros Ha. unfold hex_to_rgb.
  set (digits := String a (String b (String c (String d (String e (String f
                   EmptyString)))))).
  assert (Hs : lstrip_char "#" (String "#" digits) = digits).
  { change (lstrip_char "#" (String "#" ?t)) with (lstrip_char "#" t).
    simpl. destruct (Ascii.eqb_spec a "#"%char) as [-> | ?]; done. }
  by rewrite Hs.
Qed.

Lemma is_hex_digit_not_hash (a : ascii) : is_hex_digit a = true → a ≠ "#"%char.
Proof. by intros H ->. Qed.

Lemma is_lower_hex_not_hash (a : ascii) : is_lower_hex a = true → a ≠ "#"%char.
Proof. by intros H ->. Qed.

Lemma hex_pair (a b : ascii) :
  is_hex_digit a = true → is_hex_digit b = true →
  ∃ n, int16 (String a (String b EmptyString)) = Ok n
       ∧ 0 <= n <= 255
       ∧ format_02x n = String (lower_char a) (String (lower_char b) EmptyString)
       ∧ is_lower_hex (lower_char a) = true ∧ is_lower_hex (lower_char b) = true.
Proof.
  intros Ha Hb. pose proof (hex_pair_ok_all a b) as H. unfold hex_pair_ok in H.
  rewrite Ha, Hb in H. simpl in H.
  destruct (int16 _) as [n |]; [| done].
  repeat (apply andb_prop in H as [H ?]).
  exists n. repeat split; try done; try lia.
  by apply String.eqb_eq.
Qed.

Lemma byte_pair (n : Z) :
  0 <= n <= 255 →
  ∃ a b, format_02x n = String a (String b EmptyString)
         ∧ is_lower_hex a = true ∧ is_lower_hex b = true
         ∧ int16 (String a (String b EmptyString)) = Ok n.
Proof.
  intros Hn. pose proof (byte_ok_all n Hn) as H. unfold byte_ok in H.
  destruct (format_02x n) as [| a [| b [| ? ?]]]; try done.
  exists a, b. repeat (apply andb_prop in H as [H ?]).
  destruct (int16 _) as [m |]; [| done].
  repeat split; try done. f_equal. lia.
Qed.

Lemma well_formed_color_shape (s : string) :
  well_formed_color s = true →
  ∃ a b c d e f,
    s = String "#" (String a (String b (String c (String d (String e (String f EmptyString))))))
    ∧ is_hex_digit a = true ∧ is_hex_digit b = true ∧ is_hex_digit c = true
    ∧ is_hex_digit d = true ∧ is_hex_digit e = true ∧ is_hex_digit f = true.
Proof.
  destruct s as [| h s]; [discriminate |].
  destruct h as [[] [] [] [] [] [] [] []]; try discriminate.
  destruct s as [| a [| b [| c [| d [| e [| f [| ? ?]]]]]]]; try discriminate.
  simpl. intros H. repeat (apply andb_prop in H as [H ?]).
  by exists a, b, c, d, e, f.
Qed.

(** The decoding of a well-formed colour, with its lower-case form. *)
Lemma well_formed_color_decodes (s : string) :
  well_formed_color s = true →
  ∃ r g b, hex_to_rgb (VStr s) = Ok (r, g, b)
           ∧ 0 <= r <= 255 ∧ 0 <= g <= 255 ∧ 0 <= b <= 255
           ∧ "#" +:+ format_02x r +:+ format_02x g +:+ format_02x b = lower s
           ∧ canonical_color (lower s) = true.
Proof.
  intros (a & b & c & d & e & f & -> & Ha & Hb & Hc & Hd & He & Hf)%well_formed_color_shape.
  destruct (hex_pair a b Ha Hb) as (r & Hr & Hrr & Hfr & Hla & Hlb).
  destruct (hex_pair c d Hc Hd) as (g & Hg & Hgr & Hfg & Hlc & Hld).
  destruct (hex_pair e f He Hf) as (bl & Hbl & Hbr & Hfb & Hle & Hlf).
  exists r, g, bl. rewrite hex_to_rgb_six by (by apply is_hex_digit_not_hash).
  rewrite Hr, Hg, Hbl, Hfr, Hfg, Hfb. simpl.
  rewrite Hla, Hlb, Hlc, Hld, Hle, Hlf. done.
Qed.

Lemma trunc_floor (q : Q) : (0 <= q)%Q → trunc q = Qfloor q.
Proof.
  intros H. unfold trunc. apply Qle_bool_iff in H.
  change (inject_Z 0) with 0%Q. by rewrite H.
Qed.


(** The encoding of three channels within a byte, and its decoding. *)
Lemma encode_decode (r g b : Z) :
  0 <= r <= 255 → 0 <= g <= 255 → 0 <= b <= 255 →
  let s := "#" +:+ format_02x r +:+ format_02x g +:+ format_02x b in
  canonical_color s = true ∧ hex_to_rgb (VStr s) = Ok (r, g, b).
Proof.
  intros Hr Hg Hb.
  destruct (byte_pair r Hr) as (a1 & a2 & -> & Ha1 & Ha2 & Hi1).
  destruct (byte_pair g Hg) as (c1 & c2 & -> & Hc1 & Hc2 & Hi2).
  destruct (byte_pair b Hb) as (e1 & e2 & -> & He1 & He2 & Hi3).
  split.
  - simpl. by rewrite Ha1, Ha2, Hc1, Hc2, He1, He2.
  - change (hex_to_rgb (VStr (String "#" (String a1 (String a2 (String c1 (String c2
              (String e1 (String e2 EmptyString)))))))) = Ok (r, g, b)).
    rewrite hex_to_rgb_six by (by apply is_lower_hex_not_hash).
    by rewrite Hi1, Hi2, Hi3.
Qed.

(** X: encoding then decoding.  Three channels in the range of a byte,
    given as floats, are written by [rgb_to_hex] as a colour in canonical
    form ([#] and six lower-case digits), and [hex_to_rgb] reads back the
    channels truncated to integers. *)
Theorem rgb_hex_round_trip (x y z : Q) :
  (0 <= x)%Q ∧ (x < 256)%Q → (0 <= y)%Q ∧ (y < 256)%Q → (0 <= z)%Q ∧ (z < 256)%Q →
  ∃ s, rgb_to_hex (Num x, Num y, Num z) = Ok s
       ∧ canonical_color s = true
       ∧ hex_to_rgb (VStr s) = Ok (trunc x, trunc y, trunc z).
Proof.
  assert (Hbyte : ∀ q, (0 <= q)%Q ∧ (q < 256)%Q → 0 <= trunc q <= 255).
  { intros q [H0 H1]. rewrite trunc_floor by done. split.
    - rewrite <- (Qfloor_Z 0). by apply Qfloor_resp_le.
    - assert (Qfloor q < 256); [| lia].
      rewrite Zlt_Qlt. apply Qle_lt_trans with q; [apply Qfloor_le | done]. }
  intros Hx%Hbyte Hy%Hbyte Hz%Hbyte. eexists. split; [reflexivity |].
  apply (encode_decode _ _ _ Hx Hy Hz).
Qed.

(** X: decoding then encoding.  A well-formed colour ([#] and six
    hexadecimal digits of either case) decodes to three bytes, and
    [rgb_to_hex] of them is the colour in lower case: the round trip
    normalises the case and changes nothing else. *)
Theorem hex_rgb_round_trip (s : string) :
  well_formed_color s = true →
  ∃ r g b, hex_to_rgb (VStr s) = Ok (r, g, b)
           ∧ 0 <= r <= 255 ∧ 0 <= g <= 255 ∧ 0 <= b <= 255
           ∧ rgb_to_hex (Num (inject_Z r), Num (inject_Z g), Num (inject_Z b))
             = Ok (lower s).
Proof.
  intros (r & g & b & Hd & Hr & Hg & Hb & Hl & _)%well_formed_color_decodes.
  exists r, g, b. repeat split; try done; try lia.
  unfold rgb_to_hex, int_of_num. rewrite !trunc_inject_Z. simpl. by rewrite <- Hl.
Qed.

(** ** Blends stay within their end colours *)












(** ** A NaN value *)

Lemma rgb_to_hex_nan (y z : num) :
  rgb_to_hex (NaN, y, z) = raise ValueError "cannot convert float NaN to integer".
Proof. done. Qed.





(** ** The automatic numeric scale *)


Lemma q_max_ge_init (x : Q) (l : list Q) : (x <= q_max x l)%Q.
Proof.
  unfold q_max. revert x. induction l as [| y l IH]; intros x; simpl; [apply Qle_refl |].
  destruct (Qlt_bool x y) eqn:Hlt; [| apply IH].
  apply Qle_trans with y; [| apply IH].
  unfold Qlt_bool in Hlt. apply negb_true_iff, Qle_bool_false in Hlt.
  by apply Qlt_le_weak.
Qed.


Lemma q_max_ge (x : Q) (l : list Q) (y : Q) : y ∈ x :: l → (y <= q_max x l)%Q.
Proof.
  revert x. induction l as [| z l IH]; intros x.
  - intros ->%list_elem_of_singleton. apply Qle_refl.
  - intros Hy. unfold q_max. simpl. fold (q_max (if Qlt_bool x z then z else x) l).
    destruct (Qlt_bool x z) eqn:Hlt.
    + unfold Qlt_bool in Hlt. apply negb_true_iff, Qle_bool_false in Hlt.
      apply elem_of_cons in Hy as [-> | Hy].
      * apply Qle_trans with z; [by apply Qlt_le_weak | apply q_max_ge_init].
      * by apply IH.
    + unfold Qlt_bool in Hlt. apply negb_false_iff, Qle_bool_iff in Hlt.
      apply elem_of_cons in Hy as [-> | [-> | Hy]%elem_of_cons].
      * apply q_max_ge_init.
      * apply Qle_trans with x; [done | apply q_max_ge_init].
      * apply IH. by right.
Qed.







(** ** [format_value] *)

(** A string that starts like a number: with a digit or a minus sign. *)
Lemma digits_go (x : N) (s : string) :
  (String.length s <= String.length (pretty_N_go x s))%nat
  ∧ ((x = 0)%N ∨ ∃ c rest, pretty_N_go x s = String c rest ∧ is_digit c = true).
Proof.
  revert s. induction (N.lt_wf_0 x) as [x _ IH]; intros s.
  assert (x = 0 ∨ 0 < x)%N as [-> | Hx] by lia.
  - rewrite pretty_N_go_0. split; [done | by left].
  - rewrite pretty_N_go_step by done.
    destruct (IH (x `div` 10)%N (N.div_lt x 10 Hx eq_refl)
                (String (pretty_N_char (x `mod` 10)) s)) as [Hlen Hhead].
    split; [simpl in Hlen; lia |]. right.
    destruct Hhead as [H0 | Hhead]; [| done].
    rewrite H0, pretty_N_go_0. eexists _, _. split; [done |].
    unfold pretty_N_char. by repeat case_match.
Qed.

Lemma pretty_N_numeric (x : N) : starts_numeric (pretty x) = true.
Proof.
  unfold pretty, pretty_N. case_decide as Hx; [done |].
  destruct (digits_go x "") as [_ [H0 | (c & rest & -> & Hc)]]; [done |].
  simpl. by rewrite Hc.
Qed.

Lemma pretty_Z_numeric (z : Z) : starts_numeric (pretty z) = true.
Proof.
  destruct z as [| p | p]; [done | apply (pretty_N_numeric (N.pos p)) | done].
Qed.

Lemma numeric_not_missing (s : string) :
  starts_numeric s = true → existsb (String.eqb s) missing_text = false.
Proof.
  destruct s as [| c s]; [done |]. simpl.
  destruct (Ascii.eqb_spec c "N") as [-> | _]; [done |].
  destruct (Ascii.eqb_spec c "n") as [-> | _]; [done |]. done.
Qed.

Lemma group_digits_head (s : string) : starts_numeric (group_digits s) = starts_numeric s.
Proof. by destruct s. Qed.

Lemma format_fixed_numeric (g : bool) (p : nat) (q : Q) :
  starts_numeric (format_fixed g p (Num q)) = true.
Proof.
  unfold format_fixed. destruct (Qlt_bool q (inject_Z 0)); [done |].
  simpl (EmptyString +:+ _).
  set (ip := pretty _). pose proof (pretty_Z_numeric
    (round_half_even (Qabs q * inject_Z (10 ^ Z.of_nat p)) `div` 10 ^ Z.of_nat p)) as H.
  fold ip in H.
  assert (Hg : starts_numeric (if g then group_digits ip else ip) = true).
  { destruct g; [by rewrite group_digits_head | done]. }
  destruct (if g then group_digits ip else ip) as [| c r]; [done |]. done.
Qed.

Section FormatValueFacts.

Variable L : PyLib.
Variable F : FormatLib.

Lemma or_str_returns (value : pyval) (m : res string) : returns (or_str L value m) = true.
Proof. by destruct m. Qed.

Lemma pd_isna_scalar (value : pyval) :
  (∀ l, value ≠ VList l) → ∃ b, pd_isna F value = Ok b.
Proof. intros H. destruct value; simpl; try by eexists. by destruct (H l). Qed.

(** The plain branch: what [format_value] returns without a format. *)
Lemma format_value_plain (value spec : pyval) :
  truthy spec = false →
  pd_isna F value = Ok false →
  existsb (String.eqb (py_str L value)) missing_text = false →
  format_value L F value spec
  = match value with
    | VInt z => Ok (pretty z)
    | VFloat q =>
        if Qeq_bool q (inject_Z (trunc q)) then Ok (pretty (trunc q))
        else Ok (format_fixed false 2 (Num q))
    | _ => Ok (py_str L value)
    end.
Proof.
  intros Hs Hna Hm.
  assert (Hnone : is_none value = false) by (by destruct value).
  unfold format_value. rewrite Hna. cbn [bind]. rewrite Hm, Hnone, Hs.
  by destruct value.
Qed.

Lemma format_value_missing (value spec : pyval) (na : bool) :
  pd_isna F value = Ok na →
  na || is_none value || existsb (String.eqb (py_str L value)) missing_text = true →
  format_value L F value spec = Ok "".
Proof. intros Hna Hm. unfold format_value. rewrite Hna. cbn [bind]. by rewrite Hm. Qed.

End FormatValueFacts.

(** X: [format_value] raises nothing for a value that is no list and a
    format that is absent, empty or a dict: every conversion that can fail
    sits in a [try] whose handler returns [str(value)].  (Floats are finite
    or NaN here.)  A format that is neither empty nor a dict raises
    [AttributeError] for every value that is not missing. *)
Theorem format_value_never_raises (L : PyLib) (F : FormatLib) (value spec : pyval) :
  (∀ l, value ≠ VList l) →
  (truthy spec = false ∨ ∃ d, spec = VDict d) →
  returns (format_value L F value spec) = true.
Proof.
  intros Hl Hspec. destruct (pd_isna_scalar F value Hl) as [na Hna].
  unfold format_value. rewrite Hna. cbn [bind].
  destruct (na || is_none value || existsb _ _) eqn:Hm; [done |].
  apply orb_false_iff in Hm as [[Hna' Hnone]%orb_false_iff Hm]. subst na.
  destruct (truthy spec) eqn:Ht; simpl.
  - destruct Hspec as [? | [d ->]]; [done |].
    unfold format_date, format_currency, format_percentage, format_number.
    repeat case_match; first [done | apply or_str_returns].
  - destruct value; simpl in *; try done; by case_match.
Qed.

(** X: without a format, [format_value] never shows a placeholder of a
    missing value (['NaT'], ['nan'], ['None']), and formatting its own
    output again changes nothing. *)
Theorem format_value_idempotent (L : PyLib) (F : FormatLib) (value spec : pyval)
    (s : string) :
  (∀ l, value ≠ VList l) →
  truthy spec = false →
  format_value L F value spec = Ok s →
  existsb (String.eqb s) missing_text = false
  ∧ format_value L F (VStr s) spec = Ok s.
Proof.
  intros Hl Hspec Hs. destruct (pd_isna_scalar F value Hl) as [na Hna].
  assert (Hclean : existsb (String.eqb s) missing_text = false).
  { destruct (na || is_none value || existsb (String.eqb (py_str L value)) missing_text)
      eqn:Hm.
    - rewrite (format_value_missing L F value spec na Hna Hm) in Hs. by injection Hs as <-.
    - apply orb_false_iff in Hm as [[Hna' Hnone]%orb_false_iff Hm]. subst na.
      rewrite (format_value_plain L F value spec Hspec Hna Hm) in Hs.
      destruct value; simpl in Hna; try discriminate Hna;
        try (injection Hs as <-; exact Hm).
      + destruct (Qeq_bool _ _); injection Hs as <-; apply numeric_not_missing;
          [apply pretty_Z_numeric | exact (format_fixed_numeric false 2 q)]. }
  split; [done |].
  by rewrite (format_value_plain L F (VStr s) spec Hspec).
Qed.

(** X: without a format an int is printed in decimal, and a float whose
    value is an integer is printed as that integer, without a decimal
    point; any other float is printed with two decimals. *)
Theorem format_value_integral_float (L : PyLib) (F : FormatLib) (q : Q) (z : Z)
    (spec : pyval) :
  truthy spec = false →
  existsb (String.eqb (float_repr L q)) missing_text = false →
  format_value L F (VInt z) spec = Ok (pretty z)
  ∧ ((q == inject_Z z)%Q → format_value L F (VFloat q) spec = Ok (pretty z))
  ∧ ((∀ k, ¬ (q == inject_Z k)%Q) →
     format_value L F (VFloat q) spec = Ok (format_fixed false 2 (Num q))).
Proof.
  intros Hspec Hm. split; [| split].
  - rewrite (format_value_plain L F (VInt z) spec Hspec); [done | done |].
    apply numeric_not_missing, pretty_Z_numeric.
  - intros Hq. rewrite (format_value_plain L F (VFloat q) spec Hspec) by done.
    assert (Ht : trunc q = z) by (by rewrite (trunc_compat _ _ Hq), trunc_inject_Z).
    rewrite Ht. apply Qeq_bool_iff in Hq. by rewrite Hq.
  - intros Hq. rewrite (format_value_plain L F (VFloat q) spec Hspec) by done.
    rewrite Qeq_bool_false; [done | apply Hq].
Qed.


Lemma get_type_truthy (d : list (string * pyval)) (t : string) :
  get d "type" VNone = VStr t → truthy (VDict d) = true.
Proof. by destruct d. Qed.

(** The dispatch of [format_value] on a value that is not missing. *)
Lemma format_value_typed (L : PyLib) (F : FormatLib) (value : pyval)
    (d : list (string * pyval)) :
  truthy (VDict d) = true →
  pd_isna F value = Ok false →
  existsb (String.eqb (py_str L value)) missing_text = false →
  format_value L F value (VDict d)
  = let t := get d "type" VNone in
    if eq_lit t "date" then format_date L F value d
    else if eq_lit t "currency" then format_currency L value d
    else if eq_lit t "percentage" then format_percentage L value d
    else if eq_lit t "number" then format_number L value d
    else Ok (py_str L value).
Proof.
  intros Ht Hna Hm.
  assert (Hnone : is_none value = false) by (by destruct value).
  unfold format_value. rewrite Hna. cbn [bind]. by rewrite Hm, Hnone, Ht.
Qed.

Lemma format_float_invalid (L : PyLib) (g : bool) (dp : pyval) (x : num) :
  parse_precision (py_str L dp) = None → returns (format_float L g dp x) = false.
Proof. intros H. unfold format_float. by rewrite H. Qed.

(** X: a numeric format never alters a cell it cannot format.  With type
    ['currency'], ['percentage'] or ['number'], a value that [float()]
    rejects, or a ['decimal_places'] that is not written in decimal digits
    (such as [2.0], [-1] or [None]), makes [format_value] return
    [str(value)] unchanged; so does a type it does not know. *)
Theorem numeric_format_fallback (L : PyLib) (F : FormatLib) (value : pyval)
    (d : list (string * pyval)) (t : string) :
  pd_isna F value = Ok false →
  existsb (String.eqb (py_str L value)) missing_text = false →
  get d "type" VNone = VStr t →
  (t ∈ ["currency"; "percentage"; "number"] →
   returns (py_float L value) = false
   ∨ (∃ dp, assoc "decimal_places" d = Some dp ∧ parse_precision (py_str L dp) = None) →
   format_value L F value (VDict d) = Ok (py_str L value))
  ∧ (t ∉ ["date"; "currency"; "percentage"; "number"] →
     format_value L F value (VDict d) = Ok (py_str L value)).
Proof.
  intros Hna Hm Ht.
  rewrite (format_value_typed L F value d (get_type_truthy d t Ht) Hna Hm).
  cbn zeta. rewrite Ht. split.
  - intros Hin Hbad.
    assert (Hfall : ∀ g dflt (k : string → res string),
              or_str L value
                (num <- py_float L value;;
                 body <- format_float L g (get d "decimal_places" dflt) num;;
                 k body) = Ok (py_str L value)
              ∨ (returns (py_float L value) = true
                 ∧ ∀ dp, assoc "decimal_places" d = Some dp →
                         parse_precision (py_str L dp) ≠ None)).
    { intros g dflt k. destruct (py_float L value) as [x |] eqn:Hf; [| by left].
      destruct (assoc "decimal_places" d) as [dp |] eqn:Hdp.
      - destruct (parse_precision (py_str L dp)) as [p |] eqn:Hp.
        + right. split; [done |]. intros dp' [= <-]. by rewrite Hp.
        + left. simpl. unfold get. rewrite Hdp. simpl. unfold format_float.
          by rewrite Hp.
      - right. split; [done |]. by intros dp'. }
    assert (Hno : ∀ P : Prop,
              returns (py_float L value) = true
              ∧ (∀ dp, assoc "decimal_places" d = Some dp →
                       parse_precision (py_str L dp) ≠ None) → P).
    { intros P [Hr Hdp]. destruct Hbad as [Hb | (dp & Hd & Hp)]; [congruence |].
      by destruct (Hdp dp Hd). }
    repeat (apply elem_of_cons in Hin as [-> | Hin]); [| | | by apply elem_of_nil in Hin].
    + simpl. unfold format_currency.
      destruct (Hfall true (VInt 2)
                  (fun body => Ok (py_str L (get d "currency_symbol" (VStr "$")) +:+ body)))
        as [H | H]; [done | by apply Hno].
    + simpl. unfold format_percentage.
      destruct (Hfall false (VInt 1) (fun body => Ok (body +:+ "%"))) as [H | H];
        [done | by apply Hno].
    + simpl. unfold format_number.
      destruct (Hfall (truthy (get d "thousands_separator" (VBool false))) (VInt 2)
                  (fun body => Ok body)) as [H | H]; [| by apply Hno].
      rewrite <- H. f_equal. destruct (py_float L value) as [x |]; [| done]. simpl.
      by destruct (format_float _ _ _ _).
  - intros Hnot. rewrite !not_elem_of_cons in Hnot.
    destruct Hnot as (H1 & H2 & H3 & H4 & _). simpl.
    destruct (String.eqb_spec t "date"); [done |].
    destruct (String.eqb_spec t "currency"); [done |].
    destruct (String.eqb_spec t "percentage"); [done |].
    by destruct (String.eqb_spec t "number").
Qed.

(** X: the date format.  A value that does not parse to a date, or whose
    parsing raises, is returned as [str(value)]; and a ['format'] that is
    not one of the six names of the table, for instance a [strftime]
    pattern, is not used: the date is written as [%Y-%m-%d]. *)
Theorem date_format_edges (L : PyLib) (F : FormatLib) (value : pyval)
    (d : list (string * pyval)) :
  pd_isna F value = Ok false →
  existsb (String.eqb (py_str L value)) missing_text = false →
  get d "type" VNone = VStr "date" →
  let dt := match value with
            | VStr _ => to_datetime L value
            | _ => timestamp_ctor F value
            end in
  (dt = Ok None ∨ returns dt = false →
   format_value L F value (VDict d) = Ok (py_str L value))
  ∧ (∀ t name,
       dt = Ok (Some t) →
       get d "format" (VStr "YYYY-MM-DD") = VStr name →
       lookup_format name date_formats = None →
       format_value L F value (VDict d) = or_str L value (strftime F t "%Y-%m-%d")).
Proof.
  intros Hna Hm Ht dt.
  rewrite (format_value_typed L F value d (get_type_truthy d _ Ht) Hna Hm).
  cbn zeta. rewrite Ht. simpl. unfold format_date. fold dt. split.
  - intros [-> | Hr]; [done |]. by destruct dt.
  - intros t name -> Hname Hlook. rewrite Hname. simpl. by rewrite Hlook.
Qed.

(** ** The page background *)




(** X: [load_and_scale_svg] returns [None] exactly when something went
    wrong, and then prints exactly one line: the file does not exist,
    [svg2rlg] gave nothing or raised, scaling raised, or the drawing has
    width or height zero, which is a [ZeroDivisionError] caught by the
    handler.  On success it prints nothing. *)
Theorem svg_failure_modes {C} (S : SvgLib C) (svg_path : string) :
  let r := load_and_scale_svg S svg_path in
  match r.1 with
  | Some _ => r.2 = []
  | None =>
      (path_exists S svg_path = false ∧ r.2 = [FileNotFound svg_path])
      ∨ (path_exists S svg_path = true ∧ svg2rlg S svg_path = Ok None
         ∧ r.2 = [CouldNotParse svg_path])
      ∨ (path_exists S svg_path = true
         ∧ ∃ e, r.2 = [LoadError e]
                ∧ (svg2rlg S svg_path = Raise e
                   ∨ ∃ drawing, svg2rlg S svg_path = Ok (Some drawing)
                       ∧ (((width drawing == 0)%Q ∨ (height drawing == 0)%Q)
                          ∧ exn_kind_of e = ZeroDivisionError
                          ∨ ∃ s, scale_contents S (contents drawing) s s = Raise e)))
  end
  ∧ (∀ drawing, path_exists S svg_path = true → svg2rlg S svg_path = Ok (Some drawing) →
       (width drawing == 0)%Q ∨ (height drawing == 0)%Q → r.1 = None).
Proof.
  cbn zeta. unfold load_and_scale_svg.
  destruct (path_exists S svg_path) eqn:Hex; simpl; [| split; [by left | done]].
  destruct (svg2rlg S svg_path) as [[drawing |] | e] eqn:Hparse; simpl.
  - assert (Hzero : ∀ q, (q == 0)%Q → Qeq_bool q (inject_Z 0) = true).
    { intros q Hq. by apply Qeq_bool_iff. }
    split.
    + unfold float_div.
      destruct (Qeq_bool (width drawing) (inject_Z 0)) eqn:Hw; simpl.
      { right; right. split; [done |]. eexists. split; [reflexivity |]. right.
        exists drawing. split; [done |]. left. split; [| done]. left.
        by apply Qeq_bool_iff in Hw. }
      destruct (Qeq_bool (height drawing) (inject_Z 0)) eqn:Hh; simpl.
      { right; right. split; [done |]. eexists. split; [reflexivity |]. right.
        exists drawing. split; [done |]. left. split; [| done]. right.
        by apply Qeq_bool_iff in Hh. }
      destruct (scale_contents _ _ _ _) as [c | e] eqn:Hc; simpl; [done |].
      right; right. split; [done |]. exists e. split; [done |]. right.
      exists drawing. split; [done |]. right. by eexists.
    + intros d' _ [= <-] [Hw | Hh]; unfold float_div.
      * by rewrite (Hzero _ Hw).
      * rewrite (Hzero _ Hh). by destruct (Qeq_bool (width drawing) _).
  - split; [| done]. right; left. done.
  - split; [| done]. right; right. split; [done |]. exists e. split; [done |]. by left.
Qed.

(** ** More on the rule evaluator *)

Lemma str_in_empty (hay : string) : str_in "" hay = true.
Proof. by destruct hay. Qed.

Lemma cell_loop_none F col (l : list (nat * list pyval)) sm :
  (∀ i row, F i row = None) → cell_loop F col l sm = sm.
Proof.
  intros HF. revert sm. induction l as [| x l IH]; intros sm; [done |].
  rewrite cell_loop_cons, HF. apply IH.
Qed.

(** X: a [contains] rule of either scope styles a row exactly when the
    lower-cased string form of the value occurs in the lower-cased string
    form of the cell, so the match ignores case on both sides; and a rule
    whose value is missing or the empty string styles every row of the
    table. *)
Theorem contains_matching (L : PyLib) (E : Env) (df : DataFrame) (row_scope : bool)
    (rule : pyval) (name : string) (col : nat) (c : list (string * pyval))
    (style : pyval) :
  name ≠ "" →
  get_loc name (columns df) = Some col →
  rule_has rule (if row_scope then "row" else "cell") name c style →
  get c "type" VNone = VStr "contains" →
  ∃ sm,
    evaluate_formatting_rules L E df [rule] = Ok sm
    ∧ warnings sm = []
    ∧ ∀ (i : nat) (row : list pyval),
        data df !! i = Some row →
        let styled :=
          if row_scope then rows sm !! i = Some style
          else cells sm !! (S i, col) = Some style in
        (styled ↔ str_in (lower (py_str L (get c "value" (VStr ""))))
                    (lower (py_str L (row_cell row col))) = true)
        ∧ (get c "value" (VStr "") = VStr "" → styled).
Proof.
  intros Hne Hcol Hrule Htype. rewrite evaluate_single.
  assert (Hmatch : ∀ row, contains_any L col (get c "value" (VStr "")) style row = Some style
                          ↔ str_in (lower (py_str L (get c "value" (VStr ""))))
                              (lower (py_str L (row_cell row col))) = true).
  { intros row. unfold contains_any. by destruct (str_in _ _). }
  destruct row_scope.
  - rewrite (apply_row_rule L E df _ name col c style) by done.
    unfold row_condition. rewrite Htype. simpl. eexists. split; [reflexivity |].
    rewrite row_contains_loop. split; [apply row_loop_frame |].
    intros i row Hrow. cbn zeta.
    rewrite row_loop_lookup. unfold row_written. rewrite Hrow. simpl.
    rewrite lookup_empty, or_else_None. split; [apply Hmatch |].
    intros Hv. apply Hmatch. rewrite Hv. apply str_in_empty.
  - rewrite (apply_cell_rule L E df _ name col c style) by done.
    unfold cell_condition. rewrite Htype. simpl. eexists. split; [reflexivity |].
    rewrite cell_contains_loop. split; [apply cell_loop_frame |].
    intros i row Hrow. cbn zeta.
    rewrite cell_loop_lookup. unfold cell_written. simpl.
    rewrite decide_True by done. rewrite Hrow. simpl.
    rewrite lookup_empty, or_else_None. split; [apply Hmatch |].
    intros Hv. apply Hmatch. rewrite Hv. apply str_in_empty.
Qed.

(** X: a [numeric] rule that cannot match does nothing and says nothing.
    When the threshold is not a number (a string such as ['40'], [None], a
    list) or the operator is not one of the five known ones, the rule
    leaves the style map exactly as it was, warnings included: the
    [TypeError] of the comparison is swallowed row by row.  A cell that is
    NaN is never styled by a numeric rule either. *)
Theorem numeric_rule_inert (L : PyLib) (E : Env) (df : DataFrame) (sm : StyleMap)
    (rule : pyval) (name : string) (col : nat) (c : list (string * pyval))
    (style : pyval) :
  name ≠ "" →
  get_loc name (columns df) = Some col →
  rule_has rule "cell" name c style →
  get c "type" VNone = VStr "numeric" →
  let op := get c "operator" (VStr ">") in
  let thr := get c "value" (VInt 0) in
  (as_num thr = None
   ∨ (∀ o, o ∈ [">"; ">="; "<"; "<="; "=="] → eq_lit op o = false) →
   apply_rule L E df rule sm = Ok sm)
  ∧ ∃ sm', apply_rule L E df rule sm = Ok sm'
           ∧ ∀ (i : nat) (row : list pyval),
               data df !! i = Some row →
               py_float L (row_cell row col) = Ok NaN →
               cells sm' !! (S i, col) = cells sm !! (S i, col).
Proof.
  intros Hne Hcol Hrule Htype op thr.
  rewrite (apply_cell_rule L E df _ name col c style) by done.
  unfold cell_condition. rewrite Htype. simpl. rewrite cell_numeric_loop. split.
  - intros Hbad. f_equal. apply cell_loop_none. intros _ row.
    unfold numeric_cell. fold op thr.
    destruct (py_float L (row_cell row col)) as [x |]; [| done]. simpl.
    destruct Hbad as [Hthr | Hop].
    + unfold numeric_match, num_gt, num_ge, num_lt, num_le, num_eq. rewrite Hthr.
      by repeat case_match.
    + unfold numeric_match.
      rewrite (Hop ">"), (Hop ">="), (Hop "<"), (Hop "<="), (Hop "==") by set_solver.
      done.
  - eexists. split; [reflexivity |]. intros i row Hrow Hnan.
    rewrite cell_loop_lookup. unfold cell_written. simpl.
    rewrite decide_True by done. rewrite Hrow. simpl.
    unfold numeric_cell. rewrite Hnan. simpl.
    unfold numeric_match, num_gt, num_ge, num_lt, num_le, num_eq.
    destruct (as_num (get c "value" (VInt 0))) as [y |]; by repeat case_match.
Qed.


Lemma enumerate_from_snd {A} (l : list A) (n : nat) : (enumerate_from n l).*2 = l.
Proof.
  revert n. induction l as [| x l IH]; intros n; simpl; [done |]. by rewrite IH.
Qed.

Lemma date_compare_loop_count L df col op target_date write sm :
  (date_compare_loop L df col op target_date write sm).2
  = length (unparseable_rows L df col).
Proof.
  unfold date_compare_loop, unparseable_rows.
  rewrite <- (enumerate_from_snd (data df) 0). fold (iterrows df).
  assert (H : ∀ (l : list (nat * list pyval)) st,
            (fold_left
               (fun (st : StyleMap * nat) (ir : nat * list pyval) =>
                  match to_datetime L (row_cell ir.2 col) with
                  | Ok (Some cell_date) =>
                      if op_match op Z.ltb Z.eqb (ts_day cell_date) target_date
                      then (write st.1 ir.1, st.2)
                      else st
                  | _ => (st.1, S st.2)
                  end) l st).2
            = (st.2 + length (List.filter (date_unreadable L col) l.*2))%nat).
  { induction l as [| [i row] l IH]; intros st; [simpl; lia |].
    cbn [fold_left]. rewrite IH, fmap_cons. cbn [List.filter snd].
    unfold date_unreadable at 2.
    destruct (to_datetime L (row_cell row col)) as [[t |] |];
      [destruct (op_match _ _ _ _ _) | |]; cbn [fst snd length]; lia. }
  by rewrite H.
Qed.

(** X: the warning of a [date_compare] rule counts exactly the rows it
    could not read.  Once the comparison date is resolved, the rule appends
    no warning when every cell of the column parses as a date, and
    otherwise exactly one, whose number is the number of rows whose cell
    does not parse or whose parsing raises. *)
Theorem date_compare_failures (L : PyLib) (E : Env) (df : DataFrame) (sm : StyleMap)
    (row_scope : bool) (rule : pyval) (name : string) (col : nat)
    (c : list (string * pyval)) (style : pyval) (target_date : Z) :
  name ≠ "" →
  get_loc name (columns df) = Some col →
  rule_has rule (if row_scope then "row" else "cell") name c style →
  get c "type" VNone = VStr "date_compare" →
  resolve_target_date L E (if row_scope then " in context" else "") c
  = Ok (Target target_date) →
  let n := length (unparseable_rows L df col) in
  ∃ sm',
    apply_rule L E df rule sm = Ok sm'
    ∧ warnings sm'
      = warnings sm
        ++ (if (n =? 0)%nat then []
            else if row_scope
                 then ["date_compare on '" +:+ name +:+ "': " +:+ pretty n
                       +:+ " rows unparseable"]
                 else ["'" +:+ name +:+ "' date comparison: " +:+ pretty n
                       +:+ " invalid dates"]).
Proof.
  intros Hne Hcol Hrule Htype Hres n. destruct row_scope.
  - rewrite (apply_row_rule L E df _ name col c style) by done.
    unfold row_condition. rewrite Htype. simpl. unfold row_date_compare.
    rewrite Hres. simpl.
    pose proof (date_compare_loop_count L df col (get c "operator" (VStr ">")) target_date
                  (fun sm i => set_row sm i style) sm) as Hcount.
    pose proof (date_compare_loop_rows L df col (get c "operator" (VStr ">")) target_date
                  style sm) as Hrows.
    destruct (date_compare_loop _ _ _ _ _ _ _) as [sm1 k]. simpl in *. subst k sm1.
    fold n. destruct (n =? 0)%nat; eexists; (split; [reflexivity |]); simpl;
      rewrite (proj2 (row_loop_frame _ _ _)); by rewrite ?app_nil_r.
  - rewrite (apply_cell_rule L E df _ name col c style) by done.
    unfold cell_condition. rewrite Htype. simpl. unfold cell_date_compare.
    rewrite Hres. simpl.
    pose proof (date_compare_loop_count L df col (get c "operator" (VStr ">")) target_date
                  (fun sm i => set_cell sm (i + 1, col)%nat style) sm) as Hcount.
    pose proof (date_compare_loop_cells L df col (get c "operator" (VStr ">")) target_date
                  style sm) as Hcells.
    destruct (date_compare_loop _ _ _ _ _ _ _) as [sm1 k]. simpl in *. subst k sm1.
    fold n. destruct (n =? 0)%nat; eexists; (split; [reflexivity |]); simpl;
      rewrite (proj2 (cell_loop_frame _ _ _ _)); by rewrite ?app_nil_r.
Qed.

(** ** The style commands of a rendered table *)

Lemma extend_with_elem {A B} (g : A → res (list B)) (xs : list A) (acc r : list B) :
  extend_with g xs acc = Ok r →
  ∃ tail, r = acc ++ tail
          ∧ (∀ y, y ∈ tail ↔ ∃ x l, x ∈ xs ∧ g x = Ok l ∧ y ∈ l)
          ∧ (∀ x, x ∈ xs → ∃ l, g x = Ok l).
Proof.
  unfold extend_with. revert acc. induction xs as [| x xs IH]; intros acc; simpl.
  - intros [= <-]. exists []. rewrite app_nil_r. split; [done |]. split.
    + intros y. split; [by intros ?%elem_of_nil |].
      intros (x & l & Hx%elem_of_nil & _). done.
    + intros x Hx%elem_of_nil. done.
  - destruct (g x) as [l |] eqn:Hg; simpl; [| done].
    intros (tail & -> & Htail & Hall)%IH. exists (l ++ tail).
    rewrite app_assoc. split; [done |]. split.
    + intros y. rewrite elem_of_app, Htail. split.
      * intros [Hy | (x' & l' & Hx' & Hg' & Hy)].
        -- exists x, l. split; [by left | done].
        -- exists x', l'. split; [by right | done].
      * intros (x' & l' & [-> | Hx']%elem_of_cons & Hg' & Hy).
        -- left. congruence.
        -- right. by exists x', l'.
    + intros x' [-> | Hx']%elem_of_cons; [by exists l | by apply Hall].
Qed.

Section Background.

Context {K : Type}.
Variables ncols nrows col row : nat.

Let shown (cmds : list (style_command K)) := background_at cmds ncols nrows col row.
Let paint (cmd : style_command K) := paints ncols nrows col row cmd.

Lemma background_at_fold (cmds : list (style_command K)) (s : option K) :
  fold_left (fun shown cmd => or_else (paints ncols nrows col row cmd) shown) cmds s
  = or_else (shown cmds) s.
Proof.
  unfold shown, background_at. revert s. induction cmds as [| cmd cmds IH]; intros s; [done |].
  simpl. rewrite IH. rewrite (IH (or_else _ None)).
  destruct (fold_left _ cmds None); [done |]. simpl. by destruct (paints _ _ _ _ _).
Qed.

Lemma background_at_app (a b : list (style_command K)) :
  shown (a ++ b) = or_else (shown b) (shown a).
Proof.
  unfold shown at 1. unfold background_at. rewrite fold_left_app.
  apply background_at_fold.
Qed.

Lemma background_at_none (cmds : list (style_command K)) :
  (∀ cmd, cmd ∈ cmds → paint cmd = None) → shown cmds = None.
Proof.
  induction cmds as [| cmd cmds IH]; intros H; [done |].
  change (cmd :: cmds) with ([cmd] ++ cmds). rewrite background_at_app.
  rewrite IH by (intros c Hc; apply H; by right).
  unfold shown, background_at. simpl. fold (paint cmd). rewrite H; [done | by left].
Qed.

Lemma classic_paint (cmds : list (style_command K)) :
  (∀ cmd, cmd ∈ cmds → paint cmd = None) ∨ (∃ cmd k, cmd ∈ cmds ∧ paint cmd = Some k).
Proof.
  induction cmds as [| cmd cmds [IH | (c & k & Hc & Hp)]].
  - left. by intros cmd ?%elem_of_nil.
  - destruct (paint cmd) as [k |] eqn:Hp.
    + right. exists cmd, k. split; [by left | done].
    + left. by intros c [-> | Hc]%elem_of_cons; [| apply IH].
  - right. exists c, k. split; [by right | done].
Qed.

Lemma background_at_some (cmds : list (style_command K)) (k : K) :
  (∃ cmd, cmd ∈ cmds ∧ paint cmd = Some k) →
  (∀ cmd k', cmd ∈ cmds → paint cmd = Some k' → k' = k) →
  shown cmds = Some k.
Proof.
  induction cmds as [| cmd cmds IH]; intros (c & Hc & Hp) Hall.
  - by apply elem_of_nil in Hc.
  - change (cmd :: cmds) with ([cmd] ++ cmds). rewrite background_at_app.
    destruct (classic_paint cmds) as [Hnone | (c' & k' & Hc' & Hp')].
    + rewrite (background_at_none cmds Hnone). simpl.
      unfold shown, background_at. simpl. fold (paint cmd).
      apply elem_of_cons in Hc as [-> | Hc]; [by rewrite Hp |].
      rewrite (Hnone c Hc) in Hp. done.
    + assert (k' = k) as -> by (eapply Hall; [by right | done]).
      rewrite IH; [done | by exists c' |].
      intros c2 k2 Hc2. apply Hall. by right.
Qed.

End Background.


Lemma resolve_index_nat (i n : nat) : resolve_index (Z.of_nat i) n = Z.of_nat i.
Proof. unfold resolve_index. destruct (Z.ltb_spec (Z.of_nat i) 0); [lia | done]. Qed.

Lemma resolve_index_last (n : nat) : resolve_index (-1) n = Z.of_nat n - 1.
Proof. unfold resolve_index. simpl. lia. Qed.

(** What a [BACKGROUND] command over a whole row, or on one cell, paints. *)
Lemma paints_row {K} (ncols nrows col row i : nat) (k : K) :
  (col < ncols)%nat →
  paints ncols nrows col row
    (Command "BACKGROUND" (0, Z.of_nat i) (-1, Z.of_nat i) [ArgColor k])
  = if decide (i = row) then Some k else None.
Proof.
  intros Hcol. unfold paints, covers. simpl.
  rewrite resolve_index_last, !resolve_index_nat. change (resolve_index 0 ncols) with 0.
  case_decide as Hi.
  - subst i. by rewrite !(proj2 (Z.leb_le _ _)) by lia.
  - destruct (Z.leb_spec (Z.of_nat i) (Z.of_nat row));
      destruct (Z.leb_spec (Z.of_nat row) (Z.of_nat i)); try lia;
      by rewrite ?andb_false_r.
Qed.

Lemma paints_cell {K} (ncols nrows col row c r : nat) (k : K) :
  paints ncols nrows col row
    (Command "BACKGROUND" (Z.of_nat c, Z.of_nat r) (Z.of_nat c, Z.of_nat r) [ArgColor k])
  = if decide ((r, c) = (row, col)) then Some k else None.
Proof.
  unfold paints, covers. simpl. rewrite !resolve_index_nat.
  case_decide as Hi.
  - injection Hi as -> ->. by rewrite !(proj2 (Z.leb_le _ _)) by lia.
  - destruct (Z.leb_spec (Z.of_nat c) (Z.of_nat col));
      destruct (Z.leb_spec (Z.of_nat col) (Z.of_nat c));
      destruct (Z.leb_spec (Z.of_nat r) (Z.of_nat row));
      destruct (Z.leb_spec (Z.of_nat row) (Z.of_nat r)); simpl; try done.
    exfalso. apply Hi. f_equal; lia.
Qed.

(** The commands [bg_command] returns. *)
Lemma bg_command_cases {K} (R : RenderLib K) (start stop : Z * Z) (style : pyval)
    (l : list (style_command K)) :
  bg_command R start stop style = Ok l →
  (style_bg (Some style) = None ∧ l = [])
  ∨ ∃ bg k, style_bg (Some style) = Some bg ∧ HexColor R bg = Ok k
            ∧ l = [Command "BACKGROUND" start stop [ArgColor k]].
Proof.
  unfold bg_command, style_bg, background.
  destruct (color_map_lookup style "bg_color") as [[bg |] |]; simpl; [| | done].
  - destruct (HexColor R bg) as [k |] eqn:Hk; simpl; [| done]. intros [= <-].
    right. by exists bg, k.
  - intros [= <-]. by left.
Qed.

Lemma elem_of_rows_items {K} (R : RenderLib K) (m : gmap nat pyval) (i : nat) (st : pyval) :
  (i, st) ∈ rows_items R m ↔ m !! i = Some st.
Proof. rewrite (rows_items_perm K R m). apply elem_of_map_to_list. Qed.

Lemma elem_of_cells_items {K} (R : RenderLib K) (m : gmap (nat * nat) pyval)
    (key : nat * nat) (st : pyval) :
  (key, st) ∈ cells_items R m ↔ m !! key = Some st.
Proof. rewrite (cells_items_perm K R m). apply elem_of_map_to_list. Qed.

Lemma paints_header {K} (ncols nrows col row : nat) (k : K) :
  (col < ncols)%nat →
  paints ncols nrows col row (Command "BACKGROUND" (0, 0) (-1, 0) [ArgColor k])
  = if decide (0%nat = row) then Some k else None.
Proof. intros Hcol. exact (paints_row ncols nrows col row 0 k Hcol). Qed.

Lemma header_commands_shown {K} (R : RenderLib K) (ncols nrows col row : nat) (hb ht : K) :
  (col < ncols)%nat →
  background_at (header_commands R hb ht) ncols nrows col row
  = if decide (0%nat = row) then Some hb else None.
Proof.
  intros Hcol. unfold background_at, header_commands. cbn [fold_left].
  rewrite paints_header by done. unfold paints. simpl. by case_decide.
Qed.

(** The style list in four blocks: the fixed commands, the stripes, the
    rows and the cells, each with the commands it holds. *)
Lemma table_style_blocks {K} (R : RenderLib K) (nrows : nat) (section_colors : pyval)
    (sm : StyleMap) (cmds : list (style_command K)) :
  table_style R (S nrows) section_colors sm = Ok cmds →
  ∃ hb ht alt rws cls,
    cmds = ((header_commands R hb ht ++ alt) ++ rws) ++ cls
    ∧ (∃ c, py_getitem section_colors "header_bg" = Ok c ∧ HexColor R c = Ok hb)
    ∧ (∀ cmd, cmd ∈ alt ↔
         ∃ i c k, (1 <= i <= nrows)%nat ∧ (i mod 2 =? 0)%nat = true
                  ∧ py_getitem section_colors "row_alt" = Ok c ∧ HexColor R c = Ok k
                  ∧ cmd = Command "BACKGROUND" (0, Z.of_nat i) (-1, Z.of_nat i) [ArgColor k])
    ∧ (∀ i, (1 <= i <= nrows)%nat → (i mod 2 =? 0)%nat = true →
         ∃ c k, py_getitem section_colors "row_alt" = Ok c ∧ HexColor R c = Ok k)
    ∧ (∀ cmd, cmd ∈ rws ↔
         ∃ r st bg k, rows sm !! r = Some st ∧ style_bg (Some st) = Some bg
                      ∧ HexColor R bg = Ok k
                      ∧ cmd = Command "BACKGROUND" (0, Z.of_nat (r + 1))
                                (-1, Z.of_nat (r + 1)) [ArgColor k])
    ∧ (∀ r st bg, rows sm !! r = Some st → style_bg (Some st) = Some bg →
         ∃ k, HexColor R bg = Ok k)
    ∧ (∀ cmd, cmd ∈ cls ↔
         ∃ r c st bg k, cells sm !! (r, c) = Some st ∧ style_bg (Some st) = Some bg
                        ∧ HexColor R bg = Ok k
                        ∧ cmd = Command "BACKGROUND" (Z.of_nat c, Z.of_nat r)
                                  (Z.of_nat c, Z.of_nat r) [ArgColor k])
    ∧ (∀ key st bg, cells sm !! key = Some st → style_bg (Some st) = Some bg →
         ∃ k, HexColor R bg = Ok k).
Proof.
  intros Hstyle. unfold table_style in Hstyle.
  destruct (py_getitem section_colors "header_bg") as [cb |] eqn:Hcb;
    cbn [bind] in Hstyle; [| done].
  destruct (HexColor R cb) as [hb |] eqn:Hhb; cbn [bind] in Hstyle; [| done].
  destruct (c <- py_getitem section_colors "header_text";; HexColor R c) as [ht |];
    cbn [bind] in Hstyle; [| done].
  fold (header_commands R hb ht) in Hstyle.
  match type of Hstyle with
  | context [extend_with ?g (seq 1 _) _] => set (galt := g) in *
  end.
  destruct (extend_with galt (seq 1 (S nrows - 1)) (header_commands R hb ht))
    as [l1 |] eqn:E1; cbn [bind] in Hstyle; [| done].
  match type of Hstyle with
  | context [extend_with ?g (rows_items R _) l1] => set (grow := g) in *
  end.
  destruct (extend_with grow (rows_items R (rows sm)) l1) as [l2 |] eqn:E2;
    cbn [bind] in Hstyle; [| done].
  match type of Hstyle with
  | context [extend_with ?g (cells_items R _) l2] => set (gcell := g) in *
  end.
  apply extend_with_elem in E1 as (alt & -> & Halt & Halt_ok).
  apply extend_with_elem in E2 as (rws & -> & Hrws & Hrws_ok).
  apply extend_with_elem in Hstyle as (cls & -> & Hcls & Hcls_ok).
  assert (Hseq : ∀ i, i ∈ seq 1 (S nrows - 1) ↔ (1 <= i <= nrows)%nat).
  { intros i. rewrite list_elem_of_In, in_seq. lia. }
  assert (Hgalt : ∀ i l, galt i = Ok l →
            ((i mod 2 =? 0)%nat = false ∧ l = [])
            ∨ ((i mod 2 =? 0)%nat = true
               ∧ ∃ c k, py_getitem section_colors "row_alt" = Ok c ∧ HexColor R c = Ok k
                        ∧ l = [Command "BACKGROUND" (0, Z.of_nat i) (-1, Z.of_nat i)
                                 [ArgColor k]])).
  { intros i l Hg. unfold galt in Hg. cbv beta in Hg.
    destruct (i mod 2 =? 0)%nat; [right | left; split; [done | by injection Hg]].
    split; [done |]. unfold background in Hg.
    destruct (py_getitem section_colors "row_alt") as [c |]; cbn [bind] in Hg; [| done].
    destruct (HexColor R c) as [k |] eqn:Hk; cbn [bind] in Hg; [| done].
    injection Hg as <-. by exists c, k. }
  exists hb, ht, alt, rws, cls. split; [done |]. split; [by exists cb |].
  split; [| split; [| split; [| split; [| split]]]].
  - intros cmd. rewrite Halt. split.
    + intros (i & l & Hi%Hseq & Hg & Hin).
      destruct (Hgalt i l Hg) as [[_ ->] | (Hev & c & k & Hc & Hk & ->)];
        [by apply elem_of_nil in Hin |].
      apply list_elem_of_singleton in Hin as ->. by exists i, c, k.
    + intros (i & c & k & Hi & Hev & Hc & Hk & ->).
      destruct (Halt_ok i) as [l Hg]; [by apply Hseq |].
      exists i, l. split; [by apply Hseq |]. split; [done |].
      destruct (Hgalt i l Hg) as [[Hev' _] | (_ & c' & k' & Hc' & Hk' & ->)];
        [congruence |].
      assert (c' = c) as -> by congruence. assert (k' = k) as -> by congruence.
      by left.
  - intros i Hi Hev. destruct (Halt_ok i) as [l Hg]; [by apply Hseq |].
    destruct (Hgalt i l Hg) as [[Hev' _] | (_ & c & k & Hc & Hk & _)]; [congruence |].
    by exists c, k.
  - intros cmd. rewrite Hrws. split.
    + intros ([r st] & l & Hitem%elem_of_rows_items & Hg & Hin).
      unfold grow in Hg. simpl in Hg.
      apply bg_command_cases in Hg as [[_ ->] | (bg & k & Hbg & Hk & ->)];
        [by apply elem_of_nil in Hin |].
      apply list_elem_of_singleton in Hin as ->. by exists r, st, bg, k.
    + intros (r & st & bg & k & Hst & Hbg & Hk & ->).
      destruct (Hrws_ok (r, st)) as [l Hg]; [by apply elem_of_rows_items |].
      exists (r, st), l. split; [by apply elem_of_rows_items |]. split; [done |].
      unfold grow in Hg. simpl in Hg.
      apply bg_command_cases in Hg as [[Hno _] | (bg' & k' & Hbg' & Hk' & ->)];
        [congruence |].
      assert (bg' = bg) as -> by congruence. assert (k' = k) as -> by congruence.
      by left.
  - intros r st bg Hst Hbg.
    destruct (Hrws_ok (r, st)) as [l Hg]; [by apply elem_of_rows_items |].
    unfold grow in Hg. simpl in Hg.
    apply bg_command_cases in Hg as [[Hno _] | (bg' & k' & Hbg' & Hk' & _)];
      [congruence |].
    exists k'. congruence.
  - intros cmd. rewrite Hcls. split.
    + intros ([[r c] st] & l & Hitem%elem_of_cells_items & Hg & Hin).
      unfold gcell in Hg. simpl in Hg.
      apply bg_command_cases in Hg as [[_ ->] | (bg & k & Hbg & Hk & ->)];
        [by apply elem_of_nil in Hin |].
      apply list_elem_of_singleton in Hin as ->. by exists r, c, st, bg, k.
    + intros (r & c & st & bg & k & Hst & Hbg & Hk & ->).
      destruct (Hcls_ok (r, c, st)) as [l Hg]; [by apply elem_of_cells_items |].
      exists (r, c, st), l. split; [by apply elem_of_cells_items |]. split; [done |].
      unfold gcell in Hg. simpl in Hg.
      apply bg_command_cases in Hg as [[Hno _] | (bg' & k' & Hbg' & Hk' & ->)];
        [congruence |].
      assert (bg' = bg) as -> by congruence. assert (k' = k) as -> by congruence.
      by left.
  - intros [r c] st bg Hst Hbg.
    destruct (Hcls_ok (r, c, st)) as [l Hg]; [by apply elem_of_cells_items |].
    unfold gcell in Hg. simpl in Hg.
    apply bg_command_cases in Hg as [[Hno _] | (bg' & k' & Hbg' & Hk' & _)];
      [congruence |].
    exists k'. congruence.
Qed.

(** The background shown on a cell of the table, by the blocks. *)
Lemma background_shown {K} (R : RenderLib K) (ncols nrows : nat)
    (section_colors : pyval) (sm : StyleMap) (cmds : list (style_command K))
    (col row : nat) :
  table_style R (S nrows) section_colors sm = Ok cmds →
  (col < ncols)%nat → (row <= nrows)%nat →
  let shown := background_at cmds ncols (S nrows) col row in
  match style_bg (cells sm !! (row, col)) with
  | Some bg => ∃ k, HexColor R bg = Ok k ∧ shown = Some k
  | None =>
      match row with
      | O => ∃ c k, py_getitem section_colors "header_bg" = Ok c
                    ∧ HexColor R c = Ok k ∧ shown = Some k
      | S i =>
          match style_bg (rows sm !! i) with
          | Some bg => ∃ k, HexColor R bg = Ok k ∧ shown = Some k
          | None =>
              if (row mod 2 =? 0)%nat
              then ∃ c k, py_getitem section_colors "row_alt" = Ok c
                          ∧ HexColor R c = Ok k ∧ shown = Some k
              else shown = None
          end
      end
  end.
Proof.
  intros (hb & ht & alt & rws & cls & -> & (cb & Hcb & Hhb) & Halt & Halt_ok & Hrws & Hrws_ok
          & Hcls & Hcls_ok)%table_style_blocks Hcol Hrow shown.
  unfold shown. rewrite !background_at_app.
  (* what each block paints on the cell *)
  assert (Pcls : ∀ cmd k, cmd ∈ cls → paints ncols (S nrows) col row cmd = Some k →
            ∃ st bg, cells sm !! (row, col) = Some st
                     ∧ style_bg (Some st) = Some bg ∧ HexColor R bg = Ok k).
  { intros cmd k (r & c & st & bg & k' & Hst & Hbg & Hk & ->)%Hcls Hp.
    rewrite paints_cell in Hp. case_decide as Hkey; [| done].
    injection Hkey as -> ->. injection Hp as ->. by exists st, bg. }
  assert (Prws : ∀ cmd k, cmd ∈ rws → paints ncols (S nrows) col row cmd = Some k →
            ∃ i st bg, row = S i ∧ rows sm !! i = Some st
                       ∧ style_bg (Some st) = Some bg ∧ HexColor R bg = Ok k).
  { intros cmd k (r & st & bg & k' & Hst & Hbg & Hk & ->)%Hrws Hp.
    rewrite paints_row in Hp by done. case_decide as Hkey; [| done].
    injection Hp as ->. exists r, st, bg. split; [lia | done]. }
  assert (Palt : ∀ cmd k, cmd ∈ alt → paints ncols (S nrows) col row cmd = Some k →
            (1 <= row)%nat ∧ (row mod 2 =? 0)%nat = true
            ∧ ∃ c, py_getitem section_colors "row_alt" = Ok c ∧ HexColor R c = Ok k).
  { intros cmd k (i & c & k' & Hi & Hev & Hc & Hk & ->)%Halt Hp.
    rewrite paints_row in Hp by done. case_decide as Hkey; [| done].
    subst i. injection Hp as ->. split; [lia |]. split; [done |]. by exists c. }
  destruct (style_bg (cells sm !! (row, col))) as [bg |] eqn:Hcell.
  { destruct (cells sm !! (row, col)) as [st |] eqn:Hst; [| done].
    destruct (Hcls_ok (row, col) st bg Hst Hcell) as [k Hk].
    exists k. split; [done |].
    rewrite (background_at_some ncols (S nrows) col row cls k); [done | |].
    - eexists. split; [apply Hcls; by exists row, col, st, bg, k |].
      rewrite paints_cell. by rewrite decide_True.
    - intros cmd k' Hcmd Hp. destruct (Pcls cmd k' Hcmd Hp) as (st' & bg' & ? & ? & ?).
      congruence. }
  rewrite (background_at_none ncols (S nrows) col row cls).
  2:{ intros cmd Hcmd. destruct (paints _ _ _ _ cmd) as [k |] eqn:Hp; [| done].
      destruct (Pcls cmd k Hcmd Hp) as (st' & bg' & Hst' & Hbg' & _).
      rewrite Hst' in Hcell. congruence. }
  cbn [or_else]. destruct row as [| i].
  - (* the header row *)
    rewrite (background_at_none ncols (S nrows) col 0 rws).
    2:{ intros cmd Hcmd. destruct (paints _ _ _ _ cmd) as [k |] eqn:Hp; [| done].
        by destruct (Prws cmd k Hcmd Hp) as (i & ? & ? & ? & _). }
    rewrite (background_at_none ncols (S nrows) col 0 alt).
    2:{ intros cmd Hcmd. destruct (paints _ _ _ _ cmd) as [k |] eqn:Hp; [| done].
        destruct (Palt cmd k Hcmd Hp) as (? & _). lia. }
    cbn [or_else]. exists cb, hb. split; [done |]. split; [done |].
    rewrite header_commands_shown by done. by rewrite decide_True.
  - rewrite header_commands_shown by done. rewrite decide_False by done.
    destruct (style_bg (rows sm !! i)) as [bg |] eqn:Hrb.
    { destruct (rows sm !! i) as [st |] eqn:Hst; [| done].
      destruct (Hrws_ok i st bg Hst Hrb) as [k Hk].
      exists k. split; [done |].
      rewrite (background_at_some ncols (S nrows) col (S i) rws k); [done | |].
      - eexists. split; [apply Hrws; by exists i, st, bg, k |].
        rewrite paints_row by done. rewrite decide_True; [done | lia].
      - intros cmd k' Hcmd Hp.
        destruct (Prws cmd k' Hcmd Hp) as (i' & st' & bg' & [= <-] & ? & ? & ?).
        congruence. }
    rewrite (background_at_none ncols (S nrows) col (S i) rws).
    2:{ intros cmd Hcmd. destruct (paints _ _ _ _ cmd) as [k |] eqn:Hp; [| done].
        destruct (Prws cmd k Hcmd Hp) as (i' & st' & bg' & [= <-] & Hst' & Hbg' & _).
        rewrite Hst' in Hrb. congruence. }
    cbn [or_else]. destruct (S i mod 2 =? 0)%nat eqn:Hev.
    + destruct (Halt_ok (S i)) as (c & k & Hc & Hk); [lia | done |].
      exists c, k. split; [done |]. split; [done |].
      rewrite (background_at_some ncols (S nrows) col (S i) alt k); [done | |].
      * eexists. split; [apply Halt; exists (S i), c, k; repeat split; [lia | lia | done..] |].
        rewrite paints_row by done. by rewrite decide_True.
      * intros cmd k' Hcmd Hp. destruct (Palt cmd k' Hcmd Hp) as (_ & _ & c' & Hc' & Hk').
        congruence.
    + rewrite (background_at_none ncols (S nrows) col (S i) alt); [done |].
      intros cmd Hcmd. destruct (paints _ _ _ _ cmd) as [k |] eqn:Hp; [| done].
      destruct (Palt cmd k Hcmd Hp) as (_ & Hev' & _). congruence.
Qed.


(** X: which background shows in a rendered table.  When
    [render_pdf_table] builds its style list without an exception, the
    background ReportLab paints last on a cell is decided in this order:
    the ['bg_color'] of the cell's own entry in the style map; else, in the
    body, the ['bg_color'] of the entry of its row; else the alternating
    colour ['row_alt'] on every second row of the table and nothing on the
    others.  Cell rules thus override row rules and both override the
    stripes; the header keeps ['header_bg'] unless a cell entry names
    it. *)
Theorem background_precedence {K} (R : RenderLib K) (ncols nrows : nat)
    (section_colors : pyval) (sm : StyleMap) (cmds : list (style_command K))
    (col row : nat) :
  table_style R (S nrows) section_colors sm = Ok cmds →
  (col < ncols)%nat → (row <= nrows)%nat →
  let shown := background_at cmds ncols (S nrows) col row in
  let own := style_bg (cells sm !! (row, col)) in
  let of_row := style_bg (rows sm !! (row - 1)%nat) in
  (∀ bg, own = Some bg → ∃ k, HexColor R bg = Ok k ∧ shown = Some k)
  ∧ (own = None → row = 0%nat →
     ∃ c k, py_getitem section_colors "header_bg" = Ok c ∧ HexColor R c = Ok k
            ∧ shown = Some k)
  ∧ (own = None → (1 <= row)%nat →
     (∀ bg, of_row = Some bg → ∃ k, HexColor R bg = Ok k ∧ shown = Some k)
     ∧ (of_row = None → (row mod 2 =? 0)%nat = true →
        ∃ c k, py_getitem section_colors "row_alt" = Ok c ∧ HexColor R c = Ok k
               ∧ shown = Some k)
     ∧ (of_row = None → (row mod 2 =? 0)%nat = false → shown = None)).
Proof.
  intros Hstyle Hcol Hrow shown own of_row.
  pose proof (background_shown R ncols nrows section_colors sm cmds col row
                Hstyle Hcol Hrow) as H.
  cbn zeta in H. fold shown own in H. split; [| split].
  - intros bg Hown. by rewrite Hown in H.
  - intros Hown ->. by rewrite Hown in H.
  - intros Hown Hpos. rewrite Hown in H. destruct row as [| i]; [lia |].
    unfold of_row. replace (S i - 1)%nat with i by lia.
    destruct (style_bg (rows sm !! i)) as [bg |].
    + split; [| split]; [| done | done]. by intros bg' [= <-].
    + split; [done |]. split; intros _ Hev; by rewrite Hev in H.
Qed.

(** X: the styles of the rule evaluator land where the renderer draws
    them.  For a style map returned by [evaluate_formatting_rules] on the
    table that is rendered, and a style list built without an exception:
    every cell entry with a ['bg_color'] sits on a body cell of the table,
    and that colour is the background shown there; a row entry with a
    ['bg_color'] colours every cell of its row that has no background of
    its own; and no rule touches the header row, which shows
    ['header_bg'] in every column. *)
Theorem evaluator_styles_rendered {K} (L : PyLib) (E : Env) (R : RenderLib K)
    (df : DataFrame) (rules : list pyval) (section_colors : pyval) (sm : StyleMap)
    (cmds : list (style_command K)) :
  evaluate_formatting_rules L E df rules = Ok sm →
  let ncols := length (columns df) in
  let nrows := length (data df) in
  table_style R (S nrows) section_colors sm = Ok cmds →
  let shown col row := background_at cmds ncols (S nrows) col row in
  (∀ row col st bg,
     cells sm !! (row, col) = Some st → style_bg (Some st) = Some bg →
     (1 <= row <= nrows)%nat ∧ (col < ncols)%nat
     ∧ ∃ k, HexColor R bg = Ok k ∧ shown col row = Some k)
  ∧ (∀ i st bg col,
       rows sm !! i = Some st → style_bg (Some st) = Some bg →
       (col < ncols)%nat → style_bg (cells sm !! (S i, col)) = None →
       (i < nrows)%nat ∧ ∃ k, HexColor R bg = Ok k ∧ shown col (S i) = Some k)
  ∧ (∀ col, (col < ncols)%nat →
       ∃ c k, py_getitem section_colors "header_bg" = Ok c ∧ HexColor R c = Ok k
              ∧ shown col 0%nat = Some k).
Proof.
  intros Heval ncols nrows Hstyle shown.
  destruct (evaluate_extends L E df rules sm Heval) as [Hcells Hrows].
  split; [| split].
  - intros row col st bg Hst Hbg.
    destruct (Hcells (row, col) st Hst) as [Hempty | (i & Hi & Hlt & Hc)];
      [simpl in Hempty; by rewrite lookup_empty in Hempty |].
    simpl in Hi, Hc. subst row.
    split; [fold nrows in Hlt; lia |]. split; [done |].
    pose proof (background_shown R ncols nrows section_colors sm cmds col (S i)
                  Hstyle Hc) as H.
    cbn zeta in H. rewrite Hst, Hbg in H. apply H. fold nrows in Hlt. lia.
  - intros i st bg col Hst Hbg Hcol Hnone.
    destruct (Hrows i st Hst) as [Hempty | Hlt]; [simpl in Hempty; by rewrite lookup_empty in Hempty |].
    split; [done |].
    pose proof (background_shown R ncols nrows section_colors sm cmds col (S i)
                  Hstyle Hcol) as H.
    cbn zeta in H. rewrite Hnone, Hst, Hbg in H. apply H. fold nrows in Hlt. lia.
  - intros col Hcol.
    pose proof (background_shown R ncols nrows section_colors sm cmds col 0
                  Hstyle Hcol) as H.
    cbn zeta in H.
    assert (Hnone : cells sm !! (0%nat, col) = None).
    { destruct (cells sm !! (0%nat, col)) as [st |] eqn:Hst; [| done].
      destruct (Hcells (0%nat, col) st Hst) as [Hempty | (i & Hi & _)];
        [simpl in Hempty; by rewrite lookup_empty in Hempty | done]. }
    rewrite Hnone in H. apply H. lia.
Qed.

(** ** The column widths of a rendered table *)

Lemma q_sum_app (l1 l2 : list Q) : (q_sum (l1 ++ l2) == q_sum l1 + q_sum l2)%Q.
Proof.
  induction l1 as [| x l1 IH]; simpl.
  - change (inject_Z 0) with 0%Q. ring.
  - rewrite IH. ring.
Qed.






(** ** The cells of a rendered table *)

Lemma collect_raises {A B} (g : A → res B) (xs : list A) (x : A) (acc : list B) :
  x ∈ xs → returns (g x) = false → returns (collect g xs acc) = false.
Proof.
  unfold collect. revert acc. induction xs as [| y xs IH]; intros acc Hx Hg.
  - by apply elem_of_nil in Hx.
  - simpl. apply elem_of_cons in Hx as [<- | Hx].
    + by destruct (g x).
    + destruct (g y); simpl; [by apply IH | done].
Qed.

Lemma collect_items {A B} (g : A → res B) (xs : list A) (acc out : list B) :
  collect g xs acc = Ok out →
  ∃ ys, out = acc ++ ys ∧ Forall2 (fun x y => g x = Ok y) xs ys.
Proof.
  unfold collect. revert acc. induction xs as [| x xs IH]; intros acc; simpl.
  - intros [= <-]. exists []. by rewrite app_nil_r.
  - destruct (g x) as [y |] eqn:Hy; simpl; [| done].
    intros (ys & -> & Hys)%IH. exists (y :: ys).
    split; [by rewrite <- app_assoc | by constructor].
Qed.

Lemma enumerate_from_lookup {A} (l : list A) (n j : nat) :
  enumerate_from n l !! j = (fun x => ((n + j)%nat, x)) <$> l !! j.
Proof.
  revert n j. induction l as [| x l IH]; intros n [| j]; simpl; try done.
  - by rewrite Nat.add_0_r.
  - rewrite IH. by replace (S n + j)%nat with (n + S j)%nat by lia.
Qed.

Lemma enumerate_from_length {A} (l : list A) (n : nat) :
  length (enumerate_from n l) = length l.
Proof. revert n. induction l as [| x l IH]; intros n; simpl; [done | by rewrite IH]. Qed.

Lemma get_bold_dict (style : pyval) : is_dict style = false → returns (get_bold style) = false.
Proof. by destruct style. Qed.

(** X: the renderer needs every style to be a dict.  The evaluator stores
    the ['style'] of a rule as it is, whatever its type, but the cell loop
    of [render_pdf_table] calls [.get] on it.  So for a style map returned
    by [evaluate_formatting_rules] on the rendered table, one row entry
    that is not a dict makes the loop raise; and so does one cell entry
    that is not a dict, unless the entry of its row makes the whole row
    bold, in which case the cell entry is not looked at. *)
Theorem styles_must_be_dicts {P} (L : PyLib) (E : Env) (F : FormatLib) (G : ParagraphLib P)
    (df : DataFrame) (rules : list pyval) (sm : StyleMap)
    (cell_formats : gmap (nat * nat) pyval) (column_formats : pyval) :
  evaluate_formatting_rules L E df rules = Ok sm →
  Forall (fun row => length row = length (columns df)) (data df) →
  (∀ i st, rows sm !! i = Some st → is_dict st = false →
     returns (table_data L F G df sm cell_formats column_formats) = false)
  ∧ (∀ row col st, cells sm !! (row, col) = Some st → is_dict st = false →
       bold_row sm (row - 1) = false →
       returns (table_data L F G df sm cell_formats column_formats) = false).
Proof.
  intros Heval Hrect.
  destruct (evaluate_extends L E df rules sm Heval) as [Hcells Hrows].
  assert (Hrow : ∀ i row, data df !! i = Some row →
            returns (table_row L F G df sm cell_formats column_formats (i, row)) = false →
            returns (table_data L F G df sm cell_formats column_formats) = false).
  { intros i row Hi Hraise. unfold table_data.
    destruct (collect _ (columns df) []) as [header |]; simpl; [| done].
    apply (collect_raises _ _ (i, row)); [by apply elem_of_iterrows | done]. }
  split.
  - intros i st Hst Hdict.
    destruct (Hrows i st Hst) as [Hempty | Hlt];
      [simpl in Hempty; by rewrite lookup_empty in Hempty |].
    destruct (lookup_lt_is_Some_2 _ _ Hlt) as [row Hi].
    apply (Hrow i row Hi). unfold table_row. rewrite Hst. simpl.
    by destruct st.
  - intros r col st Hst Hdict Hbold.
    destruct (Hcells (r, col) st Hst) as [Hempty | (i & Hr & Hlt & Hcol)];
      [simpl in Hempty; by rewrite lookup_empty in Hempty |].
    simpl in Hr, Hcol, Hbold. subst r.
    replace (S i - 1)%nat with i in Hbold by lia.
    destruct (lookup_lt_is_Some_2 _ _ Hlt) as [row Hi].
    assert (Hlen : length row = length (columns df)).
    { rewrite Forall_forall in Hrect. apply Hrect. by eapply list_elem_of_lookup_2. }
    destruct (lookup_lt_is_Some_2 row col ltac:(lia)) as [v Hv].
    apply (Hrow i row Hi). unfold table_row.
    destruct (get_bold (default (VDict []) (rows sm !! i))) as [use_bold |] eqn:Hub;
      simpl; [| done].
    assert (Hfalse : truthy use_bold = false).
    { unfold bold_row in Hbold. destruct (rows sm !! i) as [[| | | | | | | | d] |];
        simpl in Hub; try done; by injection Hub as <-. }
    apply (collect_raises _ _ (col, v)).
    { apply elem_of_enumerate_from. split; [lia |]. by rewrite Nat.sub_0_r. }
    unfold table_cell. rewrite Hst, Hfalse. simpl.
    destruct (cell_format_spec _ _ _ _ _) as [spec |]; simpl; [| done].
    destruct (format_value L F v spec) as [text |]; simpl; [| done].
    by destruct st.
Qed.

(** X: what each cell of the rendered table holds.  When the cell loop
    of [render_pdf_table] returns, [table_data] is the header row followed
    by one row per row of the table, in order, each with one paragraph per
    cell.  The paragraph of a cell is its value formatted by
    [format_value] with the format of the cell, or with the format of its
    column when the cell has none or a falsy one (an empty dict does not
    switch formatting off).  It is bold when the entry of its row is bold,
    whatever the cell's own entry says, and otherwise when the cell's
    entry is bold. *)
Theorem table_data_cells {P} (L : PyLib) (F : FormatLib) (G : ParagraphLib P)
    (df : DataFrame) (sm : StyleMap) (cell_formats : gmap (nat * nat) pyval)
    (column_formats : pyval) (tbl : list (list P)) :
  table_data L F G df sm cell_formats column_formats = Ok tbl →
  length tbl = S (length (data df))
  ∧ (∃ header, tbl !! 0%nat = Some header
       ∧ Forall2 (fun col p => Paragraph G col header_style = Ok p) (columns df) header)
  ∧ ∀ i row, data df !! i = Some row →
      ∃ ps use_bold,
        tbl !! S i = Some ps ∧ length ps = length row
        ∧ get_bold (default (VDict []) (rows sm !! i)) = Ok use_bold
        ∧ ∀ j v, row !! j = Some v →
            ∃ p spec text (bold : bool),
              ps !! j = Some p
              ∧ cell_format_spec df cell_formats column_formats (S i, j) j = Ok spec
              ∧ (∀ fmt, cell_formats !! (S i, j) = Some fmt → truthy fmt = true → spec = fmt)
              ∧ (truthy (default VNone (cell_formats !! (S i, j))) = false →
                 ∃ col_name, columns df !! j = Some col_name
                             ∧ column_format column_formats col_name = Ok spec)
              ∧ format_value L F v spec = Ok text
              ∧ Paragraph G text (if bold then cell_style_bold else cell_style) = Ok p
              ∧ (truthy use_bold = true → bold = true)
              ∧ (truthy use_bold = false →
                 ∃ b, get_bold (default (VDict []) (cells sm !! (S i, j))) = Ok b
                      ∧ bold = truthy b).
Proof.
  unfold table_data.
  destruct (collect _ (columns df) []) as [header |] eqn:Hheader; simpl; [| done].
  apply collect_items in Hheader as (hs & -> & Hhs). simpl.
  intros (body & -> & Hbody)%collect_items.
  split; [| split].
  - simpl. apply Forall2_length in Hbody. unfold iterrows in Hbody.
    rewrite enumerate_from_length in Hbody. by rewrite <- Hbody.
  - by exists hs.
  - intros i row Hi.
    assert (Hitem : iterrows df !! i = Some (i, row)).
    { unfold iterrows. by rewrite enumerate_from_lookup, Hi. }
    destruct (Forall2_lookup_l _ _ _ _ _ Hbody Hitem) as (ps & Hps & Hrow).
    unfold table_row in Hrow.
    destruct (get_bold (default (VDict []) (rows sm !! i))) as [use_bold |] eqn:Hub;
      simpl in Hrow; [| done].
    apply collect_items in Hrow as (qs & -> & Hqs). simpl.
    exists qs, use_bold. split; [exact Hps |].
    split; [apply Forall2_length in Hqs; by rewrite enumerate_from_length in Hqs |].
    split; [done |]. intros j v Hv.
    assert (Hcell : enumerate_from 0 row !! j = Some (j, v))
      by (by rewrite enumerate_from_lookup, Hv).
    destruct (Forall2_lookup_l _ _ _ _ _ Hqs Hcell) as (p & Hp & Hmk).
    unfold table_cell in Hmk.
    destruct (cell_format_spec df cell_formats column_formats (S i, j) j)
      as [spec |] eqn:Hspec; simpl in Hmk; [| done].
    destruct (format_value L F v spec) as [text |] eqn:Htext; simpl in Hmk; [| done].
    assert (Hfmt : ∀ fmt, cell_formats !! (S i, j) = Some fmt → truthy fmt = true →
                     spec = fmt).
    { intros fmt Hf Ht. unfold cell_format_spec in Hspec. rewrite Hf in Hspec.
      simpl in Hspec. rewrite Ht in Hspec. simpl in Hspec. by injection Hspec as <-. }
    assert (Hcol : truthy (default VNone (cell_formats !! (S i, j))) = false →
                   ∃ col_name, columns df !! j = Some col_name
                               ∧ column_format column_formats col_name = Ok spec).
    { intros Ht. unfold cell_format_spec in Hspec. rewrite Ht in Hspec. simpl in Hspec.
      destruct (columns df !! j) as [col_name |]; [by exists col_name | done]. }
    destruct (truthy use_bold) eqn:Hb; simpl in Hmk.
    + exists p, spec, text, true. by repeat split.
    + destruct (get_bold (default (VDict []) (cells sm !! (S i, j)))) as [b |] eqn:Hcb;
        simpl in Hmk; [| done].
      exists p, spec, text, (truthy b). repeat split; try done. by exists b.
Qed.

(** ** Examples of the properties above *)

Lemma hex_to_rgb_short_witness : raises ValueError (hex_to_rgb (VStr "#fff")) = true.
Proof. apply hex_to_rgb_short. simpl. lia. Defined.

Lemma hex_to_rgb_ignores_tail_witness :
  hex_to_rgb (VStr "#ff000080") = Ok (255, 0, 0).
Proof.
  etransitivity; [apply (hex_to_rgb_ignores_tail "#ff0000" "80"); simpl; lia |].
  reflexivity.
Defined.

Lemma rgb_hex_round_trip_witness :
  ∃ s, rgb_to_hex (Num 255, Num (1 # 2), Num (33 # 2)) = Ok s
       ∧ canonical_color s = true
       ∧ hex_to_rgb (VStr s) = Ok (255, 0, 16).
Proof.
  apply (rgb_hex_round_trip 255 (1 # 2) (33 # 2)); split;
    first [reflexivity | vm_compute; discriminate].
Defined.

Lemma hex_rgb_round_trip_witness :
  ∃ r g b, hex_to_rgb (VStr "#FF8C00") = Ok (r, g, b)
           ∧ 0 <= r <= 255 ∧ 0 <= g <= 255 ∧ 0 <= b <= 255
           ∧ rgb_to_hex (Num (inject_Z r), Num (inject_Z g), Num (inject_Z b))
             = Ok "#ff8c00".
Proof. apply (hex_rgb_round_trip "#FF8C00"). reflexivity. Defined.





Lemma format_value_never_raises_witness :
  returns (DemoFormat.format (VFloat (5 # 2)) (VDict [("type", VStr "currency")])) = true.
Proof.
  apply format_value_never_raises; [discriminate | right; by eexists].
Defined.

Lemma format_value_idempotent_witness :
  existsb (String.eqb "2.50") missing_text = false
  ∧ DemoFormat.format (VStr "2.50") VNone = Ok "2.50".
Proof.
  apply (format_value_idempotent Demo.lib DemoFormat.lib (VFloat (5 # 2)) VNone "2.50");
    [discriminate | reflexivity | vm_compute; reflexivity].
Defined.

Lemma format_value_integral_float_witness :
  DemoFormat.format (VInt 3) VNone = Ok "3"
  ∧ DemoFormat.format (VFloat 3) VNone = Ok "3".
Proof.
  destruct (format_value_integral_float Demo.lib DemoFormat.lib 3 3 VNone)
    as (Hint & Hfloat & _); [reflexivity | reflexivity |].
  split; [exact Hint | by apply Hfloat].
Defined.

Lemma numeric_format_fallback_witness :
  DemoFormat.format (VStr "n/a") (VDict [("type", VStr "number")]) = Ok "n/a"
  ∧ DemoFormat.format (VInt 5)
      (VDict [("type", VStr "currency"); ("decimal_places", VFloat 2)]) = Ok "5"
  ∧ DemoFormat.format (VInt 5) (VDict [("type", VStr "text")]) = Ok "5".
Proof.
  split; [| split].
  - refine (proj1 (numeric_format_fallback Demo.lib DemoFormat.lib (VStr "n/a")
                     [("type", VStr "number")] "number" _ _ _) _ _);
      [reflexivity | reflexivity | reflexivity | set_solver | by left].
  - refine (proj1 (numeric_format_fallback Demo.lib DemoFormat.lib (VInt 5)
                     [("type", VStr "currency"); ("decimal_places", VFloat 2)]
                     "currency" _ _ _) _ _);
      [reflexivity | reflexivity | reflexivity | set_solver |].
    right. exists (VFloat 2). split; reflexivity.
  - refine (proj2 (numeric_format_fallback Demo.lib DemoFormat.lib (VInt 5)
                     [("type", VStr "text")] "text" _ _ _) _);
      [reflexivity | reflexivity | reflexivity |].
    rewrite !not_elem_of_cons. repeat split; try discriminate. apply not_elem_of_nil.
Defined.

Lemma date_format_edges_witness :
  DemoFormat.format (VStr "soon") (VDict [("type", VStr "date")]) = Ok "soon"
  ∧ DemoFormat.format (VStr "2025-01-10")
      (VDict [("type", VStr "date"); ("format", VStr "%d.%m.%Y")])
    = Ok "%Y-%m-%d of day 739261".
Proof.
  split.
  - refine (proj1 (date_format_edges Demo.lib DemoFormat.lib (VStr "soon")
                     [("type", VStr "date")] _ _ _) _);
      [reflexivity | reflexivity | reflexivity | by left].
  - refine (proj2 (date_format_edges Demo.lib DemoFormat.lib (VStr "2025-01-10")
                     [("type", VStr "date"); ("format", VStr "%d.%m.%Y")] _ _ _)
              (Timestamp 739261 0) "%d.%m.%Y" _ _ _); reflexivity.
Defined.



Lemma contains_matching_witness :
  ∃ sm,
    Demo.evaluate Demo.table
      [Demo.rule "row" "Status" [("type", VStr "contains")] Demo.bold] = Ok sm
    ∧ rows sm !! 2%nat = Some Demo.bold.
Proof.
  destruct (contains_matching Demo.lib Demo.env Demo.table true
              (Demo.rule "row" "Status" [("type", VStr "contains")] Demo.bold)
              "Status" 1 [("type", VStr "contains")] Demo.bold)
    as (sm & Hsm & _ & Hrows);
    [discriminate | reflexivity | eexists; repeat split; reflexivity | reflexivity |].
  exists sm. split; [exact Hsm |].
  exact (proj2 (Hrows 2%nat [VInt 90; VStr "Unknown"; VStr "n/a"] eq_refl) eq_refl).
Defined.

Lemma numeric_rule_inert_witness :
  apply_rule Demo.lib Demo.env Demo.table
    (Demo.rule "cell" "Score" [("type", VStr "numeric"); ("value", VStr "40")] Demo.red)
    empty_style_map
  = Ok empty_style_map.
Proof.
  refine (proj1 (numeric_rule_inert Demo.lib Demo.env Demo.table empty_style_map
                   (Demo.rule "cell" "Score"
                      [("type", VStr "numeric"); ("value", VStr "40")] Demo.red)
                   "Score" 0 [("type", VStr "numeric"); ("value", VStr "40")] Demo.red
                   _ _ _ _) _);
    [discriminate | reflexivity | eexists; repeat split; reflexivity | reflexivity |].
  by left.
Defined.

Lemma date_compare_failures_witness :
  ∃ sm,
    apply_rule Demo.lib Demo.env Demo.table
      (Demo.rule "cell" "Due" Demo.before_today Demo.red) empty_style_map = Ok sm
    ∧ warnings sm = ["'Due' date comparison: 1 invalid dates"].
Proof.
  apply (date_compare_failures Demo.lib Demo.env Demo.table empty_style_map false
           (Demo.rule "cell" "Due" Demo.before_today Demo.red) "Due" 2
           Demo.before_today Demo.red 739267);
    [discriminate | reflexivity | eexists; repeat split; reflexivity | reflexivity
    | reflexivity].
Defined.

Lemma background_precedence_witness :
  ∃ cmds,
    table_style DemoFormat.render 4 DemoFormat.theme DemoFormat.styled = Ok cmds
    ∧ background_at cmds 3 4 0 2 = Some "#ff0000"
    ∧ background_at cmds 3 4 1 2 = Some "#0000ff"
    ∧ background_at cmds 3 4 1 1 = None.
Proof.
  destruct (table_style DemoFormat.render 4 DemoFormat.theme DemoFormat.styled)
    as [cmds | e] eqn:Hstyle; [| by vm_compute in Hstyle].
  exists cmds. split; [reflexivity |].
  split; [| split].
  - destruct (background_precedence DemoFormat.render 3 3 DemoFormat.theme
                DemoFormat.styled cmds 0 2 Hstyle ltac:(lia) ltac:(lia))
      as (Hown & _ & _).
    destruct (Hown (VStr "#ff0000") eq_refl) as (k & [= <-] & Hshown). exact Hshown.
  - destruct (background_precedence DemoFormat.render 3 3 DemoFormat.theme
                DemoFormat.styled cmds 1 2 Hstyle ltac:(lia) ltac:(lia))
      as (_ & _ & Hbody).
    destruct (Hbody eq_refl ltac:(lia)) as (Hrow & _ & _).
    destruct (Hrow (VStr "#0000ff") eq_refl) as (k & [= <-] & Hshown). exact Hshown.
  - destruct (background_precedence DemoFormat.render 3 3 DemoFormat.theme
                DemoFormat.styled cmds 1 1 Hstyle ltac:(lia) ltac:(lia))
      as (_ & _ & Hbody).
    destruct (Hbody eq_refl ltac:(lia)) as (_ & _ & Hplain).
    exact (Hplain eq_refl eq_refl).
Defined.

Lemma evaluator_styles_rendered_witness :
  ∃ sm cmds,
    Demo.evaluate Demo.table [Demo.rule "cell" "Score" Demo.above_40 Demo.red] = Ok sm
    ∧ table_style DemoFormat.render 4 DemoFormat.theme sm = Ok cmds
    ∧ background_at cmds 3 4 0 2 = Some "#ff0000"
    ∧ background_at cmds 3 4 0 0 = Some "#2c3e50".
Proof.
  pose (sm := {| rows := ∅;
                 cells := {[ (2%nat, 0%nat) := Demo.red; (3%nat, 0%nat) := Demo.red ]};
                 warnings := [] |}).
  assert (Heval : Demo.evaluate Demo.table
                    [Demo.rule "cell" "Score" Demo.above_40 Demo.red] = Ok sm)
    by (vm_compute; reflexivity).
  destruct (table_style DemoFormat.render 4 DemoFormat.theme sm)
    as [cmds | e] eqn:Hstyle; [| by vm_compute in Hstyle].
  exists sm, cmds. split; [exact Heval |]. split; [exact Hstyle |].
  destruct (evaluator_styles_rendered Demo.lib Demo.env DemoFormat.render Demo.table
              [Demo.rule "cell" "Score" Demo.above_40 Demo.red] DemoFormat.theme sm cmds
              Heval Hstyle) as (Hcells & _ & Hheader).
  split.
  - destruct (Hcells 2%nat 0%nat Demo.red (VStr "#ff0000") eq_refl eq_refl)
      as (_ & _ & k & [= <-] & Hshown). exact Hshown.
  - destruct (Hheader 0%nat ltac:(simpl; lia)) as (c & k & [= <-] & [= <-] & Hshown).
    exact Hshown.
Defined.


Lemma styles_must_be_dicts_witness :
  ∃ sm,
    Demo.evaluate Demo.table [Demo.rule "row" "Status" Demo.contains_active (VStr "bold")]
    = Ok sm
    ∧ rows sm !! 0%nat = Some (VStr "bold")
    ∧ returns (DemoFormat.table_cells Demo.table sm ∅ (VDict [])) = false.
Proof.
  pose (sm := {| rows := {[ 0%nat := VStr "bold"; 1%nat := VStr "bold" ]};
                 cells := ∅; warnings := [] |}).
  assert (Heval : Demo.evaluate Demo.table
                    [Demo.rule "row" "Status" Demo.contains_active (VStr "bold")] = Ok sm)
    by (vm_compute; reflexivity).
  exists sm. split; [exact Heval |]. split; [reflexivity |].
  refine (proj1 (styles_must_be_dicts Demo.lib Demo.env DemoFormat.lib DemoFormat.paragraphs
                   Demo.table _ sm ∅ (VDict []) Heval _) 0%nat (VStr "bold") eq_refl eq_refl).
  repeat constructor.
Defined.

Lemma table_data_cells_witness :
  ∃ tbl ps,
    DemoFormat.table_cells Demo.table DemoFormat.styled ∅
      (VDict [("Score", VDict [("type", VStr "currency")])]) = Ok tbl
    ∧ length tbl = 4%nat
    ∧ tbl !! 1%nat = Some ps
    ∧ ps !! 0%nat = Some ("$10.00", cell_style).
Proof.
  destruct (DemoFormat.table_cells Demo.table DemoFormat.styled ∅
              (VDict [("Score", VDict [("type", VStr "currency")])]))
    as [tbl | e] eqn:Hdata; [| by vm_compute in Hdata].
  destruct (table_data_cells Demo.lib DemoFormat.lib DemoFormat.paragraphs Demo.table
              DemoFormat.styled ∅ (VDict [("Score", VDict [("type", VStr "currency")])])
              tbl Hdata) as (Hlen & _ & Hcells).
  destruct (Hcells 0%nat [VInt 10; VStr "Active"; VStr "2025-01-10"] eq_refl)
    as (ps & use_bold & Hps & _ & Hub & Hrow).
  destruct (Hrow 0%nat (VInt 10) eq_refl)
    as (p & spec & text & bold & Hp & Hspec & _ & _ & Htext & Hmk & _ & Hbold).
  exists tbl, ps. split; [reflexivity |]. split; [exact Hlen |]. split; [exact Hps |].
  injection Hub as <-. injection Hspec as <-.
  destruct (Hbold eq_refl) as (b & [= <-] & ->).
  vm_compute in Htext. injection Htext as <-.
  injection Hmk as <-. exact Hp.
Defined.

